(** * Rugby scorer: the match event ledger and its derived state

    A shallow embedding of the match store of [src/App.tsx] (the zustand
    store [useMatchStore], the squad resolver [getSquadStatus], the sin-bin
    filter of [SinBinTimers]), of the earlier store kept in the repository
    (its [tick]), and of the persistence shape of [src/db/matches.ts]
    ([stateToMatchSnapshot], [buildLogFromSnapshot]).

    Conventions of the embedding:
    - the string literals of a union type are the constructors of an
      inductive type, capitalised (['try'] is [Try], ['drop-goal'] is
      [DropGoal]), and the fields of an interface carry a prefix that names
      it ([se_] for [ScoreEvent], [c_] for [Card], [sub_] for
      [Substitution]);
    - a JavaScript [number] that holds a count of seconds, a score, a shirt
      number or a [Date.now()] stamp is an integer below 2^53, modelled as [Z];
    - [crypto.randomUUID()] and [Date.now()] are inputs of the operation that
      calls them ([uuid], [now]);
    - an optional field ([player?], [returnTime?]) is an [option]; an optional
      boolean that the code only ever tests for truthiness ([pending?],
      [returned?]) is a [bool], [undefined] being [false];
    - [navigator.vibrate] has no effect on the store and is left out, and so
      is the [persist] middleware: a session starts from the initial state
      that the store declares. *)

From Stdlib Require Import ZArith Lia List Sorted Permutation.
From stdpp Require Import base decidable option list sorting strings pretty gmap.

Local Open Scope Z_scope.

(** ** Event types (the interfaces at the top of [App.tsx]) *)

Inductive Team := Home | Away.
Inductive ScoreType := Try | Conversion | Penalty | DropGoal | PenaltyTry.
Inductive CardType := Yellow | Red.
Inductive SystemType := MatchStart | HalfTime | MatchEnd.

#[global] Instance Team_eq_dec : EqDecision Team.
Proof. solve_decision. Defined.
#[global] Instance ScoreType_eq_dec : EqDecision ScoreType.
Proof. solve_decision. Defined.
#[global] Instance CardType_eq_dec : EqDecision CardType.
Proof. solve_decision. Defined.
#[global] Instance SystemType_eq_dec : EqDecision SystemType.
Proof. solve_decision. Defined.

Record Player := {
  p_id : string;
  p_number : Z;
  p_name : string;
  p_position : string;
  p_isStarter : bool;
  p_team : Team }.

Record ScoreEvent := {
  se_id : string;
  se_timestamp : Z;
  se_team : Team;
  se_type : ScoreType;
  se_points : Z;
  se_player : option string;
  se_half : Z;
  se_minute : Z;
  se_matchTime : Z;
  se_pending : bool }.

Record Card := {
  c_id : string;
  c_timestamp : Z;
  c_team : Team;
  c_player : string;
  c_type : CardType;
  c_half : Z;
  c_minute : Z;
  c_matchTime : Z;
  c_returnTime : option Z;
  c_returned : bool }.

Record Substitution := {
  sub_id : string;
  sub_timestamp : Z;
  sub_team : Team;
  sub_offPlayerId : string;
  sub_onPlayerId : string;
  sub_half : Z;
  sub_minute : Z;
  sub_matchTime : Z }.

Record SystemEvent := {
  sys_id : string;
  sys_timestamp : Z;
  sys_type : SystemType;
  sys_half : Z;
  sys_matchTime : Z }.

Record CardReturnEvent := {
  cr_id : string;
  cr_timestamp : Z;
  cr_cardId : string;
  cr_team : Team;
  cr_playerId : string;
  cr_matchTime : Z }.

Record MatchConfig := {
  homeTeam : string;
  awayTeam : string;
  homeColor : string;
  awayColor : string;
  halfDuration : Z;
  playerTracking : bool;
  cardTracking : bool;
  substitutions : bool;
  competition : string;
  venue : string;
  referee : string }.

(** [MatchState extends MatchConfig]: the configuration is kept as one field. *)
Record MatchState := {
  config : MatchConfig;
  homeScore : Z;
  awayScore : Z;
  scoreEvents : list ScoreEvent;
  cards : list Card;
  players : list Player;
  substitutionEvents : list Substitution;
  systemEvents : list SystemEvent;
  cardReturnEvents : list CardReturnEvent;
  currentHalf : Z;
  elapsedSeconds : Z;
  injuryTime : Z;
  isRunning : bool;
  lastTryTeam : option Team;
  matchStarted : bool;
  currentMatchId : option string;
  showSubstitutionModal : bool }.

(** ** [set({ field: v })]: one setter per field of the store *)

Definition set_config (v : MatchConfig) (s : MatchState) : MatchState :=
  {| config := v; homeScore := homeScore s; awayScore := awayScore s;
     scoreEvents := scoreEvents s; cards := cards s; players := players s;
     substitutionEvents := substitutionEvents s;
     systemEvents := systemEvents s; cardReturnEvents := cardReturnEvents s;
     currentHalf := currentHalf s; elapsedSeconds := elapsedSeconds s;
     injuryTime := injuryTime s; isRunning := isRunning s;
     lastTryTeam := lastTryTeam s; matchStarted := matchStarted s;
     currentMatchId := currentMatchId s;
     showSubstitutionModal := showSubstitutionModal s |}.

Definition set_homeScore (v : Z) (s : MatchState) : MatchState :=
  {| config := config s; homeScore := v; awayScore := awayScore s;
     scoreEvents := scoreEvents s; cards := cards s; players := players s;
     substitutionEvents := substitutionEvents s;
     systemEvents := systemEvents s; cardReturnEvents := cardReturnEvents s;
     currentHalf := currentHalf s; elapsedSeconds := elapsedSeconds s;
     injuryTime := injuryTime s; isRunning := isRunning s;
     lastTryTeam := lastTryTeam s; matchStarted := matchStarted s;
     currentMatchId := currentMatchId s;
     showSubstitutionModal := showSubstitutionModal s |}.

Definition set_awayScore (v : Z) (s : MatchState) : MatchState :=
  {| config := config s; homeScore := homeScore s; awayScore := v;
     scoreEvents := scoreEvents s; cards := cards s; players := players s;
     substitutionEvents := substitutionEvents s;
     systemEvents := systemEvents s; cardReturnEvents := cardReturnEvents s;
     currentHalf := currentHalf s; elapsedSeconds := elapsedSeconds s;
     injuryTime := injuryTime s; isRunning := isRunning s;
     lastTryTeam := lastTryTeam s; matchStarted := matchStarted s;
     currentMatchId := currentMatchId s;
     showSubstitutionModal := showSubstitutionModal s |}.

Definition set_scoreEvents (v : list ScoreEvent) (s : MatchState)
  : MatchState :=
  {| config := config s; homeScore := homeScore s; awayScore := awayScore s;
     scoreEvents := v; cards := cards s; players := players s;
     substitutionEvents := substitutionEvents s;
     systemEvents := systemEvents s; cardReturnEvents := cardReturnEvents s;
     currentHalf := currentHalf s; elapsedSeconds := elapsedSeconds s;
     injuryTime := injuryTime s; isRunning := isRunning s;
     lastTryTeam := lastTryTeam s; matchStarted := matchStarted s;
     currentMatchId := currentMatchId s;
     showSubstitutionModal := showSubstitutionModal s |}.

Definition set_cards (v : list Card) (s : MatchState) : MatchState :=
  {| config := config s; homeScore := homeScore s; awayScore := awayScore s;
     scoreEvents := scoreEvents s; cards := v; players := players s;
     substitutionEvents := substitutionEvents s;
     systemEvents := systemEvents s; cardReturnEvents := cardReturnEvents s;
     currentHalf := currentHalf s; elapsedSeconds := elapsedSeconds s;
     injuryTime := injuryTime s; isRunning := isRunning s;
     lastTryTeam := lastTryTeam s; matchStarted := matchStarted s;
     currentMatchId := currentMatchId s;
     showSubstitutionModal := showSubstitutionModal s |}.

Definition set_players (v : list Player) (s : MatchState) : MatchState :=
  {| config := config s; homeScore := homeScore s; awayScore := awayScore s;
     scoreEvents := scoreEvents s; cards := cards s; players := v;
     substitutionEvents := substitutionEvents s;
     systemEvents := systemEvents s; cardReturnEvents := cardReturnEvents s;
     currentHalf := currentHalf s; elapsedSeconds := elapsedSeconds s;
     injuryTime := injuryTime s; isRunning := isRunning s;
     lastTryTeam := lastTryTeam s; matchStarted := matchStarted s;
     currentMatchId := currentMatchId s;
     showSubstitutionModal := showSubstitutionModal s |}.

Definition set_substitutionEvents (v : list Substitution) (s : MatchState)
  : MatchState :=
  {| config := config s; homeScore := homeScore s; awayScore := awayScore s;
     scoreEvents := scoreEvents s; cards := cards s; players := players s;
     substitutionEvents := v; systemEvents := systemEvents s;
     cardReturnEvents := cardReturnEvents s; currentHalf := currentHalf s;
     elapsedSeconds := elapsedSeconds s; injuryTime := injuryTime s;
     isRunning := isRunning s; lastTryTeam := lastTryTeam s;
     matchStarted := matchStarted s; currentMatchId := currentMatchId s;
     showSubstitutionModal := showSubstitutionModal s |}.

Definition set_systemEvents (v : list SystemEvent) (s : MatchState)
  : MatchState :=
  {| config := config s; homeScore := homeScore s; awayScore := awayScore s;
     scoreEvents := scoreEvents s; cards := cards s; players := players s;
     substitutionEvents := substitutionEvents s; systemEvents := v;
     cardReturnEvents := cardReturnEvents s; currentHalf := currentHalf s;
     elapsedSeconds := elapsedSeconds s; injuryTime := injuryTime s;
     isRunning := isRunning s; lastTryTeam := lastTryTeam s;
     matchStarted := matchStarted s; currentMatchId := currentMatchId s;
     showSubstitutionModal := showSubstitutionModal s |}.

Definition set_cardReturnEvents (v : list CardReturnEvent) (s : MatchState)
  : MatchState :=
  {| config := config s; homeScore := homeScore s; awayScore := awayScore s;
     scoreEvents := scoreEvents s; cards := cards s; players := players s;
     substitutionEvents := substitutionEvents s;
     systemEvents := systemEvents s; cardReturnEvents := v;
     currentHalf := currentHalf s; elapsedSeconds := elapsedSeconds s;
     injuryTime := injuryTime s; isRunning := isRunning s;
     lastTryTeam := lastTryTeam s; matchStarted := matchStarted s;
     currentMatchId := currentMatchId s;
     showSubstitutionModal := showSubstitutionModal s |}.

Definition set_currentHalf (v : Z) (s : MatchState) : MatchState :=
  {| config := config s; homeScore := homeScore s; awayScore := awayScore s;
     scoreEvents := scoreEvents s; cards := cards s; players := players s;
     substitutionEvents := substitutionEvents s;
     systemEvents := systemEvents s; cardReturnEvents := cardReturnEvents s;
     currentHalf := v; elapsedSeconds := elapsedSeconds s;
     injuryTime := injuryTime s; isRunning := isRunning s;
     lastTryTeam := lastTryTeam s; matchStarted := matchStarted s;
     currentMatchId := currentMatchId s;
     showSubstitutionModal := showSubstitutionModal s |}.

Definition set_elapsedSeconds (v : Z) (s : MatchState) : MatchState :=
  {| config := config s; homeScore := homeScore s; awayScore := awayScore s;
     scoreEvents := scoreEvents s; cards := cards s; players := players s;
     substitutionEvents := substitutionEvents s;
     systemEvents := systemEvents s; cardReturnEvents := cardReturnEvents s;
     currentHalf := currentHalf s; elapsedSeconds := v;
     injuryTime := injuryTime s; isRunning := isRunning s;
     lastTryTeam := lastTryTeam s; matchStarted := matchStarted s;
     currentMatchId := currentMatchId s;
     showSubstitutionModal := showSubstitutionModal s |}.

Definition set_injuryTime (v : Z) (s : MatchState) : MatchState :=
  {| config := config s; homeScore := homeScore s; awayScore := awayScore s;
     scoreEvents := scoreEvents s; cards := cards s; players := players s;
     substitutionEvents := substitutionEvents s;
     systemEvents := systemEvents s; cardReturnEvents := cardReturnEvents s;
     currentHalf := currentHalf s; elapsedSeconds := elapsedSeconds s;
     injuryTime := v; isRunning := isRunning s; lastTryTeam := lastTryTeam s;
     matchStarted := matchStarted s; currentMatchId := currentMatchId s;
     showSubstitutionModal := showSubstitutionModal s |}.

Definition set_isRunning (v : bool) (s : MatchState) : MatchState :=
  {| config := config s; homeScore := homeScore s; awayScore := awayScore s;
     scoreEvents := scoreEvents s; cards := cards s; players := players s;
     substitutionEvents := substitutionEvents s;
     systemEvents := systemEvents s; cardReturnEvents := cardReturnEvents s;
     currentHalf := currentHalf s; elapsedSeconds := elapsedSeconds s;
     injuryTime := injuryTime s; isRunning := v;
     lastTryTeam := lastTryTeam s; matchStarted := matchStarted s;
     currentMatchId := currentMatchId s;
     showSubstitutionModal := showSubstitutionModal s |}.

Definition set_lastTryTeam (v : option Team) (s : MatchState) : MatchState :=
  {| config := config s; homeScore := homeScore s; awayScore := awayScore s;
     scoreEvents := scoreEvents s; cards := cards s; players := players s;
     substitutionEvents := substitutionEvents s;
     systemEvents := systemEvents s; cardReturnEvents := cardReturnEvents s;
     currentHalf := currentHalf s; elapsedSeconds := elapsedSeconds s;
     injuryTime := injuryTime s; isRunning := isRunning s; lastTryTeam := v;
     matchStarted := matchStarted s; currentMatchId := currentMatchId s;
     showSubstitutionModal := showSubstitutionModal s |}.

Definition set_matchStarted (v : bool) (s : MatchState) : MatchState :=
  {| config := config s; homeScore := homeScore s; awayScore := awayScore s;
     scoreEvents := scoreEvents s; cards := cards s; players := players s;
     substitutionEvents := substitutionEvents s;
     systemEvents := systemEvents s; cardReturnEvents := cardReturnEvents s;
     currentHalf := currentHalf s; elapsedSeconds := elapsedSeconds s;
     injuryTime := injuryTime s; isRunning := isRunning s;
     lastTryTeam := lastTryTeam s; matchStarted := v;
     currentMatchId := currentMatchId s;
     showSubstitutionModal := showSubstitutionModal s |}.

Definition set_currentMatchId (v : option string) (s : MatchState)
  : MatchState :=
  {| config := config s; homeScore := homeScore s; awayScore := awayScore s;
     scoreEvents := scoreEvents s; cards := cards s; players := players s;
     substitutionEvents := substitutionEvents s;
     systemEvents := systemEvents s; cardReturnEvents := cardReturnEvents s;
     currentHalf := currentHalf s; elapsedSeconds := elapsedSeconds s;
     injuryTime := injuryTime s; isRunning := isRunning s;
     lastTryTeam := lastTryTeam s; matchStarted := matchStarted s;
     currentMatchId := v;
     showSubstitutionModal := showSubstitutionModal s |}.

Definition set_showSubstitutionModal (v : bool) (s : MatchState) : MatchState :=
  {| config := config s; homeScore := homeScore s; awayScore := awayScore s;
     scoreEvents := scoreEvents s; cards := cards s; players := players s;
     substitutionEvents := substitutionEvents s;
     systemEvents := systemEvents s; cardReturnEvents := cardReturnEvents s;
     currentHalf := currentHalf s; elapsedSeconds := elapsedSeconds s;
     injuryTime := injuryTime s; isRunning := isRunning s;
     lastTryTeam := lastTryTeam s; matchStarted := matchStarted s;
     currentMatchId := currentMatchId s; showSubstitutionModal := v |}.

(** ** JavaScript array helpers *)

(** [arr[i]] for a possibly negative index: [undefined] out of range. *)
Definition at_index {A} (l : list A) (i : Z) : option A :=
  if i <? 0 then None else l !! Z.to_nat i.

(** [arr.slice(0, -1)] is [removelast]; [arr[arr.length - 1]] and
    [arr.slice(-1)[0]] are stdpp's [last]. *)
Definition slice_init {A} (l : list A) : list A := removelast l.

(** ** The store's initial state and operations *)

Definition initialConfig : MatchConfig :=
  {| homeTeam := "Home"; awayTeam := "Away";
     homeColor := "#3b82f6"; awayColor := "#ef4444";
     halfDuration := 40 * 60;
     playerTracking := true; cardTracking := true; substitutions := false;
     competition := EmptyString; venue := EmptyString;
     referee := EmptyString |}.

Definition initialState : MatchState :=
  {| config := initialConfig; homeScore := 0; awayScore := 0;
     scoreEvents := []; cards := []; players := [];
     substitutionEvents := []; systemEvents := []; cardReturnEvents := [];
     currentHalf := 1; elapsedSeconds := 0; injuryTime := 0;
     isRunning := false; lastTryTeam := None; matchStarted := false;
     currentMatchId := None; showSubstitutionModal := false |}.

Definition updateConfig (patch : MatchConfig -> MatchConfig) (s : MatchState)
  : MatchState := set_config (patch (config s)) s.

Definition startMatch (uuid : string) (now : Z) (s : MatchState) : MatchState :=
  let ev := {| sys_id := uuid; sys_timestamp := now; sys_type := MatchStart;
               sys_half := 1; sys_matchTime := 0 |} in
  set_systemEvents [ev] (set_matchStarted true s).

Definition endMatch (uuid : string) (now : Z) (s : MatchState) : MatchState :=
  let closeEv := {| sys_id := uuid; sys_timestamp := now; sys_type := MatchEnd;
                    sys_half := currentHalf s;
                    sys_matchTime := elapsedSeconds s |} in
  {| config := config s; homeScore := 0; awayScore := 0;
     scoreEvents := []; cards := []; players := [];
     substitutionEvents := [];
     systemEvents := systemEvents s ++ [closeEv];
     cardReturnEvents := [];
     currentHalf := 1; elapsedSeconds := 0; injuryTime := 0;
     isRunning := false; lastTryTeam := None; matchStarted := false;
     currentMatchId := None;
     showSubstitutionModal := showSubstitutionModal s |}.

Definition setCurrentMatchId (id : option string) (s : MatchState)
  : MatchState :=
  set_currentMatchId id s.

Definition setShowSubstitutionModal (v : bool) (s : MatchState) : MatchState :=
  set_showSubstitutionModal v s.

Definition addSubstitution (uuid : string) (now : Z) (team : Team)
    (offPlayerId onPlayerId : string) (onPlayer : option Player)
    (s : MatchState) : MatchState :=
  let sub := {| sub_id := uuid; sub_timestamp := now; sub_team := team;
                sub_offPlayerId := offPlayerId; sub_onPlayerId := onPlayerId;
                sub_half := currentHalf s;
                sub_minute := elapsedSeconds s / 60;
                sub_matchTime := elapsedSeconds s |} in
  let hasOnPlayer :=
    existsb (fun p => bool_decide (p_id p = onPlayerId)) (players s) in
  match negb hasOnPlayer, onPlayer with
  | true, Some p =>
      set_players (players s ++ [p])
        (set_substitutionEvents (substitutionEvents s ++ [sub]) s)
  | _, _ => set_substitutionEvents (substitutionEvents s ++ [sub]) s
  end.

Definition updateScoreEventPlayer (eventId : string) (playerId : option string)
    (s : MatchState) : MatchState :=
  let reassign e :=
    if bool_decide (se_id e = eventId) then
      {| se_id := se_id e; se_timestamp := se_timestamp e; se_team := se_team e;
         se_type := se_type e; se_points := se_points e; se_player := playerId;
         se_half := se_half e; se_minute := se_minute e;
         se_matchTime := se_matchTime e; se_pending := se_pending e |}
    else e in
  set_scoreEvents (map reassign (scoreEvents s)) s.

(** The loop of [removeScoreEvent]: one iteration on the accumulator
    [(homeScore, awayScore, lastTryTeam)]. *)
Definition recompute_step (acc : Z * Z * option Team) (e : ScoreEvent)
  : Z * Z * option Team :=
  let '(h, a, ltt) := acc in
  if se_pending e then acc
  else
    let h' := if bool_decide (se_team e = Home) then h + se_points e else h in
    let a' := if bool_decide (se_team e = Home) then a else a + se_points e in
    let ltt1 :=
      if bool_decide (se_type e = Try) || bool_decide (se_type e = PenaltyTry)
      then Some (se_team e) else ltt in
    let ltt2 :=
      if bool_decide (se_type e = Conversion) then Some (se_team e) else ltt1 in
    (h', a', ltt2).

Definition recompute (evs : list ScoreEvent) : Z * Z * option Team :=
  fold_left recompute_step evs (0, 0, None).

Definition removeScoreEvent (eventId : string) (s : MatchState) : MatchState :=
  let evs := List.filter (fun e => negb (bool_decide (se_id e = eventId)))
               (scoreEvents s) in
  let '(h, a, ltt) := recompute evs in
  set_lastTryTeam ltt
    (set_awayScore a (set_homeScore h (set_scoreEvents evs s))).

Definition removeCard (cardId : string) (s : MatchState) : MatchState :=
  set_cards
    (List.filter (fun c => negb (bool_decide (c_id c = cardId))) (cards s)) s.

Definition removeSubstitution (subId : string) (s : MatchState) : MatchState :=
  set_substitutionEvents
    (List.filter (fun x => negb (bool_decide (sub_id x = subId)))
       (substitutionEvents s)) s.

(** The fixed table of [addScore]. *)
Definition points_of (type : ScoreType) : Z :=
  match type with
  | Try => 5
  | Conversion => 2
  | Penalty => 3
  | DropGoal => 3
  | PenaltyTry => 7
  end.

(** [scoreEvents.filter(e => e.type === 'try' && !e.pending).slice(-1)[0]] *)
Definition lastTry (evs : list ScoreEvent) : option ScoreEvent :=
  last (List.filter
          (fun e => bool_decide (se_type e = Try) && negb (se_pending e)) evs).

(** The guard of [addScore]: [true] when the call returns early. *)
Definition conversionRefused (team : Team) (evs : list ScoreEvent) : bool :=
  match lastTry evs with
  | None => true
  | Some e => negb (bool_decide (se_team e = team))
  end.

Definition set_score (team : Team) (v : Z) (s : MatchState) : MatchState :=
  match team with
  | Home => set_homeScore v s
  | Away => set_awayScore v s
  end.

Definition get_score (team : Team) (s : MatchState) : Z :=
  match team with
  | Home => homeScore s
  | Away => awayScore s
  end.

Definition addScore (uuid : string) (now : Z) (team : Team) (type : ScoreType)
    (player : option string) (pending : bool) (s : MatchState) : MatchState :=
  if bool_decide (type = Conversion) && conversionRefused team (scoreEvents s)
  then s
  else
    let points := points_of type in
    let event := {| se_id := uuid; se_timestamp := now; se_team := team;
                    se_type := type; se_points := points; se_player := player;
                    se_half := currentHalf s;
                    se_minute := elapsedSeconds s / 60;
                    se_matchTime := elapsedSeconds s;
                    se_pending := pending |} in
    let newScore :=
      if pending then get_score team s else get_score team s + points in
    let ltt :=
      if (bool_decide (type = Try) || bool_decide (type = PenaltyTry))
         && negb pending
      then Some team else None in
    set_lastTryTeam ltt
      (set_scoreEvents (scoreEvents s ++ [event]) (set_score team newScore s)).

Definition addCard (uuid : string) (now : Z) (team : Team) (player : string)
    (type : CardType) (s : MatchState) : MatchState :=
  let card := {| c_id := uuid; c_timestamp := now; c_team := team;
                 c_player := player; c_type := type;
                 c_half := currentHalf s;
                 c_minute := elapsedSeconds s / 60;
                 c_matchTime := elapsedSeconds s;
                 c_returnTime :=
                   if bool_decide (type = Yellow)
                   then Some (elapsedSeconds s + 600) else None;
                 c_returned := false |} in
  set_cards (cards s ++ [card]) s.

Definition addPlayer (uuid : string) (playerData : Player) (s : MatchState)
  : MatchState :=
  let player := {| p_id := uuid; p_number := p_number playerData;
                   p_name := p_name playerData;
                   p_position := p_position playerData;
                   p_isStarter := p_isStarter playerData;
                   p_team := p_team playerData |} in
  set_players (players s ++ [player]) s.

Definition setPlayers (ps : list Player) (s : MatchState) : MatchState :=
  set_players ps s.

Definition updatePlayer (id : string) (updates : Player -> Player)
    (s : MatchState) : MatchState :=
  set_players
    (map (fun p => if bool_decide (p_id p = id) then updates p else p)
       (players s)) s.

Definition deletePlayer (id : string) (s : MatchState) : MatchState :=
  set_players
    (List.filter (fun p => negb (bool_decide (p_id p = id))) (players s)) s.

Definition mark_returned (c : Card) : Card :=
  {| c_id := c_id c; c_timestamp := c_timestamp c; c_team := c_team c;
     c_player := c_player c; c_type := c_type c; c_half := c_half c;
     c_minute := c_minute c; c_matchTime := c_matchTime c;
     c_returnTime := c_returnTime c; c_returned := true |}.

Definition returnFromSinBin (uuid : string) (now : Z) (cardId : string)
    (s : MatchState) : MatchState :=
  match List.find (fun c => bool_decide (c_id c = cardId)) (cards s) with
  | None => s
  | Some card =>
      let returnEv := {| cr_id := uuid; cr_timestamp := now;
                         cr_cardId := cardId; cr_team := c_team card;
                         cr_playerId := c_player card;
                         cr_matchTime := elapsedSeconds s |} in
      set_cardReturnEvents (cardReturnEvents s ++ [returnEv])
        (set_cards
           (map (fun c => if bool_decide (c_id c = cardId)
                          then mark_returned c else c) (cards s)) s)
  end.

Definition approve (e : ScoreEvent) : ScoreEvent :=
  {| se_id := se_id e; se_timestamp := se_timestamp e; se_team := se_team e;
     se_type := se_type e; se_points := se_points e; se_player := se_player e;
     se_half := se_half e; se_minute := se_minute e;
     se_matchTime := se_matchTime e; se_pending := false |}.

Definition resolvePendingEvent (eventId : string) (approved : bool)
    (s : MatchState) : MatchState :=
  match List.find (fun e => bool_decide (se_id e = eventId))
          (scoreEvents s) with
  | None => s
  | Some event =>
      if approved then
        let ltt :=
          if bool_decide (se_type event = Try)
             || bool_decide (se_type event = PenaltyTry)
          then Some (se_team event) else None in
        set_lastTryTeam ltt
          (set_score (se_team event)
             (get_score (se_team event) s + se_points event)
             (set_scoreEvents
                (map (fun e => if bool_decide (se_id e = eventId)
                               then approve e else e) (scoreEvents s)) s))
      else
        set_scoreEvents
          (List.filter (fun e => negb (bool_decide (se_id e = eventId)))
             (scoreEvents s)) s
  end.

(** [x?.timestamp || 0] *)
Definition time_or_zero {A} (ts : A -> Z) (x : option A) : Z :=
  match x with
  | Some e => ts e
  | None => 0
  end.

Definition undo (s : MatchState) : MatchState :=
  let lastEvent := last (scoreEvents s) in
  let lastCard := last (cards s) in
  let lastSub := last (substitutionEvents s) in
  let lastEventTime := time_or_zero se_timestamp lastEvent in
  let lastCardTime := time_or_zero c_timestamp lastCard in
  let lastSubTime := time_or_zero sub_timestamp lastSub in
  if (lastEventTime <=? lastSubTime) && (lastCardTime <=? lastSubTime)
     && bool_decide (is_Some lastSub)
  then set_substitutionEvents (slice_init (substitutionEvents s)) s
  else
    match (lastCardTime <? lastEventTime) && (lastSubTime <? lastEventTime),
          lastEvent with
    | true, Some e =>
        let scoreAdjustment := if se_pending e then 0 else se_points e in
        let ltt :=
          if bool_decide (se_type e = Conversion) then Some (se_team e)
          else
            match at_index (scoreEvents s)
                    (Z.of_nat (length (scoreEvents s)) - 2) with
            | Some prev =>
                if bool_decide (se_type prev = Try)
                then Some (se_team prev) else None
            | None => None
            end in
        set_lastTryTeam ltt
          (set_scoreEvents (slice_init (scoreEvents s))
             (set_score (se_team e)
                (get_score (se_team e) s - scoreAdjustment) s))
    | _, _ =>
        match lastCard with
        | Some _ => set_cards (slice_init (cards s)) s
        | None => s
        end
    end.

Definition toggleTimer (s : MatchState) : MatchState :=
  set_isRunning (negb (isRunning s)) s.

(** [tick] of [App.tsx]. *)
Definition tick (s : MatchState) : MatchState :=
  if negb (isRunning s) then s
  else set_elapsedSeconds (elapsedSeconds s + 1) s.

Definition addInjuryTime (s : MatchState) : MatchState :=
  set_injuryTime (injuryTime s + 60) s.

Definition nextHalf (uuid : string) (now : Z) (s : MatchState) : MatchState :=
  let halfEv := {| sys_id := uuid; sys_timestamp := now; sys_type := HalfTime;
                   sys_half := currentHalf s;
                   sys_matchTime := elapsedSeconds s |} in
  set_isRunning false
    (set_injuryTime 0
       (set_elapsedSeconds 0
          (set_currentHalf (currentHalf s + 1)
             (set_systemEvents (systemEvents s ++ [halfEv]) s)))).

(** The earlier version of the store that the repository keeps next to
    [App.tsx]; its [tick] pauses the clock at the end of regular time. *)
Module Legacy.

Definition tick (s : MatchState) : MatchState :=
  if negb (isRunning s) then s
  else
    let newElapsed := elapsedSeconds s + 1 in
    let regularTime := halfDuration (config s) in
    if (regularTime <=? newElapsed) && (elapsedSeconds s <? regularTime)
    then set_isRunning false (set_elapsedSeconds newElapsed s)
    else set_elapsedSeconds newElapsed s.

(** The clock actions of a half, and how many of the ticks of a run of
    them pause the clock. *)
Inductive ClockOp := ClockTick | ClockToggle.

Definition clock (op : ClockOp) (s : MatchState) : MatchState :=
  match op with
  | ClockTick => tick s
  | ClockToggle => toggleTimer s
  end.

Definition autoPauses (op : ClockOp) (s : MatchState) : bool :=
  match op with
  | ClockTick => isRunning s && negb (isRunning (tick s))
  | ClockToggle => false
  end.

Fixpoint autoPauseCount (ops : list ClockOp) (s : MatchState) : nat :=
  match ops with
  | [] => 0%nat
  | op :: rest =>
      ((if autoPauses op s then 1 else 0)
       + autoPauseCount rest (clock op s))%nat
  end.

End Legacy.

(** ** [Array.prototype.sort] with a numeric comparator

    [arr.sort((a, b) => key(a) - key(b))] is a stable sort (ECMAScript 2019):
    the result is the ascending arrangement in which elements of equal key
    keep their order.  Insertion from the right computes exactly that
    arrangement. *)
Section StableSort.
Context {A : Type} (key : A -> Z).

Fixpoint insert_by (x : A) (l : list A) : list A :=
  match l with
  | [] => [x]
  | y :: l' => if key x <=? key y then x :: l else y :: insert_by x l'
  end.

Definition sort_by (l : list A) : list A := foldr insert_by [] l.

Definition key_le (a b : A) : Prop := key a <= key b.

(** Ascending order of the keys along a list. *)
Definition ascending (l : list A) : Prop := Sorted key_le l.
End StableSort.

(** ** Squad status resolver ([getSquadStatus]) *)

Record SquadStatus := { onPitch : list Player; onBench : list Player }.

Definition redCarded (team : Team) (c : Card) : bool :=
  bool_decide (c_team c = team) && bool_decide (c_type c = Red).

Definition inSinBin (team : Team) (elapsed : Z) (c : Card) : bool :=
  bool_decide (c_team c = team) && bool_decide (c_type c = Yellow)
  && negb (c_returned c)
  && match c_returnTime c with
     | Some rt => elapsed <? rt
     | None => false
     end.

(** The two [forEach] loops that build the [Set] of players on the field. *)
Definition addStarter (acc : gset string) (p : Player) : gset string :=
  if p_isStarter p then acc ∪ {[ p_id p ]} else acc.

Definition applySub (acc : gset string) (sub : Substitution) : gset string :=
  (acc ∖ {[ sub_offPlayerId sub ]}) ∪ {[ sub_onPlayerId sub ]}.

Definition getSquadStatus (team : Team) (players : list Player)
    (substitutionEvents : list Substitution) (cards : list Card)
    (elapsedSeconds : Z) : SquadStatus :=
  let teamPlayers :=
    sort_by p_number
      (List.filter (fun p => bool_decide (p_team p = team)) players) in
  let teamSubs :=
    List.filter (fun s => bool_decide (sub_team s = team)) substitutionEvents in
  let redCardedIds : gset string :=
    list_to_set (map c_player (List.filter (redCarded team) cards)) in
  let inSinBinIds : gset string :=
    list_to_set
      (map c_player (List.filter (inSinBin team elapsedSeconds) cards)) in
  let currentlyOnPitch : gset string :=
    fold_left applySub teamSubs (fold_left addStarter teamPlayers ∅) in
  {| onPitch :=
       List.filter
         (fun p => bool_decide (p_id p ∈ currentlyOnPitch)
                   && negb (bool_decide (p_id p ∈ redCardedIds))
                   && negb (bool_decide (p_id p ∈ inSinBinIds)))
         teamPlayers;
     onBench :=
       List.filter (fun p => negb (bool_decide (p_id p ∈ currentlyOnPitch)))
         teamPlayers |}.

(** ** Sin-bin timers (the filter of the [SinBinTimers] component)

    [c.returnTime && ...] is a truthiness test: a missing return time and a
    return time of [0] both fail it. *)
Definition sinBinActive (elapsed : Z) (c : Card) : bool :=
  bool_decide (c_type c = Yellow) && negb (c_returned c)
  && match c_returnTime c with
     | Some rt => negb (rt =? 0) && (elapsed <? rt)
     | None => false
     end.

Definition activeSinBins (cards : list Card) (elapsed : Z) : list Card :=
  List.filter (sinBinActive elapsed) cards.

(** [timeLeft] of a listed card. *)
Definition timeLeft (elapsed : Z) (c : Card) : Z :=
  time_or_zero id (c_returnTime c) - elapsed.

(** ** Persistence shape ([db/types.ts], [db/matches.ts]) *)

Inductive LogType :=
  | LogScore | LogCard | LogSubstitution
  | LogMatchStart | LogHalfTime | LogMatchEnd.

#[global] Instance LogType_eq_dec : EqDecision LogType.
Proof. solve_decision. Defined.

Record LogEvent := {
  log_id : string;
  log_timestamp : Z;
  log_type : LogType;
  log_team : option Team;
  log_scoreType : option ScoreType;
  log_points : option Z;
  log_playerId : option string;
  log_pending : option bool;
  log_cardType : option CardType;
  log_returned : option bool;
  log_returnTime : option Z;
  log_offPlayerId : option string;
  log_onPlayerId : option string;
  log_half : option Z;
  log_matchTime : option Z }.

Record SnapshotConfig := {
  snap_playerTracking : bool;
  snap_cardTracking : bool;
  snap_substitutions : bool }.

Record MatchSnapshot := {
  snap_homeTeamName : string;
  snap_awayTeamName : string;
  snap_homeColor : string;
  snap_awayColor : string;
  snap_homeScore : Z;
  snap_awayScore : Z;
  snap_halfDuration : Z;
  snap_competition : string;
  snap_venue : string;
  snap_referee : string;
  snap_currentHalf : Z;
  snap_elapsedSeconds : Z;
  snap_injuryTime : Z;
  snap_config : SnapshotConfig;
  snap_scoreEvents : list ScoreEvent;
  snap_cards : list Card;
  snap_substitutionEvents : list Substitution;
  snap_systemEvents : list SystemEvent;
  snap_playerIds : list string }.

Definition stateToMatchSnapshot (s : MatchState) : MatchSnapshot :=
  {| snap_homeTeamName := homeTeam (config s);
     snap_awayTeamName := awayTeam (config s);
     snap_homeColor := homeColor (config s);
     snap_awayColor := awayColor (config s);
     snap_homeScore := homeScore s;
     snap_awayScore := awayScore s;
     snap_halfDuration := halfDuration (config s);
     snap_competition := competition (config s);
     snap_venue := venue (config s);
     snap_referee := referee (config s);
     snap_currentHalf := currentHalf s;
     snap_elapsedSeconds := elapsedSeconds s;
     snap_injuryTime := injuryTime s;
     snap_config :=
       {| snap_playerTracking := playerTracking (config s);
          snap_cardTracking := cardTracking (config s);
          snap_substitutions := substitutions (config s) |};
     snap_scoreEvents := scoreEvents s;
     snap_cards := cards s;
     snap_substitutionEvents := substitutionEvents s;
     snap_systemEvents := systemEvents s;
     snap_playerIds := map p_id (players s) |}.

(** The four [push({ ... })] literals of [buildLogFromSnapshot]. *)
Definition scoreEntry (e : ScoreEvent) : LogEvent :=
  {| log_id := se_id e; log_timestamp := se_timestamp e; log_type := LogScore;
     log_team := Some (se_team e); log_scoreType := Some (se_type e);
     log_points := Some (se_points e); log_playerId := se_player e;
     log_pending := Some (se_pending e);
     log_cardType := None; log_returned := None; log_returnTime := None;
     log_offPlayerId := None; log_onPlayerId := None;
     log_half := Some (se_half e); log_matchTime := Some (se_matchTime e) |}.

Definition cardEntry (c : Card) : LogEvent :=
  {| log_id := c_id c; log_timestamp := c_timestamp c; log_type := LogCard;
     log_team := Some (c_team c); log_scoreType := None; log_points := None;
     log_playerId := Some (c_player c); log_pending := None;
     log_cardType := Some (c_type c); log_returned := Some (c_returned c);
     log_returnTime := c_returnTime c;
     log_offPlayerId := None; log_onPlayerId := None;
     log_half := Some (c_half c); log_matchTime := Some (c_matchTime c) |}.

Definition substitutionEntry (x : Substitution) : LogEvent :=
  {| log_id := sub_id x; log_timestamp := sub_timestamp x;
     log_type := LogSubstitution;
     log_team := Some (sub_team x); log_scoreType := None; log_points := None;
     log_playerId := None; log_pending := None;
     log_cardType := None; log_returned := None; log_returnTime := None;
     log_offPlayerId := Some (sub_offPlayerId x);
     log_onPlayerId := Some (sub_onPlayerId x);
     log_half := Some (sub_half x); log_matchTime := Some (sub_matchTime x) |}.

Definition logTypeOfSystem (t : SystemType) : LogType :=
  match t with
  | MatchStart => LogMatchStart
  | HalfTime => LogHalfTime
  | MatchEnd => LogMatchEnd
  end.

Definition systemEntry (e : SystemEvent) : LogEvent :=
  {| log_id := sys_id e; log_timestamp := sys_timestamp e;
     log_type := logTypeOfSystem (sys_type e);
     log_team := None; log_scoreType := None; log_points := None;
     log_playerId := None; log_pending := None;
     log_cardType := None; log_returned := None; log_returnTime := None;
     log_offPlayerId := None; log_onPlayerId := None;
     log_half := Some (sys_half e); log_matchTime := Some (sys_matchTime e) |}.

(** The log before [log.sort]: the four loops, in their order. *)
Definition pushedEntries (snap : MatchSnapshot) : list LogEvent :=
  map scoreEntry (snap_scoreEvents snap)
  ++ map cardEntry (snap_cards snap)
  ++ map substitutionEntry (snap_substitutionEvents snap)
  ++ map systemEntry (snap_systemEvents snap).

Definition buildLogFromSnapshot (snap : MatchSnapshot) : list LogEvent :=
  sort_by log_timestamp (pushedEntries snap).

(** The log that [saveFinishedMatch] stores for a session. *)
Definition matchLog (s : MatchState) : list LogEvent :=
  buildLogFromSnapshot (stateToMatchSnapshot s).

(** ** The store as a transition system

    One constructor per action of the store; [run] dispatches to the
    operation.  [uuid] and [now] are what [crypto.randomUUID()] and
    [Date.now()] return during the call. *)

Inductive Op :=
| OpUpdateConfig (patch : MatchConfig -> MatchConfig)
| OpStartMatch
| OpEndMatch
| OpSetCurrentMatchId (id : option string)
| OpSetShowSubstitutionModal (v : bool)
| OpAddSubstitution (team : Team) (offPlayerId onPlayerId : string)
    (onPlayer : option Player)
| OpUpdateScoreEventPlayer (eventId : string) (playerId : option string)
| OpRemoveScoreEvent (eventId : string)
| OpRemoveCard (cardId : string)
| OpRemoveSubstitution (subId : string)
| OpAddScore (team : Team) (type : ScoreType) (player : option string)
    (pending : bool)
| OpAddCard (team : Team) (player : string) (type : CardType)
| OpAddPlayer (playerData : Player)
| OpSetPlayers (ps : list Player)
| OpUpdatePlayer (id : string) (updates : Player -> Player)
| OpDeletePlayer (id : string)
| OpReturnFromSinBin (cardId : string)
| OpResolvePendingEvent (eventId : string) (approved : bool)
| OpUndo
| OpToggleTimer
| OpTick
| OpAddInjuryTime
| OpNextHalf.

Definition run (uuid : string) (now : Z) (op : Op) (s : MatchState)
  : MatchState :=
  match op with
  | OpUpdateConfig patch => updateConfig patch s
  | OpStartMatch => startMatch uuid now s
  | OpEndMatch => endMatch uuid now s
  | OpSetCurrentMatchId id => setCurrentMatchId id s
  | OpSetShowSubstitutionModal v => setShowSubstitutionModal v s
  | OpAddSubstitution team off on onPlayer =>
      addSubstitution uuid now team off on onPlayer s
  | OpUpdateScoreEventPlayer eventId playerId =>
      updateScoreEventPlayer eventId playerId s
  | OpRemoveScoreEvent eventId => removeScoreEvent eventId s
  | OpRemoveCard cardId => removeCard cardId s
  | OpRemoveSubstitution subId => removeSubstitution subId s
  | OpAddScore team type player pending =>
      addScore uuid now team type player pending s
  | OpAddCard team player type => addCard uuid now team player type s
  | OpAddPlayer playerData => addPlayer uuid playerData s
  | OpSetPlayers ps => setPlayers ps s
  | OpUpdatePlayer id updates => updatePlayer id updates s
  | OpDeletePlayer id => deletePlayer id s
  | OpReturnFromSinBin cardId => returnFromSinBin uuid now cardId s
  | OpResolvePendingEvent eventId approved =>
      resolvePendingEvent eventId approved s
  | OpUndo => undo s
  | OpToggleTimer => toggleTimer s
  | OpTick => tick s
  | OpAddInjuryTime => addInjuryTime s
  | OpNextHalf => nextHalf uuid now s
  end.

(** A fresh identifier: one that no event of the ledger carries. *)
Definition fresh (uuid : string) (s : MatchState) : bool :=
  negb (existsb (fun e => bool_decide (se_id e = uuid)) (scoreEvents s))
  && negb (existsb (fun c => bool_decide (c_id c = uuid)) (cards s))
  && negb (existsb (fun x => bool_decide (sub_id x = uuid))
             (substitutionEvents s)).

(** States reachable from [initialState] by actions that pass [gate], with
    fresh identifiers and a clock that never runs backwards; the index is the
    time of the last action. *)
Inductive reachable (gate : MatchState -> Op -> bool)
  : Z -> MatchState -> Prop :=
| reach_init now :
    0 < now -> reachable gate now initialState
| reach_step now now' uuid op s :
    reachable gate now s ->
    now <= now' ->
    fresh uuid s = true ->
    gate s op = true ->
    reachable gate now' (run uuid now' op s).

(** Every action, on any argument. *)
Definition anyOp (s : MatchState) (op : Op) : bool := true.

(** The gate of the log screen: the review buttons that call
    [resolvePendingEvent] are rendered for pending events only. *)
Definition pendingOnly (s : MatchState) (op : Op) : bool :=
  match op with
  | OpResolvePendingEvent eventId _ =>
      match List.find (fun e => bool_decide (se_id e = eventId))
              (scoreEvents s) with
      | Some e => se_pending e
      | None => true
      end
  | _ => true
  end.

(** ** Score consistency *)

(** What an event adds to [team]'s score: its points when it is approved and
    belongs to the team. *)
Definition contribution (team : Team) (e : ScoreEvent) : Z :=
  if negb (se_pending e) && bool_decide (se_team e = team)
  then se_points e else 0.

Fixpoint teamPoints (team : Team) (evs : list ScoreEvent) : Z :=
  match evs with
  | [] => 0
  | e :: rest => contribution team e + teamPoints team rest
  end.

Definition score_consistent (s : MatchState) : Prop :=
  homeScore s = teamPoints Home (scoreEvents s)
  /\ awayScore s = teamPoints Away (scoreEvents s).

Definition otherTeam (team : Team) : Team :=
  match team with
  | Home => Away
  | Away => Home
  end.

(** ** Conversion eligibility *)

(** An approved event of kind [try]: what the filter of [addScore] keeps. *)
Definition approvedTry (e : ScoreEvent) : Prop :=
  se_type e = Try /\ se_pending e = false.

(** [e] is the last approved try of the ledger [evs]. *)
Definition isLastApprovedTry (e : ScoreEvent) (evs : list ScoreEvent) : Prop :=
  exists before after,
    evs = before ++ e :: after
    /\ approvedTry e
    /\ Forall (fun x => ~ approvedTry x) after.

(** An approved try, penalty try or conversion: the events the eligibility
    rule of the specification looks at. *)
Definition eligibilityEvent (e : ScoreEvent) : Prop :=
  se_pending e = false
  /\ (se_type e = Try \/ se_type e = PenaltyTry \/ se_type e = Conversion).

(** [e] is the last such event of the ledger [evs]. *)
Definition isLastEligibilityEvent (e : ScoreEvent) (evs : list ScoreEvent)
  : Prop :=
  exists before after,
    evs = before ++ e :: after
    /\ eligibilityEvent e
    /\ Forall (fun x => ~ eligibilityEvent x) after.

(** The reducer rule for [lastTryTeam] in the specification's words: an
    approved try or penalty try sets it to the scoring team, a recorded
    conversion clears it. *)
Definition eligibilityStep (elig : option Team) (e : ScoreEvent)
  : option Team :=
  if se_pending e then elig
  else
    match se_type e with
    | Try | PenaltyTry => Some (se_team e)
    | Conversion => None
    | Penalty | DropGoal => elig
    end.

Definition referenceLastTryTeam (evs : list ScoreEvent) : option Team :=
  fold_left eligibilityStep evs None.

(** Eligibility in the specification's words: the latest approved try or
    penalty try is the team's and no conversion has used it since. *)
Definition specEligible (team : Team) (evs : list ScoreEvent) : bool :=
  bool_decide (referenceLastTryTeam evs = Some team).

(** ** Chronology of the ledger *)

(** Stamps in creation order, all of them positive and not after [now]. *)
Definition chrono (now : Z) (stamps : list Z) : Prop :=
  StronglySorted Z.le stamps /\ Forall (fun t => 0 < t <= now) stamps.

Definition ledger_chronological (now : Z) (s : MatchState) : Prop :=
  chrono now (map se_timestamp (scoreEvents s))
  /\ chrono now (map c_timestamp (cards s))
  /\ chrono now (map sub_timestamp (substitutionEvents s)).


(** [minute] is [Math.floor(matchTime / 60)] on every event the store made. *)
Definition minutes_derived (s : MatchState) : Prop :=
  Forall (fun e => se_minute e = se_matchTime e / 60) (scoreEvents s)
  /\ Forall (fun c => c_minute c = c_matchTime c / 60) (cards s)
  /\ Forall (fun x => sub_minute x = sub_matchTime x / 60)
       (substitutionEvents s).

Definition unique_score_ids (s : MatchState) : Prop :=
  NoDup (map se_id (scoreEvents s)).

(** ** Frames *)

Definition same_apart_from_cards (s s' : MatchState) : Prop :=
  config s' = config s
  /\ homeScore s' = homeScore s
  /\ awayScore s' = awayScore s
  /\ scoreEvents s' = scoreEvents s
  /\ players s' = players s
  /\ substitutionEvents s' = substitutionEvents s
  /\ systemEvents s' = systemEvents s
  /\ cardReturnEvents s' = cardReturnEvents s
  /\ currentHalf s' = currentHalf s
  /\ elapsedSeconds s' = elapsedSeconds s
  /\ injuryTime s' = injuryTime s
  /\ isRunning s' = isRunning s
  /\ lastTryTeam s' = lastTryTeam s
  /\ matchStarted s' = matchStarted s
  /\ currentMatchId s' = currentMatchId s
  /\ showSubstitutionModal s' = showSubstitutionModal s.

Definition same_apart_from_substitutions (s s' : MatchState) : Prop :=
  config s' = config s
  /\ homeScore s' = homeScore s
  /\ awayScore s' = awayScore s
  /\ scoreEvents s' = scoreEvents s
  /\ cards s' = cards s
  /\ players s' = players s
  /\ systemEvents s' = systemEvents s
  /\ cardReturnEvents s' = cardReturnEvents s
  /\ currentHalf s' = currentHalf s
  /\ elapsedSeconds s' = elapsedSeconds s
  /\ injuryTime s' = injuryTime s
  /\ isRunning s' = isRunning s
  /\ lastTryTeam s' = lastTryTeam s
  /\ matchStarted s' = matchStarted s
  /\ currentMatchId s' = currentMatchId s
  /\ showSubstitutionModal s' = showSubstitutionModal s.

(** ** Reading a saved log back *)

(** Modelled from the spec: the repository saves the log and renders it, but
    has no function that rebuilds a ledger from it.  Section 8 (Round-trip)
    speaks of reconstructing derived state from the persisted log: an entry is
    read back by its [type] tag, field by field; [minute], which an entry does
    not carry, is recomputed the way the store computes it. *)
Definition scoreEventOfLog (ev : LogEvent) : option ScoreEvent :=
  match log_type ev, log_team ev, log_scoreType ev, log_points ev,
        log_pending ev, log_half ev, log_matchTime ev with
  | LogScore, Some team, Some type, Some points, Some pending, Some half,
    Some matchTime =>
      Some {| se_id := log_id ev; se_timestamp := log_timestamp ev;
              se_team := team; se_type := type; se_points := points;
              se_player := log_playerId ev; se_half := half;
              se_minute := matchTime / 60; se_matchTime := matchTime;
              se_pending := pending |}
  | _, _, _, _, _, _, _ => None
  end.

(** Modelled from the spec: reading a card entry back (see
    [scoreEventOfLog]). *)
Definition cardOfLog (ev : LogEvent) : option Card :=
  match log_type ev, log_team ev, log_playerId ev, log_cardType ev,
        log_returned ev, log_half ev, log_matchTime ev with
  | LogCard, Some team, Some player, Some type, Some returned, Some half,
    Some matchTime =>
      Some {| c_id := log_id ev; c_timestamp := log_timestamp ev;
              c_team := team; c_player := player; c_type := type;
              c_half := half; c_minute := matchTime / 60;
              c_matchTime := matchTime;
              c_returnTime := log_returnTime ev; c_returned := returned |}
  | _, _, _, _, _, _, _ => None
  end.

(** Modelled from the spec: reading a substitution entry back (see
    [scoreEventOfLog]). *)
Definition substitutionOfLog (ev : LogEvent) : option Substitution :=
  match log_type ev, log_team ev, log_offPlayerId ev, log_onPlayerId ev,
        log_half ev, log_matchTime ev with
  | LogSubstitution, Some team, Some off, Some on, Some half, Some matchTime =>
      Some {| sub_id := log_id ev; sub_timestamp := log_timestamp ev;
              sub_team := team; sub_offPlayerId := off; sub_onPlayerId := on;
              sub_half := half; sub_minute := matchTime / 60;
              sub_matchTime := matchTime |}
  | _, _, _, _, _, _ => None
  end.

(** Modelled from the spec: the score of section 4.1 reduced from a log, the
    points of the approved score entries of a team. *)
Definition logScore (team : Team) (log : list LogEvent) : Z :=
  teamPoints team (omap scoreEventOfLog log).

(** Modelled from the spec: the squad status of section 4.2 resolved from a
    log; the roster comes from the roster collaborator, the log holds none. *)
Definition logSquadStatus (team : Team) (players : list Player)
    (log : list LogEvent) (elapsed : Z) : SquadStatus :=
  getSquadStatus team players (omap substitutionOfLog log)
    (omap cardOfLog log) elapsed.

(** ** Sessions used as examples *)

Module Scenario.

Definition afterTry : MatchState :=
  addScore "e1" 1 Home Try None false initialState.

Definition afterConversion : MatchState :=
  addScore "e2" 2 Home Conversion None false afterTry.

Definition afterPenalty : MatchState :=
  addScore "e3" 3 Home Penalty None false afterConversion.


Definition afterPendingTry : MatchState :=
  addScore "e2" 2 Away Try None true afterTry.

(** An approved try that the review action is then applied to. *)
Definition doubleCounted : MatchState :=
  run "u2" 2 (OpResolvePendingEvent "e1" true)
    (run "e1" 1 (OpAddScore Home Try None false) initialState).

(** A try, a try under review for the other side, and its approval. *)
Definition reviewed : MatchState :=
  run "u3" 3 (OpResolvePendingEvent "e2" true)
    (run "e2" 2 (OpAddScore Away Try None true)
       (run "e1" 1 (OpAddScore Home Try None false) initialState)).

Definition fly_half : Player :=
  {| p_id := "p10"; p_number := 10; p_name := "Fly half";
     p_position := "Fly-half"; p_isStarter := true; p_team := Home |}.

Definition hooker : Player :=
  {| p_id := "p2"; p_number := 2; p_name := "Hooker";
     p_position := "Hooker"; p_isStarter := true; p_team := Home |}.

Definition replacement : Player :=
  {| p_id := "p16"; p_number := 16; p_name := "Replacement";
     p_position := "Hooker"; p_isStarter := false; p_team := Home |}.

Definition kickedOff : MatchState :=
  set_elapsedSeconds 100
    (setPlayers [fly_half; hooker; replacement]
       (startMatch "m0" 1 initialState)).

Definition afterYellow : MatchState :=
  addCard "c1" 2 Home "p10" Yellow kickedOff.

Definition afterReturn : MatchState :=
  returnFromSinBin "r1" 3 "c1" afterYellow.

Definition afterSubstitution : MatchState :=
  addSubstitution "s1" 4 Home "p2" "p16" None afterReturn.

Definition busy : MatchState :=
  addScore "e1" 5 Home Try (Some "p10") false afterSubstitution.

(** One second before the end of regular time, clock running. *)
Definition lastSecond : MatchState :=
  set_elapsedSeconds (40 * 60 - 1) (toggleTimer initialState).

(** Three events of one stamp: a try, then a yellow card and a penalty made
    in the same millisecond. *)
Definition tied : MatchState :=
  addScore "e2" 5 Home Penalty None false
    (addCard "c2" 5 Home "p2" Yellow busy).

End Scenario.

(** ** How one action changes a list of the ledger

    Every action leaves a list of events as it is, filters it, drops its last
    element, empties it, appends one event made during the call, or rewrites
    events in place without touching their identifier, stamp or clock
    fields. *)
Inductive ledger_step {A} (ident : A -> string)
    (stamp matchTime minute : A -> Z) (uuid : string) (now : Z) (l : list A)
  : list A -> Prop :=
| step_same : ledger_step ident stamp matchTime minute uuid now l l
| step_filter p :
    ledger_step ident stamp matchTime minute uuid now l (List.filter p l)
| step_init :
    ledger_step ident stamp matchTime minute uuid now l (slice_init l)
| step_clear : ledger_step ident stamp matchTime minute uuid now l []
| step_push e :
    ident e = uuid -> stamp e = now -> minute e = matchTime e / 60 ->
    ledger_step ident stamp matchTime minute uuid now l (l ++ [e])
| step_rewrite f :
    (forall e, ident (f e) = ident e /\ stamp (f e) = stamp e
               /\ minute (f e) = minute e
               /\ matchTime (f e) = matchTime e) ->
    ledger_step ident stamp matchTime minute uuid now l (map f l).

(** What holds of every session in which the review action is applied to
    pending events only: see [reachable_ledger_inv]. *)
Definition ledger_inv (now : Z) (s : MatchState) : Prop :=
  0 < now
  /\ score_consistent s
  /\ unique_score_ids s
  /\ ledger_chronological now s
  /\ minutes_derived s
  /\ 0 <= elapsedSeconds s.

(** ** Events as a saved log gives them back

    An entry of the log does not carry [minute]; an event read back has the
    [minute] of its [matchTime] and every other field as it was. *)
Definition reread_score (e : ScoreEvent) : ScoreEvent :=
  {| se_id := se_id e; se_timestamp := se_timestamp e; se_team := se_team e;
     se_type := se_type e; se_points := se_points e; se_player := se_player e;
     se_half := se_half e; se_minute := se_matchTime e / 60;
     se_matchTime := se_matchTime e; se_pending := se_pending e |}.

Definition reread_card (c : Card) : Card :=
  {| c_id := c_id c; c_timestamp := c_timestamp c; c_team := c_team c;
     c_player := c_player c; c_type := c_type c; c_half := c_half c;
     c_minute := c_matchTime c / 60; c_matchTime := c_matchTime c;
     c_returnTime := c_returnTime c; c_returned := c_returned c |}.

Definition reread_substitution (x : Substitution) : Substitution :=
  {| sub_id := sub_id x; sub_timestamp := sub_timestamp x;
     sub_team := sub_team x; sub_offPlayerId := sub_offPlayerId x;
     sub_onPlayerId := sub_onPlayerId x; sub_half := sub_half x;
     sub_minute := sub_matchTime x / 60; sub_matchTime := sub_matchTime x |}.

(** ** The timer, the substitution dialog and the log screen of [App.tsx] *)

(** [useTimer]: the interval fires [tick] once a second; [n] firings. *)
Definition ticks (n : nat) (s : MatchState) : MatchState := Nat.iter n tick s.

(** [handleConfirm] of [SubstitutionModal]: the dialog's team and the two
    chosen identifiers ([''] when nothing is chosen); the incoming player is
    looked up on the bench, and [onClose], the property the dialog is
    mounted with, is called after the substitution has been recorded. *)
Definition handleConfirm (onClose : MatchState -> MatchState)
    (uuid : string) (now : Z) (team : Team) (offId onId : string)
    (s : MatchState) : MatchState :=
  if bool_decide (offId = EmptyString) || bool_decide (onId = EmptyString)
  then s
  else
    let squad :=
      getSquadStatus team (players s) (substitutionEvents s) (cards s)
        (elapsedSeconds s) in
    let onPlayer :=
      List.find (fun p => bool_decide (p_id p = onId)) (onBench squad) in
    onClose (addSubstitution uuid now team offId onId onPlayer s).

(** The dialog as [App] mounts it:
    [<SubstitutionModal onClose={() => setShowSubModal(false)} />]. *)
Definition confirmSubstitution (uuid : string) (now : Z) (team : Team)
    (offId onId : string) (s : MatchState) : MatchState :=
  handleConfirm (setShowSubstitutionModal false) uuid now team offId onId s.

(** The rows of the log screen: [LogEventItem], the union of the five event
    interfaces.  The screen tells them apart by the fields they have
    (['points' in ev], ['offPlayerId' in ev], ['cardId' in ev]); here the
    constructor says which interface a row is. *)
Inductive LogEventItem :=
| ItemScore (e : ScoreEvent)
| ItemCard (c : Card)
| ItemSubstitution (x : Substitution)
| ItemCardReturn (r : CardReturnEvent)
| ItemSystem (e : SystemEvent).

Definition item_id (ev : LogEventItem) : string :=
  match ev with
  | ItemScore e => se_id e
  | ItemCard c => c_id c
  | ItemSubstitution x => sub_id x
  | ItemCardReturn r => cr_id r
  | ItemSystem e => sys_id e
  end.

Definition item_timestamp (ev : LogEventItem) : Z :=
  match ev with
  | ItemScore e => se_timestamp e
  | ItemCard c => c_timestamp c
  | ItemSubstitution x => sub_timestamp x
  | ItemCardReturn r => cr_timestamp r
  | ItemSystem e => sys_timestamp e
  end.

(** [[...scoreEvents, ...cards, ...substitutionEvents, ...cardReturnEvents,
    ...systemEvents]] *)
Definition logItems (s : MatchState) : list LogEventItem :=
  map ItemScore (scoreEvents s) ++ map ItemCard (cards s)
  ++ map ItemSubstitution (substitutionEvents s)
  ++ map ItemCardReturn (cardReturnEvents s)
  ++ map ItemSystem (systemEvents s).

(** [.sort((a, b) => a.timestamp - b.timestamp)] *)
Definition allEventsChrono (s : MatchState) : list LogEventItem :=
  sort_by item_timestamp (logItems s).

(** [.sort((a, b) => b.timestamp - a.timestamp)]: the comparator is the
    difference of the negated stamps. *)
Definition allEvents (s : MatchState) : list LogEventItem :=
  sort_by (fun ev => - item_timestamp ev) (logItems s).

Definition pendingEvents (s : MatchState) : list ScoreEvent :=
  List.filter se_pending (scoreEvents s).

(** The text [`${h} – ${a}`] of the score column. *)
Definition scoreText (h a : Z) : string :=
  pretty h +:+ " – " +:+ pretty a.

(** One round of the loop that fills [scoreAtEvent]: the running score and
    the map from event identifier to score text. *)
Definition scoreAtEvent_step (acc : Z * Z * gmap string string)
    (ev : LogEventItem) : Z * Z * gmap string string :=
  let '(h, a, m) := acc in
  let '(h', a') :=
    match ev with
    | ItemScore se =>
        if negb (se_pending se) then
          if bool_decide (se_team se = Home)
          then (h + se_points se, a) else (h, a + se_points se)
        else (h, a)
    | _ => (h, a)
    end in
  (h', a', <[item_id ev := scoreText h' a']> m).

Definition scoreAtEvent (s : MatchState) : gmap string string :=
  snd (fold_left scoreAtEvent_step (allEventsChrono s) (0, 0, ∅)).

(** ** Further properties of a ledger *)




(** The set [currentlyOnPitch] that [getSquadStatus] builds: the starters of
    the team, then the team's substitutions replayed in order. *)
Definition currentlyOnPitch (team : Team) (players : list Player)
    (substitutionEvents : list Substitution) : gset string :=
  fold_left applySub
    (List.filter (fun s => bool_decide (sub_team s = team)) substitutionEvents)
    (fold_left addStarter
       (sort_by p_number
          (List.filter (fun p => bool_decide (p_team p = team)) players)) ∅).

(** A card of the team keeps the player [id] off the pitch at [elapsed]: a
    red card, or a yellow one that is still running. *)
Definition excluded (team : Team) (cards : list Card) (elapsed : Z)
    (id : string) : Prop :=
  exists c, In c cards /\ c_player c = id
            /\ (redCarded team c = true \/ inSinBin team elapsed c = true).

(** The call that [TeamSection] and [SubstitutionModal] make, at any elapsed
    time: the squad of [team] read off the fields of the store. *)
Definition squadAt (team : Team) (s : MatchState) (elapsed : Z) : SquadStatus :=
  getSquadStatus team (players s) (substitutionEvents s) (cards s) elapsed.

(** What a row of the log adds to [team]'s running score in the loop of
    [scoreAtEvent]: the points of an approved score event of the team. *)
Definition itemContribution (team : Team) (ev : LogEventItem) : Z :=
  match ev with
  | ItemScore e => contribution team e
  | _ => 0
  end.

Fixpoint itemPoints (team : Team) (evs : list LogEventItem) : Z :=
  match evs with
  | [] => 0
  | ev :: rest => itemContribution team ev + itemPoints team rest
  end.

(** ** The tap guard of [ScoreButton] and [CardButton]

    [handleClick]: the stored time of the last tap that went through and
    whether this tap calls [onClick]; then a run of taps, and the times of
    those that went through. *)
Definition handleClick (now lastTap : Z) : Z * bool :=
  if now - lastTap <? 300 then (lastTap, false) else (now, true).

Fixpoint acceptedTaps (lastTap : Z) (times : list Z) : list Z :=
  match times with
  | [] => []
  | now :: rest =>
      let '(lastTap', fired) := handleClick now lastTap in
      if fired then now :: acceptedTaps lastTap' rest
      else acceptedTaps lastTap' rest
  end.

Definition tapState (lastTap : Z) (times : list Z) : Z :=
  fold_left (fun st now => fst (handleClick now st)) times lastTap.

(** ** Player statistics ([updatePlayerStatsFromLog] of [db/matches.ts]) *)

(** The four [Record<string, number>] tallies. *)
Record StatDeltas := {
  triesDelta : gmap string Z;
  pointsDelta : gmap string Z;
  yellowDelta : gmap string Z;
  redDelta : gmap string Z }.

(** [ev.playerId && ...]: a missing identifier and [''] are both falsy. *)
Definition truthy_id (o : option string) : option string :=
  match o with
  | Some id => if bool_decide (id = EmptyString) then None else Some id
  | None => None
  end.

(** [d[id] = (d[id] ?? 0) + n] *)
Definition bump (id : string) (n : Z) (d : gmap string Z) : gmap string Z :=
  <[id := default 0 (d !! id) + n]> d.

Definition noDeltas : StatDeltas :=
  {| triesDelta := ∅; pointsDelta := ∅; yellowDelta := ∅; redDelta := ∅ |}.

(** The [forEach] that sets the four tallies of every participant to [0]. *)
Definition zeroDeltas (playerIds : list string) : StatDeltas :=
  fold_left
    (fun d id =>
       {| triesDelta := <[id := 0]> (triesDelta d);
          pointsDelta := <[id := 0]> (pointsDelta d);
          yellowDelta := <[id := 0]> (yellowDelta d);
          redDelta := <[id := 0]> (redDelta d) |})
    playerIds noDeltas.

(** One round of the loop over the log: the test on score entries, then the
    test on card entries.  [!ev.pending] holds of a missing flag. *)
Definition tally (d : StatDeltas) (ev : LogEvent) : StatDeltas :=
  let d1 :=
    match log_type ev, truthy_id (log_playerId ev), log_points ev with
    | LogScore, Some id, Some pts =>
        if negb (default false (log_pending ev)) then
          {| triesDelta :=
               if bool_decide (log_scoreType ev = Some Try)
                  || bool_decide (log_scoreType ev = Some PenaltyTry)
               then bump id 1 (triesDelta d) else triesDelta d;
             pointsDelta := bump id pts (pointsDelta d);
             yellowDelta := yellowDelta d;
             redDelta := redDelta d |}
        else d
    | _, _, _ => d
    end in
  match log_type ev, truthy_id (log_playerId ev) with
  | LogCard, Some id =>
      {| triesDelta := triesDelta d1;
         pointsDelta := pointsDelta d1;
         yellowDelta :=
           if bool_decide (log_cardType ev = Some Yellow)
           then bump id 1 (yellowDelta d1) else yellowDelta d1;
         redDelta :=
           if bool_decide (log_cardType ev = Some Red)
           then bump id 1 (redDelta d1) else redDelta d1 |}
  | _, _ => d1
  end.

Definition statDeltas (log : list LogEvent) (playerIds : list string)
  : StatDeltas :=
  fold_left tally log (zeroDeltas playerIds).

(** What the last loop adds to the counters of the player [id]:
    [triesDelta[id] ?? 0] and its three companions. *)
Record StatLine := {
  line_tries : Z;
  line_points : Z;
  line_yellowCards : Z;
  line_redCards : Z }.

Definition statLine (d : StatDeltas) (id : string) : StatLine :=
  {| line_tries := default 0 (triesDelta d !! id);
     line_points := default 0 (pointsDelta d !! id);
     line_yellowCards := default 0 (yellowDelta d !! id);
     line_redCards := default 0 (redDelta d !! id) |}.

Definition zeroLine : StatLine :=
  {| line_tries := 0; line_points := 0;
     line_yellowCards := 0; line_redCards := 0 |}.

Definition addLine (a b : StatLine) : StatLine :=
  {| line_tries := line_tries a + line_tries b;
     line_points := line_points a + line_points b;
     line_yellowCards := line_yellowCards a + line_yellowCards b;
     line_redCards := line_redCards a + line_redCards b |}.

(** What one log entry is worth to the player [id], and a log. *)
Definition creditOf (id : string) (ev : LogEvent) : StatLine :=
  statLine (tally noDeltas ev) id.

Fixpoint logCredit (id : string) (log : list LogEvent) : StatLine :=
  match log with
  | [] => zeroLine
  | ev :: rest => addLine (creditOf id ev) (logCredit id rest)
  end.

(** The same figures read off the ledger of the store: the approved score
    events and the cards that name the player. *)
Definition creditedTo (id : string) (e : ScoreEvent) : bool :=
  negb (se_pending e) && bool_decide (se_player e = Some id).

Definition isTryType (t : ScoreType) : bool :=
  bool_decide (t = Try) || bool_decide (t = PenaltyTry).

Fixpoint sumPoints (evs : list ScoreEvent) : Z :=
  match evs with
  | [] => 0
  | e :: rest => se_points e + sumPoints rest
  end.

Definition shownTo (id : string) (type : CardType) (c : Card) : bool :=
  bool_decide (c_player c = id) && bool_decide (c_type c = type).

Definition playerLine (id : string) (evs : list ScoreEvent) (cs : list Card)
  : StatLine :=
  {| line_tries :=
       Z.of_nat
         (length (List.filter
                    (fun e => creditedTo id e && isTryType (se_type e)) evs));
     line_points := sumPoints (List.filter (creditedTo id) evs);
     line_yellowCards :=
       Z.of_nat (length (List.filter (shownTo id Yellow) cs));
     line_redCards := Z.of_nat (length (List.filter (shownTo id Red) cs)) |}.

(** What one score event of the ledger is worth to the player [id]. *)
Definition eventLine (id : string) (e : ScoreEvent) : StatLine :=
  if creditedTo id e
  then {| line_tries := if isTryType (se_type e) then 1 else 0;
          line_points := se_points e;
          line_yellowCards := 0; line_redCards := 0 |}
  else zeroLine.

(** The event that [updateScoreEventPlayer] puts in the place of [e]. *)
Definition reassigned (playerId : option string) (e : ScoreEvent)
  : ScoreEvent :=
  {| se_id := se_id e; se_timestamp := se_timestamp e; se_team := se_team e;
     se_type := se_type e; se_points := se_points e; se_player := playerId;
     se_half := se_half e; se_minute := se_minute e;
     se_matchTime := se_matchTime e; se_pending := se_pending e |}.

(** ** The match table ([db/types.ts], [db/matches.ts]) *)

Inductive MatchStatus := NotPlayed | Playing | Completed.

#[global] Instance MatchStatus_eq_dec : EqDecision MatchStatus.
Proof. solve_decision. Defined.

Record Match := {
  m_id : string;
  m_homeTeamId : string;
  m_awayTeamId : string;
  m_homeTeamName : string;
  m_awayTeamName : string;
  m_homeColor : string;
  m_awayColor : string;
  m_homeScore : Z;
  m_awayScore : Z;
  m_halfDuration : Z;
  m_competition : string;
  m_venue : string;
  m_referee : string;
  m_scheduledAt : option Z;
  m_currentHalf : Z;
  m_elapsedSeconds : Z;
  m_injuryTime : Z;
  m_startedAt : Z;
  m_endedAt : option Z;
  m_status : MatchStatus;
  m_rosterId : option string;
  m_awayRosterId : option string;
  m_config : SnapshotConfig;
  m_log : list LogEvent;
  m_createdAt : Z;
  m_updatedAt : Z }.





(** The argument of [saveScheduledMatch]. *)
Record ScheduleParams := {
  sp_id : option string;
  sp_homeTeamId : option string;
  sp_awayTeamId : option string;
  sp_homeTeamName : string;
  sp_awayTeamName : string;
  sp_homeColor : string;
  sp_awayColor : string;
  sp_halfDuration : Z;
  sp_competition : string;
  sp_venue : string;
  sp_referee : string;
  sp_scheduledAt : Z;
  sp_rosterId : option string;
  sp_awayRosterId : option string;
  sp_config : SnapshotConfig }.

(** The table [db.matches], keyed by [id]: [get] is the lookup, [put] stores
    under the record's own [id], and [add] fails when the key is taken. *)
Definition table_put (m : Match) (db : gmap string Match)
  : gmap string Match := <[m_id m := m]> db.

Definition table_add (m : Match) (db : gmap string Match)
  : option (gmap string Match) :=
  match db !! m_id m with
  | Some _ => None
  | None => Some (<[m_id m := m]> db)
  end.

(** [saveScheduledMatch]: the new table and the identifier returned, or
    [None] when [add] rejects. *)
Definition saveScheduledMatch (uuid : string) (now : Z)
    (params : ScheduleParams) (db : gmap string Match)
  : option (gmap string Match * string) :=
  let homeId := default "home" (sp_homeTeamId params) in
  let awayId := default "away" (sp_awayTeamId params) in
  let create :=
    let match_ :=
      {| m_id := uuid; m_homeTeamId := homeId; m_awayTeamId := awayId;
         m_homeTeamName := sp_homeTeamName params;
         m_awayTeamName := sp_awayTeamName params;
         m_homeColor := sp_homeColor params;
         m_awayColor := sp_awayColor params;
         m_homeScore := 0; m_awayScore := 0;
         m_halfDuration := sp_halfDuration params;
         m_competition := sp_competition params;
         m_venue := sp_venue params; m_referee := sp_referee params;
         m_scheduledAt := Some (sp_scheduledAt params);
         m_currentHalf := 1; m_elapsedSeconds := 0; m_injuryTime := 0;
         m_startedAt := 0; m_endedAt := None; m_status := NotPlayed;
         m_rosterId := sp_rosterId params;
         m_awayRosterId := sp_awayRosterId params;
         m_config := sp_config params; m_log := [];
         m_createdAt := now; m_updatedAt := now |} in
    match table_add match_ db with
    | Some db' => Some (db', uuid)
    | None => None
    end in
  match truthy_id (sp_id params) with
  | Some id =>
      match db !! id with
      | Some existing =>
          if bool_decide (m_status existing = NotPlayed)
             || bool_decide (m_status existing = Playing)
          then
            let updated :=
              {| m_id := m_id existing;
                 m_homeTeamId := homeId; m_awayTeamId := awayId;
                 m_homeTeamName := sp_homeTeamName params;
                 m_awayTeamName := sp_awayTeamName params;
                 m_homeColor := sp_homeColor params;
                 m_awayColor := sp_awayColor params;
                 m_homeScore := m_homeScore existing;
                 m_awayScore := m_awayScore existing;
                 m_halfDuration := sp_halfDuration params;
                 m_competition := sp_competition params;
                 m_venue := sp_venue params;
                 m_referee := sp_referee params;
                 m_scheduledAt := Some (sp_scheduledAt params);
                 m_currentHalf := m_currentHalf existing;
                 m_elapsedSeconds := m_elapsedSeconds existing;
                 m_injuryTime := m_injuryTime existing;
                 m_startedAt := m_startedAt existing;
                 m_endedAt := m_endedAt existing;
                 m_status := m_status existing;
                 m_rosterId := sp_rosterId params;
                 m_awayRosterId := sp_awayRosterId params;
                 m_config := sp_config params;
                 m_log := m_log existing;
                 m_createdAt := m_createdAt existing;
                 m_updatedAt := now |} in
            Some (table_put updated db, id)
          else create
      | None => create
      end
  | None => create
  end.

(** Every record sits under its own identifier. *)
Definition table_keyed (db : gmap string Match) : Prop :=
  forall k m, db !! k = Some m -> m_id m = k.

(** [createMatch]: the match of a snapshot, stored under a new identifier. *)
Definition createMatch (uuid : string) (now : Z) (snap : MatchSnapshot)
    (status : MatchStatus) (db : gmap string Match)
  : option (gmap string Match * string) :=
  let match_ :=
    {| m_id := uuid; m_homeTeamId := "home"; m_awayTeamId := "away";
       m_homeTeamName := snap_homeTeamName snap;
       m_awayTeamName := snap_awayTeamName snap;
       m_homeColor := snap_homeColor snap;
       m_awayColor := snap_awayColor snap;
       m_homeScore := snap_homeScore snap;
       m_awayScore := snap_awayScore snap;
       m_halfDuration := snap_halfDuration snap;
       m_competition := snap_competition snap;
       m_venue := snap_venue snap; m_referee := snap_referee snap;
       m_scheduledAt := None;
       m_currentHalf := snap_currentHalf snap;
       m_elapsedSeconds := snap_elapsedSeconds snap;
       m_injuryTime := snap_injuryTime snap;
       m_startedAt := now;
       m_endedAt :=
         if bool_decide (status = Completed) then Some now else None;
       m_status := status;
       m_rosterId := None; m_awayRosterId := None;
       m_config := snap_config snap;
       m_log := buildLogFromSnapshot snap;
       m_createdAt := now; m_updatedAt := now |} in
  match table_add match_ db with
  | Some db' => Some (db', uuid)
  | None => None
  end.

(** [saveFinishedMatch], as far as the table of matches goes (the call of
    [updatePlayerStatsFromLog] that follows works on the players). *)
Definition saveFinishedMatch (uuid : string) (now : Z) (snap : MatchSnapshot)
    (existingMatchId : option string) (db : gmap string Match)
  : option (gmap string Match * string) :=
  let log := buildLogFromSnapshot snap in
  let startedAt :=
    match snap_systemEvents snap with
    | e :: _ => sys_timestamp e
    | [] => now
    end in
  let create :=
    let match_ :=
      {| m_id := uuid; m_homeTeamId := "home"; m_awayTeamId := "away";
         m_homeTeamName := snap_homeTeamName snap;
         m_awayTeamName := snap_awayTeamName snap;
         m_homeColor := snap_homeColor snap;
         m_awayColor := snap_awayColor snap;
         m_homeScore := snap_homeScore snap;
         m_awayScore := snap_awayScore snap;
         m_halfDuration := snap_halfDuration snap;
         m_competition := snap_competition snap;
         m_venue := snap_venue snap; m_referee := snap_referee snap;
         m_scheduledAt := None;
         m_currentHalf := snap_currentHalf snap;
         m_elapsedSeconds := snap_elapsedSeconds snap;
         m_injuryTime := snap_injuryTime snap;
         m_startedAt := startedAt; m_endedAt := Some now;
         m_status := Completed;
         m_rosterId := None; m_awayRosterId := None;
         m_config := snap_config snap; m_log := log;
         m_createdAt := now; m_updatedAt := now |} in
    match table_add match_ db with
    | Some db' => Some (db', uuid)
    | None => None
    end in
  match truthy_id existingMatchId with
  | Some id =>
      match db !! id with
      | Some existing =>
          let updated :=
            {| m_id := m_id existing;
               m_homeTeamId := m_homeTeamId existing;
               m_awayTeamId := m_awayTeamId existing;
               m_homeTeamName := snap_homeTeamName snap;
               m_awayTeamName := snap_awayTeamName snap;
               m_homeColor := snap_homeColor snap;
               m_awayColor := snap_awayColor snap;
               m_homeScore := snap_homeScore snap;
               m_awayScore := snap_awayScore snap;
               m_halfDuration := m_halfDuration existing;
               m_competition := m_competition existing;
               m_venue := m_venue existing;
               m_referee := m_referee existing;
               m_scheduledAt := m_scheduledAt existing;
               m_currentHalf := snap_currentHalf snap;
               m_elapsedSeconds := snap_elapsedSeconds snap;
               m_injuryTime := snap_injuryTime snap;
               m_startedAt := startedAt; m_endedAt := Some now;
               m_status := Completed;
               m_rosterId := m_rosterId existing;
               m_awayRosterId := m_awayRosterId existing;
               m_config := snap_config snap; m_log := log;
               m_createdAt := m_createdAt existing;
               m_updatedAt := now |} in
          Some (table_put updated db, id)
      | None => create
      end
  | None => create
  end.

(** A table of three matches for the examples. *)
Module Fixtures.

Definition fixture (id : string) (status : MatchStatus)
    (scheduledAt : option Z) (updatedAt : Z) : Match :=
  {| m_id := id; m_homeTeamId := "home"; m_awayTeamId := "away";
     m_homeTeamName := "Home"; m_awayTeamName := "Away";
     m_homeColor := "#3b82f6"; m_awayColor := "#ef4444";
     m_homeScore := 0; m_awayScore := 0; m_halfDuration := 2400;
     m_competition := EmptyString; m_venue := EmptyString;
     m_referee := EmptyString; m_scheduledAt := scheduledAt;
     m_currentHalf := 1; m_elapsedSeconds := 0; m_injuryTime := 0;
     m_startedAt := 0; m_endedAt := None; m_status := status;
     m_rosterId := None; m_awayRosterId := None;
     m_config := {| snap_playerTracking := true; snap_cardTracking := true;
                    snap_substitutions := false |};
     m_log := []; m_createdAt := 1; m_updatedAt := updatedAt |}.

Definition played : Match := fixture "m1" Completed None 10.
Definition live : Match := fixture "m2" Playing (Some 30) 5.
Definition planned : Match := fixture "m3" NotPlayed (Some 20) 6.


Definition db : gmap string Match :=
  <["m1" := played]> (<["m2" := live]> (<["m3" := planned]> ∅)).

Definition params (id : option string) : ScheduleParams :=
  {| sp_id := id; sp_homeTeamId := None; sp_awayTeamId := None;
     sp_homeTeamName := "Home"; sp_awayTeamName := "Visitors";
     sp_homeColor := "#3b82f6"; sp_awayColor := "#ef4444";
     sp_halfDuration := 2400; sp_competition := "Cup";
     sp_venue := "Ground"; sp_referee := EmptyString;
     sp_scheduledAt := 50; sp_rosterId := None; sp_awayRosterId := None;
     sp_config := {| snap_playerTracking := true; snap_cardTracking := true;
                     snap_substitutions := false |} |}.

End Fixtures.

(** ** Proof automation

    [split_ops] unfolds an action and splits on every test it makes, so that
    each branch shows the fields it sets. *)

Ltac unfold_ops :=
  unfold updateConfig, startMatch, endMatch, setCurrentMatchId,
    setShowSubstitutionModal, addSubstitution, updateScoreEventPlayer,
    removeScoreEvent, removeCard, removeSubstitution, addScore, addCard,
    addPlayer, setPlayers, updatePlayer, deletePlayer, returnFromSinBin,
    resolvePendingEvent, undo, toggleTimer, tick, addInjuryTime, nextHalf,
    set_score.

Ltac split_ops :=
  unfold_ops;
  repeat match goal with
         | |- context [let '(_, _) := ?x in _] => destruct x as [[? ?] ?]
         | |- context [match ?x with _ => _ end] =>
             lazymatch x with
             | context [match _ with _ => _ end] => fail
             | _ => destruct x eqn:?
             end
         end;
  cbn.

Ltac ledger_step_tac :=
  first
    [ apply step_same
    | apply step_filter
    | apply step_init
    | apply step_clear
    | apply step_push; reflexivity
    | apply step_rewrite; intros ?;
      match goal with |- context [if ?b then _ else _] => destruct b end;
      cbn; repeat split; reflexivity ].

(** * Proofs *)

(** ** List facts used throughout *)

Lemma last_snoc_inv {A} (l : list A) (x : A) :
  last l = Some x -> l = removelast l ++ [x].
Proof.
  intros H. destruct l as [|a l] using rev_ind; [discriminate|].
  rewrite last_snoc in H. injection H as ->.
  now rewrite removelast_last.
Qed.


Lemma find_id_In {A} (f : A -> string) (x : string) (l : list A) (a : A) :
  List.find (fun e => bool_decide (f e = x)) l = Some a -> In a l /\ f a = x.
Proof.
  intros H. apply find_some in H as [Hin Hb].
  split; [exact Hin|]. now apply bool_decide_eq_true in Hb.
Qed.

Lemma find_id_None {A} (f : A -> string) (x : string) (l : list A) :
  List.find (fun e => bool_decide (f e = x)) l = None ->
  Forall (fun e => f e <> x) l.
Proof.
  intros H. apply List.Forall_forall. intros e Hin Heq.
  pose proof (find_none _ _ H e Hin) as Hb. cbn in Hb.
  apply bool_decide_eq_false in Hb. contradiction.
Qed.

Lemma filter_all {A} (p : A -> bool) (l : list A) :
  Forall (fun a => p a = true) l -> List.filter p l = l.
Proof.
  induction 1 as [|a l Ha _ IH]; cbn; [reflexivity|].
  now rewrite Ha, IH.
Qed.

Lemma filter_out_absent {A} (f : A -> string) (x : string) (l : list A) :
  Forall (fun e => f e <> x) l ->
  List.filter (fun e => negb (bool_decide (f e = x))) l = l.
Proof.
  intros H. apply filter_all. eapply List.Forall_impl; [|exact H].
  intros a Ha. cbn. now rewrite bool_decide_eq_false_2.
Qed.

(** ** Score bookkeeping *)

Lemma teamPoints_app team l1 l2 :
  teamPoints team (l1 ++ l2) = teamPoints team l1 + teamPoints team l2.
Proof.
  induction l1 as [|e l1 IH]; cbn; [lia|].
  rewrite IH. lia.
Qed.

Lemma teamPoints_snoc team l e :
  teamPoints team (l ++ [e]) = teamPoints team l + contribution team e.
Proof. rewrite teamPoints_app. cbn. lia. Qed.

Lemma recompute_step_scores evs : forall h a ltt,
  fst (fold_left recompute_step evs (h, a, ltt))
  = (h + teamPoints Home evs, a + teamPoints Away evs).
Proof.
  induction evs as [|e evs IH]; intros h a ltt; cbn.
  - f_equal; lia.
  - unfold contribution. destruct (se_pending e); cbn.
    + rewrite IH. f_equal; lia.
    + rewrite IH. destruct (se_team e);
        repeat case_bool_decide; try discriminate; try congruence;
        f_equal; lia.
Qed.

Lemma recompute_scores evs :
  fst (recompute evs) = (teamPoints Home evs, teamPoints Away evs).
Proof. unfold recompute. now rewrite recompute_step_scores. Qed.

(** Dropping the one event that carries an identifier removes its
    contribution. *)
Lemma teamPoints_filter_out team x l e :
  NoDup (map se_id l) -> In e l -> se_id e = x ->
  teamPoints team (List.filter (fun e => negb (bool_decide (se_id e = x))) l)
  = teamPoints team l - contribution team e.
Proof.
  induction l as [|a l IH]; intros Hnd Hin Hid; [destruct Hin|].
  cbn in Hnd. apply NoDup_cons in Hnd as [Hna Hnd].
  destruct Hin as [->|Hin]; cbn.
  - rewrite bool_decide_eq_true_2 by exact Hid. cbn.
    rewrite filter_out_absent; [lia|].
    apply List.Forall_forall. intros b Hb Heq. apply Hna.
    apply list_elem_of_In, in_map_iff. exists b. split; [congruence|exact Hb].
  - assert (se_id a <> x) as Hne.
    { intros Heq. apply Hna. apply list_elem_of_In, in_map_iff.
      exists e. split; [congruence|exact Hin]. }
    rewrite bool_decide_eq_false_2 by exact Hne. cbn.
    rewrite IH by assumption. lia.
Qed.

(** Approving the one event that carries an identifier adds its points to its
    team, when it was pending. *)
Lemma teamPoints_approve team x l e :
  NoDup (map se_id l) -> In e l -> se_id e = x -> se_pending e = true ->
  teamPoints team
    (map (fun e => if bool_decide (se_id e = x) then approve e else e) l)
  = teamPoints team l
    + (if bool_decide (se_team e = team) then se_points e else 0).
Proof.
  induction l as [|a l IH]; intros Hnd Hin Hid Hp; [destruct Hin|].
  cbn in Hnd. apply NoDup_cons in Hnd as [Hna Hnd].
  destruct Hin as [->|Hin]; cbn.
  - rewrite bool_decide_eq_true_2 by exact Hid.
    replace (map _ l) with l.
    + unfold contribution. cbn. rewrite Hp. cbn. lia.
    + symmetry. rewrite <- (map_id l) at 2. apply map_ext_in.
      intros b Hb. rewrite bool_decide_eq_false_2; [reflexivity|].
      intros Heq. apply Hna. apply list_elem_of_In, in_map_iff.
      exists b. split; [congruence|exact Hb].
  - assert (se_id a <> x) as Hne.
    { intros Heq. apply Hna. apply list_elem_of_In, in_map_iff.
      exists e. split; [congruence|exact Hin]. }
    rewrite bool_decide_eq_false_2 by exact Hne.
    rewrite IH by assumption. lia.
Qed.

Lemma teamPoints_reassign team x pid l :
  teamPoints team
    (map (fun e =>
            if bool_decide (se_id e = x) then
              {| se_id := se_id e; se_timestamp := se_timestamp e;
                 se_team := se_team e; se_type := se_type e;
                 se_points := se_points e; se_player := pid;
                 se_half := se_half e; se_minute := se_minute e;
                 se_matchTime := se_matchTime e; se_pending := se_pending e |}
            else e) l)
  = teamPoints team l.
Proof.
  induction l as [|a l IH]; cbn; [reflexivity|].
  rewrite IH. destruct (bool_decide (se_id a = x)); reflexivity.
Qed.

(** ** Sublists, stamps and identifiers *)

Lemma filter_sublist {A} (p : A -> bool) (l : list A) :
  List.filter p l `sublist_of` l.
Proof.
  induction l as [|a l IH]; cbn; [constructor|].
  destruct (p a); now constructor.
Qed.

Lemma removelast_sublist {A} (l : list A) : removelast l `sublist_of` l.
Proof.
  destruct l as [|a l] using rev_ind; [constructor|].
  rewrite removelast_last. now apply sublist_inserts_r.
Qed.

Lemma map_sublist {A B} (f : A -> B) (l1 l2 : list A) :
  l1 `sublist_of` l2 -> map f l1 `sublist_of` map f l2.
Proof. induction 1; cbn; now constructor. Qed.

Lemma Forall_sublist {A} (P : A -> Prop) (l1 l2 : list A) :
  l1 `sublist_of` l2 -> Forall P l2 -> Forall P l1.
Proof.
  induction 1 as [|x l1 l2 _ IH|x l1 l2 _ IH]; intros H.
  - constructor.
  - apply Forall_cons in H as [Hx H]. constructor; auto.
  - apply Forall_cons in H as [_ H]. auto.
Qed.

Lemma StronglySorted_sublist {A} (R : A -> A -> Prop) (l1 l2 : list A) :
  l1 `sublist_of` l2 -> StronglySorted R l2 -> StronglySorted R l1.
Proof.
  induction 1 as [|x l1 l2 Hs IH|x l1 l2 Hs IH]; intros H.
  - constructor.
  - apply StronglySorted_cons in H as [Hx H]. constructor; [auto|].
    eapply Forall_sublist; eassumption.
  - apply StronglySorted_cons in H as [_ H]. auto.
Qed.

Lemma chrono_nil now : chrono now [].
Proof. split; constructor. Qed.

Lemma chrono_sublist now l1 l2 :
  l1 `sublist_of` l2 -> chrono now l2 -> chrono now l1.
Proof.
  intros Hs [H1 H2]. split.
  - eapply StronglySorted_sublist; eassumption.
  - eapply Forall_sublist; eassumption.
Qed.

Lemma chrono_mono now now' l : now <= now' -> chrono now l -> chrono now' l.
Proof.
  intros Hle [H1 H2]. split; [exact H1|].
  eapply List.Forall_impl; [|exact H2]. cbn. intros; lia.
Qed.

Lemma chrono_snoc now now' l :
  now <= now' -> 0 < now' -> chrono now l -> chrono now' (l ++ [now']).
Proof.
  intros Hle Hpos [H1 H2]. split.
  - apply StronglySorted_app_2; [|exact H1|repeat constructor].
    intros x1 x2 Hx1 Hx2. apply list_elem_of_singleton in Hx2 as ->.
    rewrite List.Forall_forall in H2. apply list_elem_of_In in Hx1.
    specialize (H2 _ Hx1). lia.
  - apply Forall_app. split.
    + eapply List.Forall_impl; [|exact H2]. cbn. intros; lia.
    + repeat constructor; lia.
Qed.

Section LedgerStep.
Context {A : Type} (ident : A -> string) (stamp matchTime minute : A -> Z).

(** What is not appended or rewritten is a sublist of what was there. *)
Lemma ledger_step_cases uuid now (l l' : list A) :
  ledger_step ident stamp matchTime minute uuid now l l' ->
  l' `sublist_of` l
  \/ (exists e, l' = l ++ [e] /\ ident e = uuid /\ stamp e = now
                /\ minute e = matchTime e / 60)
  \/ (exists f, l' = map f l
                /\ forall e, ident (f e) = ident e /\ stamp (f e) = stamp e
                             /\ minute (f e) = minute e
                             /\ matchTime (f e) = matchTime e).
Proof.
  destruct 1 as [|p| | |e Hid Hts Hm|f Hf].
  - left. reflexivity.
  - left. apply filter_sublist.
  - left. apply removelast_sublist.
  - left. apply sublist_nil_l.
  - right. left. exists e. auto.
  - right. right. exists f. auto.
Qed.

Lemma ledger_step_chrono uuid now now' (l l' : list A) :
  ledger_step ident stamp matchTime minute uuid now' l l' ->
  now <= now' -> 0 < now' ->
  chrono now (map stamp l) -> chrono now' (map stamp l').
Proof.
  intros Hstep Hle Hpos Hc.
  destruct (ledger_step_cases _ _ _ _ Hstep)
    as [Hs|[(e & -> & _ & Hts & _)|(f & -> & Hf)]].
  - eapply chrono_sublist; [apply map_sublist, Hs|].
    eapply chrono_mono; eassumption.
  - rewrite map_app. cbn. rewrite Hts. now apply (chrono_snoc now).
  - rewrite map_map. erewrite map_ext; [eapply chrono_mono; eassumption|].
    intros e. apply Hf.
Qed.

Lemma ledger_step_NoDup uuid now (l l' : list A) :
  ledger_step ident stamp matchTime minute uuid now l l' ->
  ~ In uuid (map ident l) ->
  NoDup (map ident l) -> NoDup (map ident l').
Proof.
  intros Hstep Hfresh Hnd.
  destruct (ledger_step_cases _ _ _ _ Hstep)
    as [Hs|[(e & -> & Hid & _)|(f & -> & Hf)]].
  - eapply sublist_NoDup; [exact Hnd|apply map_sublist, Hs].
  - rewrite map_app. cbn. rewrite Hid. apply NoDup_app.
    split; [exact Hnd|]. split; [|apply NoDup_singleton].
    intros x Hx Hx'. apply list_elem_of_singleton in Hx' as ->.
    apply Hfresh. now apply list_elem_of_In.
  - rewrite map_map. erewrite map_ext; [exact Hnd|].
    intros e. apply Hf.
Qed.

Lemma ledger_step_minutes uuid now (l l' : list A) :
  ledger_step ident stamp matchTime minute uuid now l l' ->
  Forall (fun e => minute e = matchTime e / 60) l ->
  Forall (fun e => minute e = matchTime e / 60) l'.
Proof.
  intros Hstep H.
  destruct (ledger_step_cases _ _ _ _ Hstep)
    as [Hs|[(e & -> & _ & _ & Hm)|(f & -> & Hf)]].
  - eapply Forall_sublist; eassumption.
  - apply Forall_app. split; [exact H|]. repeat constructor. exact Hm.
  - rewrite List.Forall_forall in *. intros x Hx.
    apply in_map_iff in Hx as (e & <- & He).
    destruct (Hf e) as (_ & _ & -> & ->). auto.
Qed.
End LedgerStep.

(** ** The shape of every action on the three lists of the ledger *)

Lemma run_scoreEvents_step uuid now op s :
  ledger_step se_id se_timestamp se_matchTime se_minute uuid now
    (scoreEvents s) (scoreEvents (run uuid now op s)).
Proof. destruct op; cbn [run]; split_ops; ledger_step_tac. Qed.

Lemma run_cards_step uuid now op s :
  ledger_step c_id c_timestamp c_matchTime c_minute uuid now
    (cards s) (cards (run uuid now op s)).
Proof. destruct op; cbn [run]; split_ops; ledger_step_tac. Qed.

Lemma run_substitutionEvents_step uuid now op s :
  ledger_step sub_id sub_timestamp sub_matchTime sub_minute uuid now
    (substitutionEvents s) (substitutionEvents (run uuid now op s)).
Proof. destruct op; cbn [run]; split_ops; ledger_step_tac. Qed.

(** ** Score consistency is kept by every action *)

Lemma fresh_scoreEvents uuid s :
  fresh uuid s = true -> ~ In uuid (map se_id (scoreEvents s)).
Proof.
  unfold fresh. intros H Hin.
  apply andb_prop in H as [H _]. apply andb_prop in H as [H _].
  apply negb_true_iff in H.
  apply in_map_iff in Hin as (e & Hid & He).
  assert (existsb (fun e => bool_decide (se_id e = uuid)) (scoreEvents s)
          = true) as Hex.
  { apply existsb_exists. exists e. split; [exact He|].
    now apply bool_decide_eq_true_2. }
  congruence.
Qed.

Lemma fresh_cards uuid s :
  fresh uuid s = true -> ~ In uuid (map c_id (cards s)).
Proof.
  unfold fresh. intros H Hin.
  apply andb_prop in H as [H _]. apply andb_prop in H as [_ H].
  apply negb_true_iff in H.
  apply in_map_iff in Hin as (e & Hid & He).
  assert (existsb (fun c => bool_decide (c_id c = uuid)) (cards s) = true)
    as Hex.
  { apply existsb_exists. exists e. split; [exact He|].
    now apply bool_decide_eq_true_2. }
  congruence.
Qed.

Lemma addScore_score_consistent uuid now team type player pending s :
  score_consistent s ->
  score_consistent (addScore uuid now team type player pending s).
Proof.
  intros [Hh Ha]. unfold addScore.
  destruct (bool_decide (type = Conversion)
            && conversionRefused team (scoreEvents s)); [now split|].
  unfold score_consistent.
  destruct team, pending; cbn; rewrite !teamPoints_snoc;
    unfold contribution; cbn;
    repeat case_bool_decide; try discriminate; try congruence; split; lia.
Qed.

Lemma removeScoreEvent_score_consistent eventId s :
  score_consistent (removeScoreEvent eventId s).
Proof.
  unfold removeScoreEvent.
  pose proof (recompute_scores
                (List.filter (fun e => negb (bool_decide (se_id e = eventId)))
                   (scoreEvents s))) as H.
  destruct (recompute _) as [[h a] ltt]. cbn in H. injection H as -> ->.
  now split.
Qed.

Lemma updateScoreEventPlayer_score_consistent eventId playerId s :
  score_consistent s ->
  score_consistent (updateScoreEventPlayer eventId playerId s).
Proof.
  intros [Hh Ha]. unfold updateScoreEventPlayer, score_consistent. cbn.
  now rewrite !teamPoints_reassign.
Qed.

Lemma resolvePendingEvent_score_consistent eventId approved s :
  pendingOnly s (OpResolvePendingEvent eventId approved) = true ->
  unique_score_ids s ->
  score_consistent s ->
  score_consistent (resolvePendingEvent eventId approved s).
Proof.
  intros Hgate Hnd [Hh Ha]. unfold resolvePendingEvent. cbn in Hgate.
  destruct (List.find _ (scoreEvents s)) as [e|] eqn:Hfind; [|now split].
  apply find_id_In in Hfind as [Hin Hid].
  unfold score_consistent. destruct approved.
  - destruct (se_team e) eqn:Ht; cbn;
      rewrite !(teamPoints_approve _ eventId _ e) by assumption;
      rewrite Ht; repeat case_bool_decide; try discriminate; try congruence;
      split; lia.
  - cbn. rewrite !(teamPoints_filter_out _ eventId _ e) by assumption.
    unfold contribution. rewrite Hgate. cbn. split; lia.
Qed.

Lemma undo_score_consistent s :
  score_consistent s -> score_consistent (undo s).
Proof.
  intros [Hh Ha]. unfold undo.
  destruct (_ && _ && bool_decide (is_Some (last (substitutionEvents s))));
    [now split|].
  destruct (_ && _); [|destruct (last (cards s)); now split].
  destruct (last (scoreEvents s)) as [e|] eqn:Hlast;
    [|destruct (last (cards s)); now split].
  apply last_snoc_inv in Hlast. unfold score_consistent, slice_init.
  rewrite Hlast in Hh, Ha. rewrite teamPoints_snoc in Hh, Ha.
  unfold contribution in Hh, Ha.
  destruct (se_team e), (se_pending e); cbn in *;
    repeat case_bool_decide; try discriminate; try congruence; split; lia.
Qed.

Lemma run_score_consistent uuid now op s :
  pendingOnly s op = true ->
  unique_score_ids s ->
  score_consistent s ->
  score_consistent (run uuid now op s).
Proof.
  intros Hgate Hnd Hc. destruct op; cbn [run];
    try (split_ops; exact Hc).
  - split; reflexivity.
  - now apply updateScoreEventPlayer_score_consistent.
  - apply removeScoreEvent_score_consistent.
  - now apply addScore_score_consistent.
  - now apply resolvePendingEvent_score_consistent.
  - now apply undo_score_consistent.
Qed.

(** ** The invariant of a session *)

Lemma run_chronological now now' uuid op s :
  now <= now' -> 0 < now' ->
  ledger_chronological now s ->
  ledger_chronological now' (run uuid now' op s).
Proof.
  intros Hle Hpos (Hse & Hcs & Hsub). repeat split.
  - eapply ledger_step_chrono; [apply run_scoreEvents_step|..]; eassumption.
  - eapply ledger_step_chrono; [apply run_scoreEvents_step|..]; eassumption.
  - eapply ledger_step_chrono; [apply run_cards_step|..]; eassumption.
  - eapply ledger_step_chrono; [apply run_cards_step|..]; eassumption.
  - eapply ledger_step_chrono; [apply run_substitutionEvents_step|..];
      eassumption.
  - eapply ledger_step_chrono; [apply run_substitutionEvents_step|..];
      eassumption.
Qed.

Lemma run_minutes_derived uuid now op s :
  minutes_derived s -> minutes_derived (run uuid now op s).
Proof.
  intros (Hm1 & Hm2 & Hm3). repeat split.
  - eapply ledger_step_minutes; [apply run_scoreEvents_step|exact Hm1].
  - eapply ledger_step_minutes; [apply run_cards_step|exact Hm2].
  - eapply ledger_step_minutes; [apply run_substitutionEvents_step|exact Hm3].
Qed.

Lemma run_elapsed_nonneg uuid now op s :
  0 <= elapsedSeconds s -> 0 <= elapsedSeconds (run uuid now op s).
Proof. intros H. destruct op; cbn [run]; split_ops; lia. Qed.

(** Whatever the actions, the lists of a session are in creation order when
    the clock never runs backwards, and every [minute] is the one the store
    computes. *)
Lemma reachable_chronological gate now s :
  reachable gate now s ->
  0 < now /\ ledger_chronological now s /\ minutes_derived s
  /\ 0 <= elapsedSeconds s.
Proof.
  induction 1 as [now Hpos|now now' uuid op s _ IH Hle Hfresh Hgate].
  - split; [exact Hpos|]. repeat split; cbn; try constructor; lia.
  - destruct IH as (Hpos & Hchr & Hmin & Hel).
    assert (0 < now') as Hpos' by lia.
    split; [exact Hpos'|]. split; [|split].
    + eapply run_chronological; eassumption.
    + now apply run_minutes_derived.
    + now apply run_elapsed_nonneg.
Qed.

Lemma run_ledger_inv now now' uuid op s :
  now <= now' ->
  fresh uuid s = true ->
  pendingOnly s op = true ->
  ledger_inv now s -> ledger_inv now' (run uuid now' op s).
Proof.
  intros Hle Hfresh Hgate (Hpos & Hc & Hnd & Hchr & Hmin & Hel).
  assert (0 < now') as Hpos' by lia.
  split; [exact Hpos'|]. split; [|split; [|split; [|split]]].
  - apply run_score_consistent; assumption.
  - eapply ledger_step_NoDup;
      [apply run_scoreEvents_step|now apply fresh_scoreEvents|exact Hnd].
  - eapply run_chronological; eassumption.
  - now apply run_minutes_derived.
  - now apply run_elapsed_nonneg.
Qed.

Lemma initial_ledger_inv now : 0 < now -> ledger_inv now initialState.
Proof.
  intros Hpos. repeat split; cbn; try constructor; try lia.
Qed.

Lemma reachable_ledger_inv now s :
  reachable pendingOnly now s -> ledger_inv now s.
Proof.
  induction 1 as [now Hpos|now now' uuid op s _ IH Hle Hfresh Hgate].
  - now apply initial_ledger_inv.
  - eapply run_ledger_inv; eassumption.
Qed.

(** ** The last approved try of a ledger *)

Lemma approvedTry_test e :
  approvedTry e
  <-> bool_decide (se_type e = Try) && negb (se_pending e) = true.
Proof.
  unfold approvedTry. rewrite andb_true_iff, negb_true_iff.
  now rewrite bool_decide_eq_true.
Qed.

Lemma last_filter_split {A} (p : A -> bool) (l : list A) (e : A) :
  last (List.filter p l) = Some e ->
  exists before after,
    l = before ++ e :: after /\ p e = true
    /\ Forall (fun x => p x = false) after.
Proof.
  induction l as [|a l IH] using rev_ind; [discriminate|].
  rewrite List.filter_app. cbn. destruct (p a) eqn:Hp.
  - rewrite last_snoc. intros [= ->].
    exists l, []. repeat split; [exact Hp|constructor].
  - rewrite app_nil_r. intros H.
    destruct (IH H) as (l1 & l2 & -> & He & Hl2).
    exists l1, (l2 ++ [a]). split; [now rewrite <- app_assoc|].
    split; [exact He|]. apply Forall_app. split; [exact Hl2|].
    now repeat constructor.
Qed.

Lemma filter_none {A} (p : A -> bool) (l : list A) :
  Forall (fun x => p x = false) l -> List.filter p l = [].
Proof.
  induction 1 as [|a l Ha _ IH]; cbn; [reflexivity|]. now rewrite Ha.
Qed.

Lemma lastTry_spec e evs : lastTry evs = Some e <-> isLastApprovedTry e evs.
Proof.
  unfold lastTry, isLastApprovedTry. split.
  - intros H. apply last_filter_split in H as (l1 & l2 & -> & He & Hl2).
    exists l1, l2. split; [reflexivity|]. split; [now apply approvedTry_test|].
    eapply List.Forall_impl; [|exact Hl2]. cbn. intros x Hx Hx'.
    apply approvedTry_test in Hx'. congruence.
  - intros (l1 & l2 & -> & He & Hl2).
    rewrite List.filter_app. cbn. apply approvedTry_test in He. rewrite He.
    rewrite (filter_none _ l2).
    + apply last_snoc.
    + eapply List.Forall_impl; [|exact Hl2]. cbn. intros x Hx.
      apply not_true_is_false. intros Hx'. apply Hx.
      now apply approvedTry_test.
Qed.

(** ** C1: score consistency *)

(** C1, as stated, fails: [resolvePendingEvent] does not look at the
    [pending] flag of the event it finds.  Applied with [approved = true] to a
    try that already counts, it adds the five points a second time: the
    session is reachable, [homeScore] is 10 and the approved home events sum
    to 5. *)
Lemma score_consistency_unguarded :
  reachable anyOp 2 Scenario.doubleCounted
  /\ homeScore Scenario.doubleCounted = 10
  /\ teamPoints Home (scoreEvents Scenario.doubleCounted) = 5.
Proof.
  split; [|split; reflexivity].
  unfold Scenario.doubleCounted.
  apply (reach_step anyOp 1); [|lia|reflexivity|reflexivity].
  apply (reach_step anyOp 1); [|lia|reflexivity|reflexivity].
  apply reach_init. lia.
Qed.

(** C1 (amended): in every session reachable from the initial state by the
    store's actions, with fresh identifiers and [resolvePendingEvent] applied
    to pending events only (the gate of the review buttons), [homeScore] is
    the sum of the points of the approved home events of the ledger and
    [awayScore] the sum for away. *)
Theorem score_consistency now s :
  reachable pendingOnly now s -> score_consistent s.
Proof. intros H. apply reachable_ledger_inv in H. apply H. Qed.

Lemma score_consistency_witness : score_consistent Scenario.reviewed.
Proof.
  apply (score_consistency 3). unfold Scenario.reviewed.
  apply (reach_step pendingOnly 2); [|lia|reflexivity|reflexivity].
  apply (reach_step pendingOnly 1); [|lia|reflexivity|reflexivity].
  apply (reach_step pendingOnly 1); [|lia|reflexivity|reflexivity].
  apply reach_init. lia.
Defined.

(** ** C2: the conversion guard of [addScore] *)


(** The eligibility of the specification is decided by the last approved
    try, penalty try or conversion of the ledger. *)
Lemma referenceLastTryTeam_last e before after :
  eligibilityEvent e ->
  Forall (fun x => ~ eligibilityEvent x) after ->
  referenceLastTryTeam (before ++ e :: after)
  = match se_type e with
    | Try | PenaltyTry => Some (se_team e)
    | _ => None
    end.
Proof.
  intros [Hp Ht] Hafter. unfold referenceLastTryTeam.
  rewrite fold_left_app. cbn [fold_left].
  set (acc := eligibilityStep _ e).
  assert (acc = match se_type e with
                | Try | PenaltyTry => Some (se_team e)
                | _ => None
                end) as <-.
  { subst acc. unfold eligibilityStep. rewrite Hp.
    destruct Ht as [->|[->| ->]]; reflexivity. }
  clearbody acc. revert acc.
  induction Hafter as [|x after Hx _ IH]; intros acc; [reflexivity|].
  cbn [fold_left]. rewrite <- (IH acc) at 2. f_equal.
  unfold eligibilityStep. unfold eligibilityEvent in Hx.
  destruct (se_pending x) eqn:Hpx; [reflexivity|].
  destruct (se_type x) eqn:Htx; try reflexivity; exfalso; apply Hx; auto.
Qed.

Lemma specEligible_last e evs team :
  isLastEligibilityEvent e evs -> se_type e = Try -> se_team e = team ->
  specEligible team evs = true.
Proof.
  intros (before & after & -> & He & Hafter) Ht Hteam. unfold specEligible.
  rewrite referenceLastTryTeam_last by assumption. rewrite Ht, Hteam.
  now apply bool_decide_eq_true_2.
Qed.




(** ** C4: a pending submission *)



(** ** C5: the recomputation of [removeScoreEvent] *)

(** The two scores that [removeScoreEvent] stores are those of the remaining
    ledger. *)
Lemma removeScoreEvent_scores eventId s :
  homeScore (removeScoreEvent eventId s)
  = teamPoints Home (scoreEvents (removeScoreEvent eventId s))
  /\ awayScore (removeScoreEvent eventId s)
     = teamPoints Away (scoreEvents (removeScoreEvent eventId s)).
Proof. apply removeScoreEvent_score_consistent. Qed.

(** C5 (the code departs from it): after a home try, its conversion and a
    home penalty, [lastTryTeam] is empty.  Removing the penalty leaves the try
    and the conversion; the reducer of the specification ends empty on them,
    [removeScoreEvent] stores home, because its loop sets [lastTryTeam] to the
    team of a conversion instead of clearing it. *)
Lemma removeScoreEvent_lastTryTeam_diverges :
  lastTryTeam Scenario.afterPenalty = None
  /\ map se_type (scoreEvents (removeScoreEvent "e3" Scenario.afterPenalty))
     = [Try; Conversion]
  /\ referenceLastTryTeam
       (scoreEvents (removeScoreEvent "e3" Scenario.afterPenalty)) = None
  /\ lastTryTeam (removeScoreEvent "e3" Scenario.afterPenalty) = Some Home.
Proof. repeat split; reflexivity. Qed.

(** ** C6: what [undo] removes *)








(** ** C7: the clock *)

(** C7, as stated, fails on the [tick] of [App.tsx]: one second before the end
    of regular time, with the clock running, the tick brings the elapsed time
    to the half duration for the first time and the clock keeps running. *)
Lemma tick_does_not_pause :
  isRunning Scenario.lastSecond = true
  /\ elapsedSeconds Scenario.lastSecond = 2399
  /\ halfDuration (config Scenario.lastSecond) = 2400
  /\ elapsedSeconds (tick Scenario.lastSecond) = 2400
  /\ isRunning (tick Scenario.lastSecond) = true.
Proof. repeat split; reflexivity. Qed.

(** C7 (amended): [tick] leaves the state unchanged when the clock is not
    running; when it is running, [tick] adds exactly one second and changes
    nothing else, so the store of [App.tsx] never pauses by itself.  The
    earlier store kept in the repository behaves the same except for the
    running flag, which it clears on exactly the tick that takes the elapsed
    time from below the half duration to it. *)
Theorem tick_contract s :
  (isRunning s = false -> tick s = s /\ Legacy.tick s = s)
  /\ (isRunning s = true ->
      tick s = set_elapsedSeconds (elapsedSeconds s + 1) s
      /\ isRunning (tick s) = true
      /\ Legacy.tick s
         = set_isRunning (isRunning (Legacy.tick s))
             (set_elapsedSeconds (elapsedSeconds s + 1) s)
      /\ (isRunning (Legacy.tick s) = false
          <-> elapsedSeconds s < halfDuration (config s)
              <= elapsedSeconds s + 1)).
Proof.
  unfold tick, Legacy.tick. split; intros Hr; rewrite Hr; cbn.
  - split; reflexivity.
  - split; [reflexivity|]. split; [exact Hr|].
    destruct (Z.leb_spec (halfDuration (config s)) (elapsedSeconds s + 1));
      destruct (Z.ltb_spec (elapsedSeconds s) (halfDuration (config s)));
      cbn; rewrite ?Hr.
    + split; [reflexivity|]. split; [lia|reflexivity].
    + split; [destruct s; cbn in *; now subst|].
      split; [discriminate|lia].
    + split; [destruct s; cbn in *; now subst|].
      split; [discriminate|lia].
    + split; [destruct s; cbn in *; now subst|].
      split; [discriminate|lia].
Qed.

Lemma tick_contract_witness :
  tick Scenario.lastSecond
  = set_elapsedSeconds 2400 Scenario.lastSecond
  /\ isRunning (Legacy.tick Scenario.lastSecond) = false.
Proof.
  destruct (proj2 (tick_contract Scenario.lastSecond) eq_refl)
    as (Ht & _ & _ & Hl).
  split; [exact Ht|]. apply Hl. cbn. lia.
Defined.

(** The earlier store pauses at most once in a half: however ticks and
    toggles follow one another, at most one tick clears the running flag,
    and none does once the half duration has been reached. *)
Lemma legacy_no_pause_in_overtime ops : forall s,
  halfDuration (config s) <= elapsedSeconds s ->
  Legacy.autoPauseCount ops s = 0%nat.
Proof.
  induction ops as [|op ops IH]; intros s Hge; [reflexivity|].
  cbn [Legacy.autoPauseCount].
  destruct op; cbn [Legacy.autoPauses Legacy.clock].
  - unfold Legacy.tick. destruct (isRunning s) eqn:Hr; cbn.
    + destruct (Z.ltb_spec (elapsedSeconds s) (halfDuration (config s)));
        [lia|]. rewrite andb_false_r. cbn. rewrite Hr. cbn.
      apply IH. cbn. lia.
    + now apply IH.
  - apply IH. cbn. exact Hge.
Qed.

Lemma legacy_pauses_at_most_once ops : forall s,
  (Legacy.autoPauseCount ops s <= 1)%nat.
Proof.
  induction ops as [|op ops IH]; intros s; [cbn; lia|].
  cbn [Legacy.autoPauseCount].
  destruct (Legacy.autoPauses op s) eqn:Hp; [|apply IH].
  destruct op; [|discriminate]. cbn in Hp. cbn [Legacy.clock].
  apply andb_prop in Hp as [Hr Hp]. apply negb_true_iff in Hp.
  unfold Legacy.tick in *. rewrite Hr in *. cbn in *.
  destruct (Z.leb_spec (halfDuration (config s)) (elapsedSeconds s + 1));
    destruct (Z.ltb_spec (elapsedSeconds s) (halfDuration (config s)));
    cbn in *; try congruence.
  rewrite legacy_no_pause_in_overtime; [lia|]. cbn. lia.
Qed.

(** ** C9: removing a card or a substitution *)

(** C9: [removeCard] changes the list of cards only, keeping exactly the
    cards with another identifier, in their order, and [removeSubstitution]
    does the same on the list of substitutions; every other field of the
    state is kept, and with an identifier that no element of the list
    carries the state is unchanged. *)
Theorem removal_frames id s :
  (same_apart_from_cards s (removeCard id s)
   /\ cards (removeCard id s) `sublist_of` cards s
   /\ (forall c, In c (cards (removeCard id s))
                 <-> In c (cards s) /\ c_id c <> id)
   /\ ((forall c, In c (cards s) -> c_id c <> id) -> removeCard id s = s))
  /\ (same_apart_from_substitutions s (removeSubstitution id s)
      /\ substitutionEvents (removeSubstitution id s)
           `sublist_of` substitutionEvents s
      /\ (forall x, In x (substitutionEvents (removeSubstitution id s))
                    <-> In x (substitutionEvents s) /\ sub_id x <> id)
      /\ ((forall x, In x (substitutionEvents s) -> sub_id x <> id) ->
          removeSubstitution id s = s)).
Proof.
  split.
  - split; [repeat split|]. split; [apply filter_sublist|]. split.
    + intros c. unfold removeCard. cbn. rewrite filter_In, negb_true_iff.
      now rewrite bool_decide_eq_false.
    + intros H. unfold removeCard. rewrite filter_out_absent.
      * now destruct s.
      * now apply List.Forall_forall.
  - split; [repeat split|]. split; [apply filter_sublist|]. split.
    + intros x. unfold removeSubstitution. cbn.
      rewrite filter_In, negb_true_iff. now rewrite bool_decide_eq_false.
    + intros H. unfold removeSubstitution. rewrite filter_out_absent.
      * now destruct s.
      * now apply List.Forall_forall.
Qed.

Lemma removal_frames_witness :
  removeCard "c9" Scenario.busy = Scenario.busy
  /\ removeSubstitution "c9" Scenario.busy = Scenario.busy.
Proof.
  split.
  - apply (proj1 (removal_frames "c9" Scenario.busy)).
    intros c [<-|[]]. discriminate.
  - apply (proj2 (removal_frames "c9" Scenario.busy)).
    intros x [<-|[]]. discriminate.
Defined.

(** ** The stable sort *)

Section StableSortFacts.
Context {A : Type} (key : A -> Z).

Lemma insert_by_Permutation x l : Permutation (insert_by key x l) (x :: l).
Proof.
  induction l as [|y l IH]; cbn; [reflexivity|].
  destruct (key x <=? key y); [reflexivity|].
  rewrite IH. apply perm_swap.
Qed.

Lemma sort_by_Permutation l : Permutation (sort_by key l) l.
Proof.
  induction l as [|x l IH]; cbn; [reflexivity|].
  rewrite insert_by_Permutation. now constructor.
Qed.

Lemma insert_by_sorted x l :
  StronglySorted (key_le key) l ->
  StronglySorted (key_le key) (insert_by key x l).
Proof.
  induction 1 as [|y l Hl IH Hy]; cbn; [repeat constructor|].
  destruct (Z.leb_spec (key x) (key y)) as [Hxy|Hxy].
  - constructor; [now constructor|]. constructor; [exact Hxy|].
    eapply List.Forall_impl; [|exact Hy]. unfold key_le in *. intros; lia.
  - constructor; [exact IH|].
    rewrite insert_by_Permutation. constructor; [unfold key_le; lia|exact Hy].
Qed.

Lemma sort_by_sorted l : StronglySorted (key_le key) (sort_by key l).
Proof.
  induction l as [|x l IH]; cbn; [constructor|]. now apply insert_by_sorted.
Qed.

Lemma sort_by_ascending l : ascending key (sort_by key l).
Proof. apply StronglySorted_Sorted, sort_by_sorted. Qed.

(** Inserting below a list that is already above the element. *)
Lemma insert_by_head x l :
  Forall (fun y => key x <= key y) l -> insert_by key x l = x :: l.
Proof.
  destruct 1 as [|y l Hy _]; cbn; [reflexivity|].
  destruct (Z.leb_spec (key x) (key y)); [reflexivity|lia].
Qed.

(** A list in ascending order is left as it is. *)
Lemma sort_by_sorted_id l : StronglySorted (key_le key) l -> sort_by key l = l.
Proof.
  induction 1 as [|x l _ IH Hx]; cbn; [reflexivity|].
  unfold sort_by in IH. rewrite IH. now apply insert_by_head.
Qed.

Lemma keyed_map l :
  StronglySorted Z.le (map key l) <-> StronglySorted (key_le key) l.
Proof.
  induction l as [|x l IH]; cbn; [split; constructor|].
  rewrite !StronglySorted_cons, IH.
  now rewrite List.Forall_map.
Qed.
(** The sort is stable: the elements of any one key keep their order. *)
Lemma insert_by_stable t x l :
  List.filter (fun y => key y =? t) (insert_by key x l)
  = List.filter (fun y => key y =? t) (x :: l).
Proof.
  induction l as [|y l IH]; [reflexivity|]. cbn [insert_by].
  destruct (Z.leb_spec (key x) (key y)) as [Hxy|Hxy]; [reflexivity|].
  cbn [List.filter] in *. rewrite IH.
  destruct (Z.eqb_spec (key x) t), (Z.eqb_spec (key y) t);
    try reflexivity; lia.
Qed.

Lemma sort_by_stable t l :
  List.filter (fun y => key y =? t) (sort_by key l)
  = List.filter (fun y => key y =? t) l.
Proof.
  induction l as [|x l IH]; [reflexivity|].
  change (sort_by key (x :: l)) with (insert_by key x (sort_by key l)).
  rewrite insert_by_stable. cbn. now rewrite IH.
Qed.
End StableSortFacts.

(** ** C10: the two lists of [getSquadStatus] *)

(** C10: for every team, roster, substitution list, card list and elapsed
    time, no player of [onPitch] shares an identifier with a player of
    [onBench] (so no player is in both), both lists ascend in shirt number,
    and both hold players of the requested team only. *)
Theorem getSquadStatus_partition team ps subs cs elapsed :
  (forall p q,
      In p (onPitch (getSquadStatus team ps subs cs elapsed)) ->
      In q (onBench (getSquadStatus team ps subs cs elapsed)) ->
      p_id p <> p_id q)
  /\ ascending p_number (onPitch (getSquadStatus team ps subs cs elapsed))
  /\ ascending p_number (onBench (getSquadStatus team ps subs cs elapsed))
  /\ Forall (fun p => p_team p = team)
       (onPitch (getSquadStatus team ps subs cs elapsed))
  /\ Forall (fun p => p_team p = team)
       (onBench (getSquadStatus team ps subs cs elapsed)).
Proof.
  unfold getSquadStatus. cbn [onPitch onBench].
  set (teamPlayers :=
         sort_by p_number
           (List.filter (fun p => bool_decide (p_team p = team)) ps)).
  set (field := fold_left applySub _ _).
  assert (Forall (fun p => p_team p = team) teamPlayers) as Hteam.
  { apply List.Forall_forall. intros p Hp.
    apply (Permutation_in _ (sort_by_Permutation p_number _)) in Hp.
    apply filter_In in Hp as [_ Hp]. now apply bool_decide_eq_true in Hp. }
  assert (StronglySorted (key_le p_number) teamPlayers)
    as Hsorted by apply sort_by_sorted.
  split; [|split; [|split; [|split]]].
  - intros p q Hp Hq Heq.
    apply filter_In in Hp as [_ Hp]. apply filter_In in Hq as [_ Hq].
    apply andb_prop in Hp as [Hp _]. apply andb_prop in Hp as [Hp _].
    apply negb_true_iff in Hq. rewrite Heq in Hp. congruence.
  - apply StronglySorted_Sorted.
    eapply StronglySorted_sublist; [apply filter_sublist|exact Hsorted].
  - apply StronglySorted_Sorted.
    eapply StronglySorted_sublist; [apply filter_sublist|exact Hsorted].
  - eapply Forall_sublist; [apply filter_sublist|exact Hteam].
  - eapply Forall_sublist; [apply filter_sublist|exact Hteam].
Qed.


Lemma getSquadStatus_partition_witness :
  map p_id
    (onPitch (getSquadStatus Home (players Scenario.busy)
                (substitutionEvents Scenario.busy) (cards Scenario.busy) 100))
  = ["p10"; "p16"]
  /\ map p_id
       (onBench (getSquadStatus Home (players Scenario.busy)
                   (substitutionEvents Scenario.busy)
                   (cards Scenario.busy) 100))
     = ["p2"]
  /\ p_id Scenario.fly_half <> p_id Scenario.hooker.
Proof.
  split; [reflexivity|]. split; [reflexivity|].
  apply (proj1 (getSquadStatus_partition Home (players Scenario.busy)
                  (substitutionEvents Scenario.busy)
                  (cards Scenario.busy) 100)).
  - left. reflexivity.
  - left. reflexivity.
Defined.

(** ** Who is on the pitch *)

Lemma filter_map_commute {A} (p : A -> bool) (f : A -> A) (l : list A) :
  (forall a, p (f a) = p a) ->
  List.filter p (map f l) = map f (List.filter p l).
Proof.
  intros Hp. induction l as [|a l IH]; [reflexivity|]. cbn.
  rewrite Hp, IH. destruct (p a); reflexivity.
Qed.

Lemma filter_and {A} (p q : A -> bool) (l : list A) :
  List.filter (fun a => p a && q a) l = List.filter q (List.filter p l).
Proof.
  induction l as [|a l IH]; [reflexivity|]. cbn.
  destruct (p a); cbn; [destruct (q a)|]; now rewrite IH.
Qed.

Lemma teamPlayers_In team ps p :
  In p (sort_by p_number
          (List.filter (fun p => bool_decide (p_team p = team)) ps))
  <-> In p ps /\ p_team p = team.
Proof.
  split.
  - intros H. apply (Permutation_in _ (sort_by_Permutation _ _)) in H.
    apply filter_In in H as [H1 H2]. now apply bool_decide_eq_true in H2.
  - intros [H1 H2].
    apply (Permutation_in _ (Permutation_sym (sort_by_Permutation _ _))).
    apply filter_In. split; [exact H1|]. now apply bool_decide_eq_true_2.
Qed.

Lemma onPitch_In team ps subs cs elapsed p :
  In p (onPitch (getSquadStatus team ps subs cs elapsed))
  <-> In p ps /\ p_team p = team
      /\ p_id p ∈ currentlyOnPitch team ps subs
      /\ ~ excluded team cs elapsed (p_id p).
Proof.
  unfold getSquadStatus. cbn [onPitch]. fold (currentlyOnPitch team ps subs).
  rewrite filter_In, teamPlayers_In, !andb_true_iff, !negb_true_iff.
  rewrite bool_decide_eq_true, !bool_decide_eq_false.
  rewrite !elem_of_list_to_set, !list_elem_of_In, !in_map_iff.
  setoid_rewrite filter_In. unfold excluded. split.
  - intros ([Hp Ht] & [Hf Hr] & Hs). repeat split; try assumption.
    intros (c & Hc & Hid & [Hred|Hbin]).
    + apply Hr. now exists c.
    + apply Hs. now exists c.
  - intros (Hp & Ht & Hf & Hex). repeat split; try assumption.
    + intros (c & Hid & Hc & Hred). apply Hex. exists c. auto.
    + intros (c & Hid & Hc & Hbin). apply Hex. exists c. auto.
Qed.

Lemma onBench_In team ps subs cs elapsed p :
  In p (onBench (getSquadStatus team ps subs cs elapsed))
  <-> In p ps /\ p_team p = team /\ p_id p ∉ currentlyOnPitch team ps subs.
Proof.
  unfold getSquadStatus. cbn [onBench]. fold (currentlyOnPitch team ps subs).
  rewrite filter_In, teamPlayers_In, negb_true_iff, bool_decide_eq_false.
  tauto.
Qed.


(** ** C3: the sin bin *)

Lemma getSquadStatus_cards_ext team ps subs cs cs' elapsed :
  List.filter (redCarded team) cs' = List.filter (redCarded team) cs ->
  List.filter (inSinBin team elapsed) cs'
  = List.filter (inSinBin team elapsed) cs ->
  getSquadStatus team ps subs cs' elapsed
  = getSquadStatus team ps subs cs elapsed.
Proof. intros H1 H2. unfold getSquadStatus. now rewrite H1, H2. Qed.

(** A card that counts for nothing leaves every resolver as it was. *)
Lemma idle_card_frame cs card elapsed :
  sinBinActive elapsed card = false ->
  (forall t, redCarded t card = false) ->
  (forall t, inSinBin t elapsed card = false) ->
  activeSinBins (cs ++ [card]) elapsed = activeSinBins cs elapsed
  /\ forall t ps subs,
       getSquadStatus t ps subs (cs ++ [card]) elapsed
       = getSquadStatus t ps subs cs elapsed.
Proof.
  intros Ha Hr Hs. split.
  - unfold activeSinBins. rewrite List.filter_app. cbn. rewrite Ha.
    apply app_nil_r.
  - intros t ps subs. apply getSquadStatus_cards_ext;
      rewrite List.filter_app; cbn; rewrite ?Hr, ?Hs; apply app_nil_r.
Qed.

Lemma returnFromSinBin_last uuid' now' cardId s2 cs card :
  cards s2 = cs ++ [card] -> c_id card = cardId ->
  ~ In cardId (map c_id cs) ->
  cards (returnFromSinBin uuid' now' cardId s2) = cs ++ [mark_returned card].
Proof.
  intros Hcs Hid Hfresh. unfold returnFromSinBin.
  assert (Forall (fun c => c_id c <> cardId) cs) as Hne.
  { apply List.Forall_forall. intros c Hc Heq. apply Hfresh.
    apply in_map_iff. now exists c. }
  assert (map (fun c => if bool_decide (c_id c = cardId)
                        then mark_returned c else c) (cs ++ [card])
          = cs ++ [mark_returned card]) as Hmap.
  { rewrite map_app. cbn. rewrite bool_decide_eq_true_2 by exact Hid.
    f_equal. rewrite <- (map_id cs) at 2. apply map_ext_in.
    intros c Hc. rewrite List.Forall_forall in Hne.
    now rewrite bool_decide_eq_false_2 by auto. }
  rewrite Hcs. destruct (List.find _ (cs ++ [card])) as [c|] eqn:Hfind.
  - cbn. exact Hmap.
  - exfalso. apply find_id_None in Hfind.
    apply Forall_app in Hfind as [_ Hfind].
    apply Forall_cons in Hfind as [Hfind _]. contradiction.
Qed.

Lemma not_in_snoc (i x : string) (l : list string) :
  negb (bool_decide (i ∈ (list_to_set (l ++ [x]) : gset string)))
  = negb (bool_decide (i ∈ (list_to_set l : gset string)))
    && negb (bool_decide (i = x)).
Proof.
  assert (i ∈ (list_to_set (l ++ [x]) : gset string)
          <-> i ∈ (list_to_set l : gset string) \/ i = x) as Hiff.
  { rewrite list_to_set_app_L, elem_of_union. cbn.
    rewrite elem_of_union, elem_of_singleton, elem_of_empty. tauto. }
  rewrite (bool_decide_ext _ _ Hiff), bool_decide_or. apply negb_orb.
Qed.

(** A running yellow card takes its player, and nobody else, off the pitch
    of the team, and leaves the bench alone. *)
Lemma running_card_squad team ps subs cs card elapsed :
  inSinBin team elapsed card = true ->
  redCarded team card = false ->
  onPitch (getSquadStatus team ps subs (cs ++ [card]) elapsed)
  = List.filter (fun p => negb (bool_decide (p_id p = c_player card)))
      (onPitch (getSquadStatus team ps subs cs elapsed))
  /\ onBench (getSquadStatus team ps subs (cs ++ [card]) elapsed)
     = onBench (getSquadStatus team ps subs cs elapsed).
Proof.
  intros Hbin Hred. unfold getSquadStatus. cbn [onPitch onBench].
  rewrite !List.filter_app. cbn [List.filter]. rewrite Hbin, Hred.
  rewrite app_nil_r, map_app. cbn [map]. split; [|reflexivity].
  rewrite <- filter_and. apply List.filter_ext. intros p.
  now rewrite not_in_snoc, andb_assoc.
Qed.

(** C3: a yellow card shown at elapsed time [T] (a count of seconds, so not
    negative) is recorded with [returnTime = T + 600].  At every elapsed time
    in [[T, T + 600)] the card is among the active sin bins, with
    [T + 600 - elapsed] seconds left, and the squad resolver keeps the player
    off the pitch: the pitch of the team is the pitch without the card less
    the player, the bench and the squad of the other team are as without
    the card.  At every elapsed time from [T + 600] on, the sin-bin list
    and the squad status are what they are without the card, so that the
    player, when the roster has him on the field and no other card keeps
    him off, is on the pitch again; and once the card has been marked
    returned the same holds at every elapsed time. *)
Theorem sin_bin_boundary uuid now team player s :
  0 <= elapsedSeconds s ->
  fresh uuid s = true ->
  exists card,
    cards (addCard uuid now team player Yellow s) = cards s ++ [card]
    /\ c_id card = uuid /\ c_team card = team /\ c_player card = player
    /\ c_type card = Yellow
    /\ c_returnTime card = Some (elapsedSeconds s + 600)
    /\ c_returned card = false
    /\ (forall elapsed,
           elapsedSeconds s <= elapsed < elapsedSeconds s + 600 ->
           In card
             (activeSinBins (cards (addCard uuid now team player Yellow s))
                elapsed)
           /\ timeLeft elapsed card = elapsedSeconds s + 600 - elapsed
           /\ (forall ps subs p,
                  In p (onPitch
                          (getSquadStatus team ps subs
                             (cards (addCard uuid now team player Yellow s))
                             elapsed)) ->
                  p_id p <> player)
           /\ (forall ps subs,
                  onPitch
                    (getSquadStatus team ps subs
                       (cards (addCard uuid now team player Yellow s))
                       elapsed)
                  = List.filter
                      (fun p => negb (bool_decide (p_id p = player)))
                      (onPitch
                         (getSquadStatus team ps subs (cards s) elapsed))
                  /\ onBench
                       (getSquadStatus team ps subs
                          (cards (addCard uuid now team player Yellow s))
                          elapsed)
                     = onBench
                         (getSquadStatus team ps subs (cards s) elapsed))
           /\ (forall t ps subs,
                  t <> team ->
                  getSquadStatus t ps subs
                    (cards (addCard uuid now team player Yellow s)) elapsed
                  = getSquadStatus t ps subs (cards s) elapsed))
    /\ (forall elapsed,
           elapsedSeconds s + 600 <= elapsed ->
           activeSinBins (cards (addCard uuid now team player Yellow s))
             elapsed
           = activeSinBins (cards s) elapsed
           /\ (forall t ps subs,
                  getSquadStatus t ps subs
                    (cards (addCard uuid now team player Yellow s)) elapsed
                  = getSquadStatus t ps subs (cards s) elapsed)
           /\ (forall ps subs p,
                  In p ps -> p_team p = team -> p_id p = player ->
                  player ∈ currentlyOnPitch team ps subs ->
                  ~ excluded team (cards s) elapsed player ->
                  In p (onPitch
                          (getSquadStatus team ps subs
                             (cards (addCard uuid now team player Yellow s))
                             elapsed))))
    /\ (forall uuid' now' s2 elapsed,
           cards s2 = cards (addCard uuid now team player Yellow s) ->
           activeSinBins (cards (returnFromSinBin uuid' now' uuid s2)) elapsed
           = activeSinBins (cards s) elapsed
           /\ (forall t ps subs,
                  getSquadStatus t ps subs
                    (cards (returnFromSinBin uuid' now' uuid s2)) elapsed
                  = getSquadStatus t ps subs (cards s) elapsed)
           /\ (forall ps subs p,
                  In p ps -> p_team p = team -> p_id p = player ->
                  player ∈ currentlyOnPitch team ps subs ->
                  ~ excluded team (cards s) elapsed player ->
                  In p (onPitch
                          (getSquadStatus team ps subs
                             (cards (returnFromSinBin uuid' now' uuid s2))
                             elapsed)))).
Proof.
  intros HT Hfresh. unfold addCard. cbn [cards set_cards].
  rewrite (bool_decide_eq_true_2 (Yellow = Yellow)) by reflexivity.
  eexists. split; [reflexivity|]. cbn [c_id c_team c_player c_type
                                         c_returnTime c_returned].
  repeat (split; [reflexivity|]).
  set (card := {| c_id := uuid; c_returned := false |}).
  assert (forall t, redCarded t card = false) as Hred.
  { intros t. unfold redCarded. subst card. cbn.
    rewrite (bool_decide_eq_false_2 (Yellow = Red)) by discriminate.
    apply andb_false_r. }
  assert (forall cs elapsed ps subs p,
             (forall t ps subs,
                 getSquadStatus t ps subs cs elapsed
                 = getSquadStatus t ps subs (cards s) elapsed) ->
             In p ps -> p_team p = team -> p_id p = player ->
             player ∈ currentlyOnPitch team ps subs ->
             ~ excluded team (cards s) elapsed player ->
             In p (onPitch (getSquadStatus team ps subs cs elapsed)))
    as Hback.
  { intros cs elapsed ps subs p Heq Hp Ht Hid Hon Hex. rewrite Heq.
    apply onPitch_In. rewrite Hid. auto. }
  split; [|split].
  - intros elapsed Hin.
    assert (inSinBin team elapsed card = true) as Hbin.
    { unfold inSinBin. subst card. cbn.
      rewrite (bool_decide_eq_true_2 (team = team)) by reflexivity.
      rewrite (bool_decide_eq_true_2 (Yellow = Yellow)) by reflexivity.
      cbn. apply Z.ltb_lt. lia. }
    split; [|split; [|split; [|split]]].
    + unfold activeSinBins. apply filter_In. split.
      * apply in_or_app. right. now left.
      * unfold sinBinActive. subst card. cbn.
        rewrite (bool_decide_eq_true_2 (Yellow = Yellow)) by reflexivity.
        cbn. apply andb_true_iff. split.
        -- apply negb_true_iff, Z.eqb_neq. lia.
        -- apply Z.ltb_lt. lia.
    + unfold timeLeft. subst card. cbn. reflexivity.
    + intros ps subs p Hp Heq. unfold getSquadStatus in Hp. cbn in Hp.
      apply filter_In in Hp as [_ Hp].
      apply andb_prop in Hp as [_ Hp]. apply negb_true_iff in Hp.
      apply bool_decide_eq_false in Hp. apply Hp.
      apply elem_of_list_to_set, list_elem_of_In, in_map_iff.
      exists card. split; [now subst card|].
      apply filter_In. split; [apply in_or_app; right; now left|].
      exact Hbin.
    + intros ps subs.
      exact (running_card_squad team ps subs (cards s) card elapsed
               Hbin (Hred team)).
    + intros t ps subs Hne. apply getSquadStatus_cards_ext;
        rewrite List.filter_app; cbn [List.filter]; rewrite ?Hred;
        [apply app_nil_r|].
      unfold inSinBin. subst card. cbn [c_team].
      rewrite (bool_decide_eq_false_2 (team = t)) by congruence.
      cbn. apply app_nil_r.
  - intros elapsed Hge.
    assert (activeSinBins (cards s ++ [card]) elapsed
            = activeSinBins (cards s) elapsed
            /\ forall t ps subs,
                 getSquadStatus t ps subs (cards s ++ [card]) elapsed
                 = getSquadStatus t ps subs (cards s) elapsed) as [Ha Hs].
    { apply idle_card_frame.
      + unfold sinBinActive. subst card. cbn.
        rewrite (proj2 (Z.ltb_ge _ _)) by lia. now rewrite !andb_false_r.
      + exact Hred.
      + intros t. unfold inSinBin. subst card. cbn.
        rewrite (proj2 (Z.ltb_ge _ _)) by lia. now rewrite !andb_false_r. }
    split; [exact Ha|]. split; [exact Hs|].
    intros ps subs p. now apply Hback.
  - intros uuid' now' s2 elapsed Hs2.
    rewrite (returnFromSinBin_last uuid' now' uuid s2 (cards s) card);
      [|exact Hs2|reflexivity|now apply fresh_cards].
    assert (activeSinBins (cards s ++ [mark_returned card]) elapsed
            = activeSinBins (cards s) elapsed
            /\ forall t ps subs,
                 getSquadStatus t ps subs (cards s ++ [mark_returned card])
                   elapsed
                 = getSquadStatus t ps subs (cards s) elapsed) as [Ha Hs].
    { apply idle_card_frame.
      + unfold sinBinActive. cbn. now rewrite andb_false_r.
      + intros t. unfold redCarded. cbn.
        rewrite (bool_decide_eq_false_2 (Yellow = Red)) by discriminate.
        apply andb_false_r.
      + intros t. unfold inSinBin. cbn. now rewrite andb_false_r. }
    split; [exact Ha|]. split; [exact Hs|].
    intros ps subs p. now apply Hback.
Qed.

(** Scenario B: a yellow card to the fly-half at 100 seconds returns at
    700; at 650 the pitch holds the hooker only, at 700 the fly-half is on
    it again. *)
Lemma sin_bin_boundary_witness :
  exists card,
    cards Scenario.afterYellow = cards Scenario.kickedOff ++ [card]
    /\ c_returnTime card = Some (100 + 600)
    /\ onPitch
         (getSquadStatus Home (players Scenario.kickedOff) []
            (cards Scenario.afterYellow) 650)
       = [Scenario.hooker]
    /\ In Scenario.fly_half
         (onPitch
            (getSquadStatus Home (players Scenario.kickedOff) []
               (cards Scenario.afterYellow) 700)).
Proof.
  assert (0 <= elapsedSeconds Scenario.kickedOff) as HT by (cbn; lia).
  destruct (sin_bin_boundary "c1" 2 Home "p10" Scenario.kickedOff HT eq_refl)
    as (card & Hcards & _ & _ & _ & _ & Hrt & _ & Hin & Hout & _).
  exists card. split; [exact Hcards|]. split; [exact Hrt|]. split.
  - destruct (Hin 650) as (_ & _ & _ & Hsquad & _); [cbn; lia|].
    destruct (Hsquad (players Scenario.kickedOff) []) as [Hp _].
    change (cards (addCard "c1" 2 Home "p10" Yellow Scenario.kickedOff))
      with (cards Scenario.afterYellow) in Hp.
    rewrite Hp. reflexivity.
  - destruct (Hout 700) as (_ & _ & Hback); [cbn; lia|].
    apply (Hback (players Scenario.kickedOff) [] Scenario.fly_half).
    + left. reflexivity.
    + reflexivity.
    + reflexivity.
    + unfold currentlyOnPitch.
      change (sort_by p_number
                (List.filter (fun p => bool_decide (p_team p = Home))
                   (players Scenario.kickedOff)))
        with [Scenario.hooker; Scenario.fly_half; Scenario.replacement].
      cbn. set_solver.
    + intros (c & [] & _).
Defined.

(** ** Reading a sorted log back *)

Section OmapSort.
Context {A B : Type} (keyA : A -> Z) (keyB : B -> Z) (f : A -> option B).
Hypothesis f_key : forall x y, f x = Some y -> keyB y = keyA x.

Lemma omap_lower_bound k l :
  Forall (fun z => k <= keyA z) l -> Forall (fun z => k <= keyB z) (omap f l).
Proof.
  induction 1 as [|z l Hz _ IH]; cbn; [constructor|].
  destruct (f z) as [y|] eqn:Hy; [|exact IH].
  constructor; [|exact IH]. rewrite (f_key _ _ Hy). exact Hz.
Qed.

Lemma omap_insert_by x l :
  StronglySorted (key_le keyA) l ->
  omap f (insert_by keyA x l)
  = match f x with
    | Some y => insert_by keyB y (omap f l)
    | None => omap f l
    end.
Proof.
  induction 1 as [|z l Hl IH Hz]; cbn; [now destruct (f x)|].
  destruct (Z.leb_spec (keyA x) (keyA z)) as [Hxz|Hxz].
  - cbn. destruct (f x) as [y|] eqn:Hy; [|reflexivity].
    symmetry. apply insert_by_head. rewrite (f_key _ _ Hy).
    apply (omap_lower_bound (keyA x) (z :: l)).
    constructor; [exact Hxz|].
    eapply List.Forall_impl; [|exact Hz]. unfold key_le. intros; lia.
  - cbn. rewrite IH. destruct (f x) as [y|] eqn:Hy; [|reflexivity].
    destruct (f z) as [w|] eqn:Hw; [|reflexivity].
    cbn. rewrite (f_key _ _ Hy), (f_key _ _ Hw).
    destruct (Z.leb_spec (keyA x) (keyA z)); [lia|reflexivity].
Qed.

Lemma omap_sort_by l :
  omap f (sort_by keyA l) = sort_by keyB (omap f l).
Proof.
  induction l as [|x l IH]; [reflexivity|].
  change (sort_by keyA (x :: l)) with (insert_by keyA x (sort_by keyA l)).
  rewrite omap_insert_by by apply sort_by_sorted. rewrite IH.
  cbn. now destruct (f x).
Qed.
End OmapSort.

Lemma omap_map_all {A B} (f : A -> option B) (g : B -> A) (l : list B) :
  Forall (fun x => f (g x) = Some x) l -> omap f (map g l) = l.
Proof.
  induction 1 as [|x l Hx _ IH]; cbn; [reflexivity|]. now rewrite Hx, IH.
Qed.

Lemma omap_map_none {A B C} (f : A -> option B) (g : C -> A) (l : list C) :
  (forall x, f (g x) = None) -> omap f (map g l) = [].
Proof.
  intros H. induction l as [|x l IH]; cbn; [reflexivity|]. now rewrite H.
Qed.

Lemma scoreEventOfLog_scoreEntry e :
  se_minute e = se_matchTime e / 60 -> scoreEventOfLog (scoreEntry e) = Some e.
Proof. destruct e. cbn. now intros ->. Qed.

Lemma cardOfLog_cardEntry c :
  c_minute c = c_matchTime c / 60 -> cardOfLog (cardEntry c) = Some c.
Proof. destruct c. cbn. now intros ->. Qed.

Lemma substitutionOfLog_substitutionEntry x :
  sub_minute x = sub_matchTime x / 60 ->
  substitutionOfLog (substitutionEntry x) = Some x.
Proof. destruct x. cbn. now intros ->. Qed.

Lemma scoreEventOfLog_stamp ev e :
  scoreEventOfLog ev = Some e -> se_timestamp e = log_timestamp ev.
Proof.
  unfold scoreEventOfLog. intros H.
  repeat match type of H with
         | match ?x with _ => _ end = _ => destruct x; try discriminate
         end.
  now injection H as <-.
Qed.

Lemma cardOfLog_stamp ev c :
  cardOfLog ev = Some c -> c_timestamp c = log_timestamp ev.
Proof.
  unfold cardOfLog. intros H.
  repeat match type of H with
         | match ?x with _ => _ end = _ => destruct x; try discriminate
         end.
  now injection H as <-.
Qed.

Lemma substitutionOfLog_stamp ev x :
  substitutionOfLog ev = Some x -> sub_timestamp x = log_timestamp ev.
Proof.
  unfold substitutionOfLog. intros H.
  repeat match type of H with
         | match ?x with _ => _ end = _ => destruct x; try discriminate
         end.
  now injection H as <-.
Qed.

Lemma pushedEntries_scoreEvents s :
  Forall (fun e => se_minute e = se_matchTime e / 60) (scoreEvents s) ->
  omap scoreEventOfLog (pushedEntries (stateToMatchSnapshot s))
  = scoreEvents s.
Proof.
  intros Hm. unfold pushedEntries. cbn. rewrite !omap_app.
  rewrite omap_map_all.
  - rewrite !omap_map_none; [now rewrite !app_nil_r|..];
      intros x; try reflexivity.
    unfold scoreEventOfLog. cbn. now destruct (sys_type x).
  - eapply List.Forall_impl; [|exact Hm]. apply scoreEventOfLog_scoreEntry.
Qed.

Lemma pushedEntries_cards s :
  Forall (fun c => c_minute c = c_matchTime c / 60) (cards s) ->
  omap cardOfLog (pushedEntries (stateToMatchSnapshot s)) = cards s.
Proof.
  intros Hm. unfold pushedEntries. cbn. rewrite !omap_app.
  rewrite (omap_map_all cardOfLog).
  - rewrite !omap_map_none; [now rewrite !app_nil_r|..];
      intros x; try reflexivity.
    unfold cardOfLog. cbn. now destruct (sys_type x).
  - eapply List.Forall_impl; [|exact Hm]. apply cardOfLog_cardEntry.
Qed.

Lemma pushedEntries_substitutionEvents s :
  Forall (fun x => sub_minute x = sub_matchTime x / 60)
    (substitutionEvents s) ->
  omap substitutionOfLog (pushedEntries (stateToMatchSnapshot s))
  = substitutionEvents s.
Proof.
  intros Hm. unfold pushedEntries. cbn. rewrite !omap_app.
  rewrite (omap_map_all substitutionOfLog).
  - rewrite !omap_map_none; [now rewrite !app_nil_r|..];
      intros x; try reflexivity.
    unfold substitutionOfLog. cbn. now destruct (sys_type x).
  - eapply List.Forall_impl; [|exact Hm].
    apply substitutionOfLog_substitutionEntry.
Qed.

(** ** Reading back without the [minute] fields *)

Lemma omap_map_some {A B C} (f : A -> option B) (g : C -> A) (h : C -> B)
    (l : list C) :
  (forall x, f (g x) = Some (h x)) -> omap f (map g l) = map h l.
Proof.
  intros H. induction l as [|x l IH]; cbn; [reflexivity|].
  now rewrite H, IH.
Qed.

Lemma pushedEntries_reread_scores s :
  omap scoreEventOfLog (pushedEntries (stateToMatchSnapshot s))
  = map reread_score (scoreEvents s).
Proof.
  unfold pushedEntries. cbn. rewrite !omap_app.
  rewrite (omap_map_some scoreEventOfLog scoreEntry reread_score)
    by reflexivity.
  rewrite !omap_map_none; [now rewrite !app_nil_r|..];
    intros x; try reflexivity.
  unfold scoreEventOfLog. cbn. now destruct (sys_type x).
Qed.

Lemma pushedEntries_reread_cards s :
  omap cardOfLog (pushedEntries (stateToMatchSnapshot s))
  = map reread_card (cards s).
Proof.
  unfold pushedEntries. cbn. rewrite !omap_app.
  rewrite (omap_map_some cardOfLog cardEntry reread_card) by reflexivity.
  rewrite !omap_map_none; [now rewrite !app_nil_r|..];
    intros x; try reflexivity.
  unfold cardOfLog. cbn. now destruct (sys_type x).
Qed.

Lemma pushedEntries_reread_substitutions s :
  omap substitutionOfLog (pushedEntries (stateToMatchSnapshot s))
  = map reread_substitution (substitutionEvents s).
Proof.
  unfold pushedEntries. cbn. rewrite !omap_app.
  rewrite (omap_map_some substitutionOfLog substitutionEntry
             reread_substitution) by reflexivity.
  rewrite !omap_map_none; [now rewrite !app_nil_r|..];
    intros x; try reflexivity.
  unfold substitutionOfLog. cbn. now destruct (sys_type x).
Qed.

Lemma teamPoints_Permutation team l1 l2 :
  Permutation l1 l2 -> teamPoints team l1 = teamPoints team l2.
Proof. induction 1; cbn; lia. Qed.

Lemma teamPoints_reread team l :
  teamPoints team (map reread_score l) = teamPoints team l.
Proof.
  induction l as [|e l IH]; cbn; [reflexivity|]. now rewrite IH.
Qed.

(** The score of a log is the sum over the ledger, whatever the order of
    the lists and the [minute] fields. *)
Lemma logScore_matchLog team s :
  logScore team (matchLog s) = teamPoints team (scoreEvents s).
Proof.
  unfold logScore, matchLog, buildLogFromSnapshot.
  rewrite (omap_sort_by log_timestamp se_timestamp)
    by apply scoreEventOfLog_stamp.
  rewrite (teamPoints_Permutation _ _ _ (sort_by_Permutation _ _)).
  rewrite pushedEntries_reread_scores. apply teamPoints_reread.
Qed.

Lemma matchLog_reread_cards s :
  StronglySorted Z.le (map c_timestamp (cards s)) ->
  omap cardOfLog (matchLog s) = map reread_card (cards s).
Proof.
  intros Hc. unfold matchLog, buildLogFromSnapshot.
  rewrite (omap_sort_by log_timestamp c_timestamp) by apply cardOfLog_stamp.
  rewrite pushedEntries_reread_cards.
  apply sort_by_sorted_id, keyed_map. rewrite map_map. exact Hc.
Qed.

Lemma matchLog_reread_substitutions s :
  StronglySorted Z.le (map sub_timestamp (substitutionEvents s)) ->
  omap substitutionOfLog (matchLog s)
  = map reread_substitution (substitutionEvents s).
Proof.
  intros Hc. unfold matchLog, buildLogFromSnapshot.
  rewrite (omap_sort_by log_timestamp sub_timestamp)
    by apply substitutionOfLog_stamp.
  rewrite pushedEntries_reread_substitutions.
  apply sort_by_sorted_id, keyed_map. rewrite map_map. exact Hc.
Qed.

Lemma applySub_reread l : forall acc,
  fold_left applySub (map reread_substitution l) acc
  = fold_left applySub l acc.
Proof.
  induction l as [|x l IH]; intros acc; [reflexivity|]. cbn. apply IH.
Qed.

(** The squad resolver does not look at [minute]. *)
Lemma getSquadStatus_reread team ps subs cs elapsed :
  getSquadStatus team ps (map reread_substitution subs)
    (map reread_card cs) elapsed
  = getSquadStatus team ps subs cs elapsed.
Proof.
  unfold getSquadStatus.
  rewrite !filter_map_commute by reflexivity.
  rewrite applySub_reread, !map_map. reflexivity.
Qed.

(** ** C8: the saved log *)

(** C8, as stated, fails: the snapshot has no field for card-return events and
    [buildLogFromSnapshot] pushes none.  After a yellow card and the return of
    the player the session holds one card-return event, and the log holds the
    match start and the card only. *)
Lemma card_return_not_logged :
  map cr_id (cardReturnEvents Scenario.afterReturn) = ["r1"]
  /\ map log_id (matchLog Scenario.afterReturn) = ["m0"; "c1"]
  /\ map log_type (matchLog Scenario.afterReturn) = [LogMatchStart; LogCard].
Proof. repeat split; reflexivity. Qed.

(** C8 (amended): in every session, the saved log holds exactly one entry
    for every score event, card, substitution and system event (card-return
    events are not saved; the card entry carries the [returned] flag), each
    built from the fields of its event; it is in ascending order of
    creation stamp, and the sort is stable: the entries of any one stamp
    stand in the order in which they were pushed, score events first, then
    cards, substitutions and system events, each kind in the order of its
    list.  The score read back from the log is the sum of the approved
    points of the ledger.  For a session whose lists are in creation order
    and whose scores are consistent, reading the log back gives the same
    [homeScore] and [awayScore], and, with the same roster, the same squad
    status at every elapsed time; when moreover the [minute] fields are the
    ones the store computes, it gives back the score events, the cards and
    the substitutions themselves. *)
Theorem match_log_round_trip now s :
  Permutation (matchLog s)
    (map scoreEntry (scoreEvents s) ++ map cardEntry (cards s)
     ++ map substitutionEntry (substitutionEvents s)
     ++ map systemEntry (systemEvents s))
  /\ ascending log_timestamp (matchLog s)
  /\ (forall t,
         List.filter (fun ev => log_timestamp ev =? t) (matchLog s)
         = List.filter (fun ev => log_timestamp ev =? t)
             (map scoreEntry (scoreEvents s) ++ map cardEntry (cards s)
              ++ map substitutionEntry (substitutionEvents s)
              ++ map systemEntry (systemEvents s)))
  /\ (forall team,
         logScore team (matchLog s) = teamPoints team (scoreEvents s))
  /\ (ledger_chronological now s ->
      score_consistent s ->
      logScore Home (matchLog s) = homeScore s
      /\ logScore Away (matchLog s) = awayScore s
      /\ forall team ps elapsed,
           logSquadStatus team ps (matchLog s) elapsed
           = getSquadStatus team ps (substitutionEvents s) (cards s) elapsed)
  /\ (ledger_chronological now s ->
      minutes_derived s ->
      omap scoreEventOfLog (matchLog s) = scoreEvents s
      /\ omap cardOfLog (matchLog s) = cards s
      /\ omap substitutionOfLog (matchLog s) = substitutionEvents s).
Proof.
  split; [apply sort_by_Permutation|].
  split; [apply sort_by_ascending|].
  split; [intros t; apply sort_by_stable|].
  split; [intros team; apply logScore_matchLog|].
  split.
  - intros (_ & [Hc _] & [Hsub _]) [Hh Ha].
    rewrite !logScore_matchLog. split; [congruence|]. split; [congruence|].
    intros team ps elapsed. unfold logSquadStatus.
    rewrite matchLog_reread_cards, matchLog_reread_substitutions
      by assumption.
    apply getSquadStatus_reread.
  - intros ([Hse _] & [Hc _] & [Hsub _]) (Hm1 & Hm2 & Hm3).
    unfold matchLog, buildLogFromSnapshot. split; [|split].
    + rewrite (omap_sort_by log_timestamp se_timestamp)
        by apply scoreEventOfLog_stamp.
      rewrite pushedEntries_scoreEvents by exact Hm1.
      now apply sort_by_sorted_id, keyed_map.
    + rewrite (omap_sort_by log_timestamp c_timestamp)
        by apply cardOfLog_stamp.
      rewrite pushedEntries_cards by exact Hm2.
      now apply sort_by_sorted_id, keyed_map.
    + rewrite (omap_sort_by log_timestamp sub_timestamp)
        by apply substitutionOfLog_stamp.
      rewrite pushedEntries_substitutionEvents by exact Hm3.
      now apply sort_by_sorted_id, keyed_map.
Qed.

Lemma match_log_round_trip_witness :
  omap scoreEventOfLog (matchLog Scenario.busy) = scoreEvents Scenario.busy
  /\ logScore Home (matchLog Scenario.busy) = homeScore Scenario.busy
  /\ map log_id
       (List.filter (fun ev => log_timestamp ev =? 5)
          (matchLog Scenario.tied))
     = ["e1"; "e2"; "c2"].
Proof.
  assert (ledger_chronological 5 Scenario.busy) as Hchr.
  { unfold ledger_chronological.
    change (map se_timestamp (scoreEvents Scenario.busy)) with [5].
    change (map c_timestamp (cards Scenario.busy)) with [2].
    change (map sub_timestamp (substitutionEvents Scenario.busy)) with [4].
    repeat split; repeat constructor; lia. }
  assert (minutes_derived Scenario.busy) as Hmin.
  { repeat split; repeat constructor. }
  assert (score_consistent Scenario.busy) as Hcons.
  { split; reflexivity. }
  destruct (match_log_round_trip 5 Scenario.busy)
    as (_ & _ & _ & _ & Hscore & Hback).
  destruct (Hscore Hchr Hcons) as (Hh & _).
  destruct (Hback Hchr Hmin) as (Hse & _).
  destruct (match_log_round_trip 5 Scenario.tied) as (_ & _ & Hstable & _).
  split; [exact Hse|]. split; [exact Hh|].
  rewrite Hstable. reflexivity.
Defined.

(** ** The scenarios of the specification, run on the model *)

(** Scenario A: a home try scores five and makes home eligible; its
    conversion brings the score to seven; an away conversion is refused. *)
Example scenario_A :
  homeScore Scenario.afterTry = 5
  /\ lastTryTeam Scenario.afterTry = Some Home
  /\ homeScore Scenario.afterConversion = 7
  /\ addScore "e3" 3 Away Conversion None false Scenario.afterConversion
     = Scenario.afterConversion.
Proof. repeat split; reflexivity. Qed.

(** Scenario B: a yellow card at 100 seconds returns at 700; the player is
    off the pitch at 650 and back at 700. *)
Example scenario_B :
  map c_returnTime (cards Scenario.afterYellow) = [Some 700]
  /\ map p_id
       (onPitch (getSquadStatus Home (players Scenario.afterYellow)
                   (substitutionEvents Scenario.afterYellow)
                   (cards Scenario.afterYellow) 650)) = ["p2"]
  /\ map p_id
       (onPitch (getSquadStatus Home (players Scenario.afterYellow)
                   (substitutionEvents Scenario.afterYellow)
                   (cards Scenario.afterYellow) 700)) = ["p2"; "p10"].
Proof. repeat split; reflexivity. Qed.

(** Scenario C: a pending try scores nothing until it is approved; it can
    then be converted. *)
Example scenario_C :
  homeScore (addScore "e1" 1 Home Try None true initialState) = 0
  /\ homeScore
       (resolvePendingEvent "e1" true
          (addScore "e1" 1 Home Try None true initialState)) = 5
  /\ lastTryTeam
       (resolvePendingEvent "e1" true
          (addScore "e1" 1 Home Try None true initialState)) = Some Home
  /\ homeScore
       (addScore "e2" 2 Home Conversion None false
          (resolvePendingEvent "e1" true
             (addScore "e1" 1 Home Try None true initialState))) = 7.
Proof. repeat split; reflexivity. Qed.

(** Scenario D: after a substitution the replacement is on the pitch and the
    replaced player on the bench; [undo] takes the substitution back. *)
Example scenario_D :
  map p_id
    (onPitch (getSquadStatus Home (players Scenario.afterSubstitution)
                (substitutionEvents Scenario.afterSubstitution)
                (cards Scenario.afterSubstitution) 500)) = ["p10"; "p16"]
  /\ undo Scenario.afterSubstitution = Scenario.afterReturn
  /\ map p_id
       (onPitch (getSquadStatus Home (players Scenario.afterReturn)
                   (substitutionEvents Scenario.afterReturn)
                   (cards Scenario.afterReturn) 500)) = ["p2"; "p10"].
Proof. repeat split; reflexivity. Qed.

(** Scenario E: a red card keeps the player off the pitch at every elapsed
    time, whatever the substitutions. *)
Lemma red_card_excludes team ps subs cs elapsed card p :
  In card cs -> c_team card = team -> c_type card = Red ->
  In p (onPitch (getSquadStatus team ps subs cs elapsed)) ->
  p_id p <> c_player card.
Proof.
  intros Hin Hteam Hred Hp Heq. unfold getSquadStatus in Hp. cbn in Hp.
  apply filter_In in Hp as [_ Hp].
  apply andb_prop in Hp as [Hp _]. apply andb_prop in Hp as [_ Hp].
  apply negb_true_iff, bool_decide_eq_false in Hp. apply Hp.
  rewrite Heq. apply elem_of_list_to_set, list_elem_of_In, in_map_iff.
  exists card. split; [reflexivity|]. apply filter_In. split; [exact Hin|].
  unfold redCarded. now rewrite !bool_decide_eq_true_2.
Qed.

(** Rejecting an event twice: the second call finds nothing and changes
    nothing. *)
Lemma reject_twice eventId s :
  resolvePendingEvent eventId false (resolvePendingEvent eventId false s)
  = resolvePendingEvent eventId false s.
Proof.
  unfold resolvePendingEvent.
  destruct (List.find _ (scoreEvents s)) as [e|] eqn:Hfind; cbn.
  - destruct (List.find _ (List.filter _ _)) as [e'|] eqn:Hfind';
      [|reflexivity].
    apply find_id_In in Hfind' as [Hin Hid].
    apply filter_In in Hin as [_ Hin].
    apply negb_true_iff, bool_decide_eq_false in Hin. contradiction.
  - now rewrite Hfind.
Qed.

(** * Further properties of the store *)

(** ** Helpers on the last element of a ledger *)

Lemma fresh_scoreEvents_Forall uuid s :
  fresh uuid s = true -> Forall (fun e => se_id e <> uuid) (scoreEvents s).
Proof.
  intros H. apply List.Forall_forall. intros e He Heq.
  apply (fresh_scoreEvents _ _ H). apply in_map_iff. now exists e.
Qed.

Lemma find_snoc_fresh {A} (f : A -> string) (x : string) (l : list A) (e : A) :
  Forall (fun a => f a <> x) l -> f e = x ->
  List.find (fun a => bool_decide (f a = x)) (l ++ [e]) = Some e.
Proof.
  intros Hl He. induction Hl as [|a l Ha _ IH]; cbn.
  - now rewrite bool_decide_eq_true_2.
  - now rewrite bool_decide_eq_false_2.
Qed.

Lemma map_snoc_fresh {A} (f : A -> string) (g : A -> A) (x : string)
    (l : list A) (e : A) :
  Forall (fun a => f a <> x) l -> f e = x ->
  map (fun a => if bool_decide (f a = x) then g a else a) (l ++ [e])
  = l ++ [g e].
Proof.
  intros Hl He. induction Hl as [|a l Ha _ IH]; cbn.
  - now rewrite bool_decide_eq_true_2.
  - rewrite bool_decide_eq_false_2 by exact Ha. now rewrite IH.
Qed.

Lemma filter_out_snoc_fresh {A} (f : A -> string) (x : string) (l : list A)
    (e : A) :
  Forall (fun a => f a <> x) l -> f e = x ->
  List.filter (fun a => negb (bool_decide (f a = x))) (l ++ [e]) = l.
Proof.
  intros Hl He. rewrite List.filter_app, filter_out_absent by exact Hl.
  cbn. rewrite bool_decide_eq_true_2 by exact He. apply app_nil_r.
Qed.

Lemma at_index_before_last {A} (l : list A) (e : A) :
  at_index (l ++ [e]) (Z.of_nat (length (l ++ [e])) - 2) = last l.
Proof.
  rewrite length_app. cbn [length]. unfold at_index.
  destruct l as [|a l] using rev_ind; [reflexivity|].
  rewrite last_snoc, length_app. cbn [length].
  destruct (Z.ltb_spec (Z.of_nat (length l + 1 + 1) - 2) 0) as [H|H]; [lia|].
  replace (Z.to_nat (Z.of_nat (length l + 1 + 1) - 2)) with (length l) by lia.
  rewrite <- app_assoc. cbn. now rewrite list_lookup_middle.
Qed.

Lemma state_eta s :
  {| config := config s; homeScore := homeScore s; awayScore := awayScore s;
     scoreEvents := scoreEvents s; cards := cards s; players := players s;
     substitutionEvents := substitutionEvents s;
     systemEvents := systemEvents s; cardReturnEvents := cardReturnEvents s;
     currentHalf := currentHalf s; elapsedSeconds := elapsedSeconds s;
     injuryTime := injuryTime s; isRunning := isRunning s;
     lastTryTeam := lastTryTeam s; matchStarted := matchStarted s;
     currentMatchId := currentMatchId s;
     showSubstitutionModal := showSubstitutionModal s |} = s.
Proof. now destruct s. Qed.

(** ** Review of a pending event *)

(** X1: approving a pending submission right after it was made gives the
    state that the same submission gives without review: with a fresh
    identifier, [resolvePendingEvent] with [approved = true] applied to the
    outcome of [addScore ... pending = true] is the outcome of
    [addScore ... pending = false], refused conversions included. *)
Theorem approve_pending_is_addScore uuid now team type player s :
  fresh uuid s = true ->
  resolvePendingEvent uuid true (addScore uuid now team type player true s)
  = addScore uuid now team type player false s.
Proof.
  intros Hfresh. pose proof (fresh_scoreEvents_Forall _ _ Hfresh) as Hne.
  unfold addScore.
  destruct (bool_decide (type = Conversion)
            && conversionRefused team (scoreEvents s)).
  - unfold resolvePendingEvent.
    destruct (List.find _ (scoreEvents s)) as [e|] eqn:Hfind; [|reflexivity].
    apply find_id_In in Hfind as [Hin Hid].
    rewrite List.Forall_forall in Hne. now destruct (Hne e Hin).
  - unfold resolvePendingEvent.
    destruct team; cbn [scoreEvents set_lastTryTeam set_scoreEvents set_score
                          set_homeScore set_awayScore get_score];
      rewrite (find_snoc_fresh se_id uuid) by (exact Hne || reflexivity);
      rewrite (map_snoc_fresh se_id approve uuid)
        by (exact Hne || reflexivity);
      cbn; rewrite andb_true_r; reflexivity.
Qed.

Lemma approve_pending_is_addScore_witness :
  resolvePendingEvent "e2" true
    (addScore "e2" 2 Away Try None true Scenario.afterTry)
  = addScore "e2" 2 Away Try None false Scenario.afterTry.
Proof. apply approve_pending_is_addScore. reflexivity. Defined.

(** X2: rejecting a pending submission right after it was made restores the
    ledger, both scores and every other field except [lastTryTeam], which
    stays cleared; after a refused conversion nothing was added and nothing
    changes. *)
Theorem reject_pending_restores uuid now team type player s :
  fresh uuid s = true ->
  resolvePendingEvent uuid false (addScore uuid now team type player true s)
  = if bool_decide (type = Conversion)
       && conversionRefused team (scoreEvents s)
    then s else set_lastTryTeam None s.
Proof.
  intros Hfresh. pose proof (fresh_scoreEvents_Forall _ _ Hfresh) as Hne.
  unfold addScore.
  destruct (bool_decide (type = Conversion)
            && conversionRefused team (scoreEvents s)).
  - unfold resolvePendingEvent.
    destruct (List.find _ (scoreEvents s)) as [e|] eqn:Hfind; [|reflexivity].
    apply find_id_In in Hfind as [Hin Hid].
    rewrite List.Forall_forall in Hne. now destruct (Hne e Hin).
  - unfold resolvePendingEvent.
    destruct team; cbn [scoreEvents set_lastTryTeam set_scoreEvents set_score
                          set_homeScore set_awayScore get_score];
      rewrite (find_snoc_fresh se_id uuid) by (exact Hne || reflexivity);
      rewrite (filter_out_snoc_fresh se_id uuid)
        by (exact Hne || reflexivity);
      cbn; rewrite andb_false_r; reflexivity.
Qed.

Lemma reject_pending_restores_witness :
  resolvePendingEvent "e2" false
    (addScore "e2" 2 Away Try None true Scenario.afterTry)
  = set_lastTryTeam None Scenario.afterTry.
Proof.
  exact (reject_pending_restores "e2" 2 Away Try None Scenario.afterTry
           eq_refl).
Defined.

(** ** [undo] after an addition *)

(** X3: [undo] takes back a card that was just shown, and nothing else, when
    the card is the latest record: no score event is stamped after it and
    every substitution is stamped strictly before it (a substitution of the
    same millisecond would be removed in its place). *)
Theorem undo_addCard uuid now team player type s :
  time_or_zero se_timestamp (last (scoreEvents s)) <= now ->
  time_or_zero sub_timestamp (last (substitutionEvents s)) < now ->
  undo (addCard uuid now team player type s) = s.
Proof.
  intros He Hx. unfold undo, addCard.
  cbn [scoreEvents cards substitutionEvents set_cards].
  rewrite last_snoc. cbn [time_or_zero c_timestamp].
  destruct (Z.leb_spec now
              (time_or_zero sub_timestamp (last (substitutionEvents s))));
    [lia|].
  rewrite andb_false_r. cbn [andb].
  destruct (Z.ltb_spec now
              (time_or_zero se_timestamp (last (scoreEvents s)))); [lia|].
  cbn [andb]. unfold slice_init. rewrite removelast_last.
  destruct (last (scoreEvents s)); now destruct s.
Qed.

Lemma undo_addCard_witness :
  undo (addCard "c2" 6 Away "p7" Red Scenario.busy) = Scenario.busy.
Proof.
  apply undo_addCard.
  - change (5 <= 6). lia.
  - change (4 < 6). lia.
Defined.

(** X4: [undo] takes back a score event that was just recorded when every
    card and every substitution is stamped strictly before it: the ledger,
    both scores and every other field are restored, except [lastTryTeam],
    which becomes the event's team after a conversion, the team of the
    preceding event when that event is of kind [try], and is cleared
    otherwise. *)
Theorem undo_addScore uuid now team type player pending s :
  bool_decide (type = Conversion) && conversionRefused team (scoreEvents s)
  = false ->
  time_or_zero c_timestamp (last (cards s)) < now ->
  time_or_zero sub_timestamp (last (substitutionEvents s)) < now ->
  undo (addScore uuid now team type player pending s)
  = set_lastTryTeam
      (if bool_decide (type = Conversion) then Some team
       else
         match last (scoreEvents s) with
         | Some prev =>
             if bool_decide (se_type prev = Try)
             then Some (se_team prev) else None
         | None => None
         end) s.
Proof.
  intros Hrec Hc Hx. unfold addScore. rewrite Hrec. unfold undo.
  assert (forall sc ltt,
             scoreEvents
               (set_lastTryTeam ltt (set_scoreEvents sc (set_score team
                  (if pending then get_score team s
                   else get_score team s + points_of type) s))) = sc) as Hsc
    by (intros; now destruct team).
  assert (forall sc ltt,
             cards
               (set_lastTryTeam ltt (set_scoreEvents sc (set_score team
                  (if pending then get_score team s
                   else get_score team s + points_of type) s))) = cards s)
    as Hcs by (intros; now destruct team).
  assert (forall sc ltt,
             substitutionEvents
               (set_lastTryTeam ltt (set_scoreEvents sc (set_score team
                  (if pending then get_score team s
                   else get_score team s + points_of type) s)))
             = substitutionEvents s)
    as Hsubs by (intros; now destruct team).
  rewrite Hsc, Hcs, Hsubs, last_snoc. cbn [time_or_zero se_timestamp].
  rewrite (proj2 (Z.leb_gt _ _)) by exact Hx. cbn [andb].
  rewrite (proj2 (Z.ltb_lt _ _) Hc), (proj2 (Z.ltb_lt _ _) Hx).
  cbn [andb se_type se_team se_pending se_points].
  rewrite at_index_before_last. unfold slice_init. rewrite removelast_last.
  clear Hrec Hc Hx Hsc Hcs Hsubs.
  destruct team, pending; destruct s;
    cbv beta iota delta
      [set_lastTryTeam set_scoreEvents set_score set_homeScore set_awayScore
       get_score config homeScore awayScore scoreEvents cards players
       substitutionEvents systemEvents cardReturnEvents currentHalf
       elapsedSeconds injuryTime isRunning lastTryTeam matchStarted
       currentMatchId showSubstitutionModal];
    f_equal; lia.
Qed.

Lemma undo_addScore_witness :
  undo (addScore "e2" 6 Home Conversion None false Scenario.busy)
  = set_lastTryTeam (Some Home) Scenario.busy.
Proof.
  exact (undo_addScore "e2" 6 Home Conversion None false Scenario.busy
           eq_refl eq_refl eq_refl).
Defined.

(** X5: [undo] takes back a substitution that was just recorded when no
    score event and no card is stamped after it (on a tie the substitution
    goes first), but it does not take back the roster entry: a player that
    [addSubstitution] registered stays in [players]. *)
Theorem undo_addSubstitution uuid now team offId onId onPlayer s :
  time_or_zero se_timestamp (last (scoreEvents s)) <= now ->
  time_or_zero c_timestamp (last (cards s)) <= now ->
  undo (addSubstitution uuid now team offId onId onPlayer s)
  = set_players
      (match onPlayer with
       | Some p =>
           if existsb (fun q => bool_decide (p_id q = onId)) (players s)
           then players s else players s ++ [p]
       | None => players s
       end) s.
Proof.
  intros He Hc. unfold addSubstitution, undo.
  destruct (existsb _ (players s)); cbn [negb];
    destruct onPlayer as [p|];
    cbn [scoreEvents cards substitutionEvents set_players
           set_substitutionEvents];
    rewrite last_snoc; cbn [time_or_zero sub_timestamp];
    rewrite (proj2 (Z.leb_le _ _) He), (proj2 (Z.leb_le _ _) Hc);
    rewrite bool_decide_eq_true_2 by eauto; cbn [andb];
    unfold slice_init; rewrite removelast_last;
    now destruct s.
Qed.

Lemma undo_addSubstitution_witness :
  undo (addSubstitution "s2" 6 Home "p10" "p23" (Some Scenario.replacement)
          Scenario.busy)
  = set_players (players Scenario.busy ++ [Scenario.replacement])
      Scenario.busy.
Proof.
  exact (undo_addSubstitution "s2" 6 Home "p10" "p23"
           (Some Scenario.replacement) Scenario.busy
           ltac:(change (5 <= 6); lia) ltac:(change (2 <= 6); lia)).
Defined.

(** ** A try and its conversion *)

Lemma lastTry_snoc_try evs e :
  se_type e = Try -> se_pending e = false -> lastTry (evs ++ [e]) = Some e.
Proof.
  intros Ht Hp. apply lastTry_spec. exists evs, [].
  split; [reflexivity|]. split; [now split|constructor].
Qed.

(** X6: whatever the ledger holds, once a try of a team has been recorded
    without review the team's conversion is accepted and brings the team
    seven points above its score before the try, and a conversion submitted
    for the other team is refused and changes nothing. *)
Theorem conversion_after_try uuid1 now1 uuid2 now2 team player1 player2 s :
  get_score team
    (addScore uuid2 now2 team Conversion player2 false
       (addScore uuid1 now1 team Try player1 false s))
  = get_score team s + 7
  /\ get_score (otherTeam team)
       (addScore uuid2 now2 team Conversion player2 false
          (addScore uuid1 now1 team Try player1 false s))
     = get_score (otherTeam team) s
  /\ length (scoreEvents
               (addScore uuid2 now2 team Conversion player2 false
                  (addScore uuid1 now1 team Try player1 false s)))
     = S (S (length (scoreEvents s)))
  /\ addScore uuid2 now2 (otherTeam team) Conversion player2 false
       (addScore uuid1 now1 team Try player1 false s)
     = addScore uuid1 now1 team Try player1 false s.
Proof.
  set (s1 := addScore uuid1 now1 team Try player1 false s).
  assert (exists e, scoreEvents s1 = scoreEvents s ++ [e]
                    /\ se_type e = Try /\ se_pending e = false
                    /\ se_team e = team) as (e & Hs1 & Ht & Hp & Hteam).
  { subst s1. unfold addScore.
    rewrite (bool_decide_eq_false_2 (Try = Conversion)) by discriminate.
    destruct team; cbn; eexists; repeat split. }
  assert (get_score team s1 = get_score team s + 5
          /\ get_score (otherTeam team) s1 = get_score (otherTeam team) s)
    as [Hg Ho].
  { subst s1. unfold addScore.
    rewrite (bool_decide_eq_false_2 (Try = Conversion)) by discriminate.
    destruct team; cbn; split; reflexivity. }
  assert (lastTry (scoreEvents s1) = Some e) as Hlast
    by (rewrite Hs1; now apply lastTry_snoc_try).
  clearbody s1.
  unfold addScore, conversionRefused. rewrite Hlast, Hteam, Hs1.
  rewrite (bool_decide_eq_true_2 (team = team)) by reflexivity.
  rewrite (bool_decide_eq_false_2 (team = otherTeam team))
    by (destruct team; discriminate).
  rewrite (bool_decide_eq_true_2 (Conversion = Conversion)) by reflexivity.
  cbn [andb negb].
  destruct team; cbn in *; rewrite !length_app; cbn;
    repeat split; lia.
Qed.

(** ** The squad *)

Lemma excluded_dec team cs elapsed id :
  excluded team cs elapsed id \/ ~ excluded team cs elapsed id.
Proof.
  unfold excluded. induction cs as [|c cs IH].
  - right. intros (c & [] & _).
  - destruct IH as [(c' & Hin & H)|IH];
      [left; exists c'; split; [now right|exact H]|].
    destruct (decide (c_player c = id)) as [Hid|Hid];
      [destruct (redCarded team c) eqn:Hr;
       [|destruct (inSinBin team elapsed c) eqn:Hb]|].
    + left. exists c. split; [now left|]. auto.
    + left. exists c. split; [now left|]. auto.
    + right. intros (c' & [<-|Hin] & Hid' & [H|H]); try congruence;
        apply IH; exists c'; auto.
    + right. intros (c' & [<-|Hin] & Hid' & H); [contradiction|].
      apply IH. exists c'. auto.
Qed.

(** X7: [getSquadStatus] loses nobody: every player of the roster who plays
    for the requested team is on the pitch, or on the bench, or is kept off
    by a red card or a running yellow card of the team; and a player on the
    pitch is never one that such a card names. *)
Theorem squad_accounts_for_everyone team ps subs cs elapsed :
  (forall p,
      In p ps -> p_team p = team ->
      In p (onPitch (getSquadStatus team ps subs cs elapsed))
      \/ In p (onBench (getSquadStatus team ps subs cs elapsed))
      \/ excluded team cs elapsed (p_id p))
  /\ (forall p,
         In p (onPitch (getSquadStatus team ps subs cs elapsed)) ->
         In p ps /\ p_team p = team
         /\ ~ excluded team cs elapsed (p_id p))
  /\ (forall p,
         In p (onBench (getSquadStatus team ps subs cs elapsed)) ->
         In p ps /\ p_team p = team).
Proof.
  split; [|split].
  - intros p Hp Ht.
    destruct (decide (p_id p ∈ currentlyOnPitch team ps subs)) as [Hf|Hf].
    + destruct (excluded_dec team cs elapsed (p_id p)) as [Hex|Hex];
        [now right; right|].
      left. apply onPitch_In. auto.
    + right. left. apply onBench_In. auto.
  - intros p Hp. apply onPitch_In in Hp. tauto.
  - intros p Hp. apply onBench_In in Hp. tauto.
Qed.

Lemma squad_accounts_for_everyone_witness :
  In Scenario.replacement
    (onPitch (getSquadStatus Home (players Scenario.busy)
                (substitutionEvents Scenario.busy) (cards Scenario.busy) 100))
  \/ In Scenario.replacement
       (onBench (getSquadStatus Home (players Scenario.busy)
                   (substitutionEvents Scenario.busy)
                   (cards Scenario.busy) 100))
  \/ excluded Home (cards Scenario.busy) 100 (p_id Scenario.replacement).
Proof.
  apply (proj1 (squad_accounts_for_everyone Home (players Scenario.busy)
                  (substitutionEvents Scenario.busy)
                  (cards Scenario.busy) 100)).
  - right. right. now left.
  - reflexivity.
Defined.

Lemma addStarter_fold l : forall acc id,
  id ∈ fold_left addStarter l acc
  <-> id ∈ acc \/ exists q, In q l /\ p_isStarter q = true /\ p_id q = id.
Proof.
  induction l as [|q l IH]; intros acc id; cbn.
  - split; [auto|]. intros [H|(q & [] & _)]. exact H.
  - rewrite IH. unfold addStarter. split.
    + intros [H|(q' & Hq' & Hs & Hid)].
      * destruct (p_isStarter q) eqn:Hq; [|now left].
        apply elem_of_union in H as [H|H]; [now left|].
        apply elem_of_singleton in H. right. exists q. auto.
      * right. exists q'. auto.
    + intros [H|(q' & [<-|Hq'] & Hs & Hid)].
      * left. destruct (p_isStarter q); [|exact H].
        apply elem_of_union. now left.
      * left. rewrite Hs. apply elem_of_union. right.
        now apply elem_of_singleton.
      * right. exists q'. auto.
Qed.

Lemma unique_id_In {A} (f : A -> string) (l : list A) (a b : A) :
  NoDup (map f l) -> In a l -> In b l -> f a = f b -> a = b.
Proof.
  induction l as [|x l IH]; intros Hnd Ha Hb Hab; [destruct Ha|].
  cbn in Hnd. apply NoDup_cons in Hnd as [Hx Hnd].
  destruct Ha as [->|Ha], Hb as [->|Hb]; auto.
  - exfalso. apply Hx. rewrite Hab. apply list_elem_of_In, in_map_iff. eauto.
  - exfalso. apply Hx. rewrite <- Hab. apply list_elem_of_In, in_map_iff.
    eauto.
Qed.

Lemma teamPlayers_NoDup team ps :
  NoDup (map p_id ps) ->
  NoDup (map p_id
           (sort_by p_number
              (List.filter (fun p => bool_decide (p_team p = team)) ps))).
Proof.
  intros Hnd.
  rewrite (Permutation_map p_id (sort_by_Permutation p_number _)).
  eapply sublist_NoDup; [exact Hnd|]. apply map_sublist, filter_sublist.
Qed.

(** X8: before any substitution and card, with a roster of distinct
    identifiers, the pitch holds exactly the starters of the team and the
    bench exactly its other players, both in shirt-number order, at every
    elapsed time. *)
Theorem kickoff_squad team ps elapsed :
  NoDup (map p_id ps) ->
  onPitch (getSquadStatus team ps [] [] elapsed)
  = List.filter p_isStarter
      (sort_by p_number
         (List.filter (fun p => bool_decide (p_team p = team)) ps))
  /\ onBench (getSquadStatus team ps [] [] elapsed)
     = List.filter (fun p => negb (p_isStarter p))
         (sort_by p_number
            (List.filter (fun p => bool_decide (p_team p = team)) ps)).
Proof.
  intros Hnd. apply (teamPlayers_NoDup team) in Hnd.
  unfold getSquadStatus. cbn [onPitch onBench List.filter map fold_left].
  set (teamPlayers := sort_by p_number _) in *.
  assert (forall p, In p teamPlayers ->
                    bool_decide (p_id p ∈ fold_left addStarter teamPlayers ∅)
                    = p_isStarter p) as Hfield.
  { intros p Hp. destruct (p_isStarter p) eqn:Hs.
    - apply bool_decide_eq_true. apply addStarter_fold. right. eauto.
    - apply bool_decide_eq_false. intros Hin.
      apply addStarter_fold in Hin as [Hin|(q & Hq & Hqs & Hid)].
      + now apply not_elem_of_empty in Hin.
      + assert (q = p) by (eapply unique_id_In; eauto). congruence. }
  split; apply filter_ext_in; intros p Hp; rewrite (Hfield p Hp).
  - rewrite (bool_decide_eq_false_2 (p_id p ∈ list_to_set []))
      by apply not_elem_of_empty.
    now rewrite !andb_true_r.
  - reflexivity.
Qed.

Lemma kickoff_squad_witness :
  map p_id
    (onPitch (getSquadStatus Home (players Scenario.kickedOff) [] [] 0))
  = ["p2"; "p10"]
  /\ map p_id
       (onBench (getSquadStatus Home (players Scenario.kickedOff) [] [] 0))
     = ["p16"].
Proof.
  assert (NoDup (map p_id (players Scenario.kickedOff))) as Hnd.
  { change (NoDup ["p10"; "p2"; "p16"]). apply NoDup_ListNoDup.
    repeat constructor; cbn; intuition discriminate. }
  destruct (kickoff_squad Home (players Scenario.kickedOff) 0 Hnd)
    as [-> ->].
  split; reflexivity.
Defined.

Lemma currentlyOnPitch_snoc team ps subs x :
  sub_team x = team ->
  currentlyOnPitch team ps (subs ++ [x])
  = applySub (currentlyOnPitch team ps subs) x.
Proof.
  intros Ht. unfold currentlyOnPitch. rewrite List.filter_app. cbn.
  rewrite bool_decide_eq_true_2 by exact Ht. now rewrite fold_left_app.
Qed.

(** X9: a substitution takes effect at once and at every elapsed time: in
    the squad of the team read off the store after [addSubstitution], a
    roster player of the team with the incoming identifier is on the pitch
    unless a card keeps him off, and, when the two identifiers differ, a
    roster player with the outgoing identifier is on the bench and not on
    the pitch. *)
Theorem substitution_takes_effect uuid now team offId onId onPlayer s elapsed :
  (forall p,
      In p (players (addSubstitution uuid now team offId onId onPlayer s)) ->
      p_team p = team -> p_id p = onId ->
      ~ excluded team (cards s) elapsed onId ->
      In p (onPitch
              (squadAt team
                 (addSubstitution uuid now team offId onId onPlayer s)
                 elapsed)))
  /\ (offId <> onId ->
      forall p,
        In p (players (addSubstitution uuid now team offId onId onPlayer s)) ->
        p_team p = team -> p_id p = offId ->
        In p (onBench
                (squadAt team
                   (addSubstitution uuid now team offId onId onPlayer s)
                   elapsed))
        /\ ~ In p (onPitch
                     (squadAt team
                        (addSubstitution uuid now team offId onId onPlayer s)
                        elapsed))).
Proof.
  set (s' := addSubstitution uuid now team offId onId onPlayer s).
  assert (exists x, substitutionEvents s' = substitutionEvents s ++ [x]
                    /\ sub_team x = team /\ sub_offPlayerId x = offId
                    /\ sub_onPlayerId x = onId)
    as (x & Hsubs & Ht & Hoff & Hon).
  { subst s'. unfold addSubstitution.
    destruct (negb _), onPlayer; cbn; eexists; repeat split. }
  assert (cards s' = cards s) as Hcards.
  { subst s'. unfold addSubstitution. now destruct (negb _), onPlayer. }
  unfold squadAt. rewrite Hsubs, Hcards. clearbody s'. split.
  - intros p Hp Hteam Hid Hex. apply onPitch_In.
    repeat split; try assumption; [|now rewrite Hid].
    rewrite currentlyOnPitch_snoc by exact Ht. unfold applySub.
    apply elem_of_union. right. apply elem_of_singleton. congruence.
  - intros Hne p Hp Hteam Hid.
    assert (p_id p ∉ currentlyOnPitch team (players s')
                       (substitutionEvents s ++ [x])) as Hout.
    { rewrite currentlyOnPitch_snoc by exact Ht. unfold applySub.
      rewrite Hoff, Hon, Hid. intros Hin.
      apply elem_of_union in Hin as [Hin|Hin].
      - apply elem_of_difference in Hin as [_ Hin]. apply Hin.
        now apply elem_of_singleton.
      - apply elem_of_singleton in Hin. contradiction. }
    split.
    + apply onBench_In. auto.
    + intros Hin. apply onPitch_In in Hin. tauto.
Qed.

Lemma substitution_takes_effect_witness :
  In Scenario.replacement
    (onPitch (squadAt Home Scenario.afterSubstitution 500)).
Proof.
  apply (proj1 (substitution_takes_effect "s1" 4 Home "p2" "p16" None
                  Scenario.afterReturn 500)).
  - right. right. now left.
  - reflexivity.
  - reflexivity.
  - intros (c & [<-|[]] & Hid & _). discriminate.
Defined.

(** X10: the substitution dialog never changes the roster.  With an empty
    choice [handleConfirm] does nothing, the dialog staying open; otherwise
    the outcome is the state with one more substitution, of the chosen team
    and identifiers and stamped with the clock of the store, and with the
    dialog closed: [showSubstitutionModal] is [false] and every other field
    is kept, [players] included, because the incoming player is looked up
    on the bench of the roster. *)
Theorem confirmSubstitution_frame uuid now team offId onId s :
  (offId = EmptyString \/ onId = EmptyString ->
   confirmSubstitution uuid now team offId onId s = s)
  /\ (offId <> EmptyString -> onId <> EmptyString ->
      confirmSubstitution uuid now team offId onId s
      = set_showSubstitutionModal false
          (set_substitutionEvents
             (substitutionEvents s
              ++ [{| sub_id := uuid; sub_timestamp := now; sub_team := team;
                     sub_offPlayerId := offId; sub_onPlayerId := onId;
                     sub_half := currentHalf s;
                     sub_minute := elapsedSeconds s / 60;
                     sub_matchTime := elapsedSeconds s |}]) s)
      /\ showSubstitutionModal (confirmSubstitution uuid now team offId onId s)
         = false
      /\ players (confirmSubstitution uuid now team offId onId s)
         = players s
      /\ same_apart_from_substitutions s
           (set_showSubstitutionModal (showSubstitutionModal s)
              (confirmSubstitution uuid now team offId onId s))).
Proof.
  unfold confirmSubstitution, handleConfirm. split.
  - intros [-> | ->].
    + now rewrite bool_decide_eq_true_2.
    + rewrite (bool_decide_eq_true_2 (EmptyString = EmptyString))
        by reflexivity.
      now rewrite orb_true_r.
  - intros Hoff Hon.
    rewrite !bool_decide_eq_false_2 by assumption. cbn [orb].
    unfold addSubstitution, setShowSubstitutionModal.
    destruct (List.find _ (onBench _)) as [p|] eqn:Hfind.
    + apply find_id_In in Hfind as [Hin Hid].
      apply onBench_In in Hin as (Hin & _ & _).
      assert (existsb (fun q => bool_decide (p_id q = onId)) (players s)
              = true) as ->.
      { apply existsb_exists. exists p. split; [exact Hin|].
        now apply bool_decide_eq_true_2. }
      cbn. repeat split.
    + destruct (negb _); cbn; repeat split.
Qed.

Lemma confirmSubstitution_frame_witness :
  players (confirmSubstitution "s2" 6 Home "p10" "p2" Scenario.busy)
  = players Scenario.busy
  /\ showSubstitutionModal
       (confirmSubstitution "s2" 6 Home "p10" "p2"
          (setShowSubstitutionModal true Scenario.busy))
     = false
  /\ confirmSubstitution "s2" 6 Home "" "p2"
       (setShowSubstitutionModal true Scenario.busy)
     = setShowSubstitutionModal true Scenario.busy.
Proof.
  split; [|split].
  - destruct (proj2 (confirmSubstitution_frame "s2" 6 Home "p10" "p2"
                       Scenario.busy)) as (_ & _ & H & _);
      [discriminate|discriminate|exact H].
  - destruct (proj2 (confirmSubstitution_frame "s2" 6 Home "p10" "p2"
                       (setShowSubstitutionModal true Scenario.busy)))
      as (_ & H & _); [discriminate|discriminate|exact H].
  - apply (proj1 (confirmSubstitution_frame "s2" 6 Home "" "p2"
                    (setShowSubstitutionModal true Scenario.busy))).
    now left.
Defined.

(** ** The sin-bin list *)



(** ** The clock *)

(** X12: while the clock runs, [n] firings of the timer add exactly [n]
    seconds and leave every other field alone, the running flag included;
    while it is paused they change nothing at all. *)
Theorem ticks_advance n s :
  ticks n s
  = if isRunning s
    then set_elapsedSeconds (elapsedSeconds s + Z.of_nat n) s
    else s.
Proof.
  unfold ticks. induction n as [|n IH].
  - change (Nat.iter 0 tick s) with s.
    destruct s; cbn [isRunning elapsedSeconds].
    destruct isRunning0; [|reflexivity].
    unfold set_elapsedSeconds; cbn. f_equal. lia.
  - change (Nat.iter (S n) tick s) with (tick (Nat.iter n tick s)).
    rewrite IH. unfold tick.
    destruct s; cbn [isRunning elapsedSeconds].
    destruct isRunning0; [|reflexivity].
    unfold set_elapsedSeconds; cbn. f_equal. lia.
Qed.

(** ** The review list of the log screen *)

Lemma pendingEvents_approve x l :
  List.filter se_pending
    (map (fun e => if bool_decide (se_id e = x) then approve e else e) l)
  = List.filter (fun e => negb (bool_decide (se_id e = x)))
      (List.filter se_pending l).
Proof.
  induction l as [|e l IH]; [reflexivity|]. cbn.
  destruct (bool_decide (se_id e = x)) eqn:Hid; cbn.
  - rewrite IH. destruct (se_pending e); cbn; [now rewrite Hid|reflexivity].
  - rewrite IH. destruct (se_pending e); cbn; [now rewrite Hid|reflexivity].
Qed.

Lemma filter_comm {A} (p q : A -> bool) (l : list A) :
  List.filter p (List.filter q l) = List.filter q (List.filter p l).
Proof.
  induction l as [|a l IH]; [reflexivity|]. cbn.
  destruct (p a) eqn:Hp, (q a) eqn:Hq; cbn; rewrite ?Hp, ?Hq, IH; reflexivity.
Qed.

(** X13: the review buttons act on the event they are shown for.  For an
    event of the review list, in a ledger of distinct identifiers:
    approving it adds its points to its team's score and to no other,
    rejecting it changes no score, either way the event leaves the review
    list and the other pending events stay on it, and the call is one that
    the gate [pendingOnly] lets through. *)
Theorem review_acts_on_listed_event s e approved :
  unique_score_ids s ->
  In e (pendingEvents s) ->
  pendingOnly s (OpResolvePendingEvent (se_id e) approved) = true
  /\ get_score (se_team e) (resolvePendingEvent (se_id e) approved s)
     = get_score (se_team e) s + (if approved then se_points e else 0)
  /\ get_score (otherTeam (se_team e))
       (resolvePendingEvent (se_id e) approved s)
     = get_score (otherTeam (se_team e)) s
  /\ pendingEvents (resolvePendingEvent (se_id e) approved s)
     = List.filter (fun x => negb (bool_decide (se_id x = se_id e)))
         (pendingEvents s).
Proof.
  intros Hnd Hin. unfold pendingEvents in Hin.
  apply filter_In in Hin as [Hin Hp].
  assert (List.find (fun x => bool_decide (se_id x = se_id e)) (scoreEvents s)
          = Some e) as Hfind.
  { destruct (List.find _ (scoreEvents s)) as [e'|] eqn:Hfind.
    - apply find_id_In in Hfind as [Hin' Hid]. f_equal.
      eapply unique_id_In; eauto.
    - apply find_id_None in Hfind. rewrite List.Forall_forall in Hfind.
      now destruct (Hfind e Hin). }
  unfold resolvePendingEvent, pendingEvents. cbn [pendingOnly].
  rewrite Hfind. split; [exact Hp|].
  destruct approved.
  - destruct (se_team e); cbn; rewrite pendingEvents_approve;
      repeat split; lia.
  - destruct (se_team e); cbn; rewrite filter_comm; repeat split; lia.
Qed.

Lemma review_acts_on_listed_event_witness :
  get_score Away
    (resolvePendingEvent "e2" true Scenario.afterPendingTry) = 0 + 5
  /\ pendingEvents (resolvePendingEvent "e2" true Scenario.afterPendingTry)
     = [].
Proof.
  assert (unique_score_ids Scenario.afterPendingTry) as Hnd.
  { unfold unique_score_ids.
    change (NoDup ["e1"; "e2"]). apply NoDup_ListNoDup.
    repeat constructor; cbn; intuition discriminate. }
  destruct (review_acts_on_listed_event Scenario.afterPendingTry
              {| se_id := "e2"; se_timestamp := 2; se_team := Away;
                 se_type := Try; se_points := 5; se_player := None;
                 se_half := 1; se_minute := 0; se_matchTime := 0;
                 se_pending := true |} true Hnd)
    as (_ & Hs & _ & Hl).
  - vm_compute. left. reflexivity.
  - split; [exact Hs|exact Hl].
Defined.

(** ** The score column of the log table *)

Lemma itemPoints_app team l1 l2 :
  itemPoints team (l1 ++ l2) = itemPoints team l1 + itemPoints team l2.
Proof. induction l1 as [|e l1 IH]; cbn; [lia|]. rewrite IH. lia. Qed.

Lemma itemPoints_Permutation team l1 l2 :
  Permutation l1 l2 -> itemPoints team l1 = itemPoints team l2.
Proof. induction 1; cbn; lia. Qed.

Lemma itemPoints_scores team evs :
  itemPoints team (map ItemScore evs) = teamPoints team evs.
Proof. induction evs as [|e evs IH]; cbn; [reflexivity|]. now rewrite IH. Qed.

Lemma itemPoints_others {A} team (f : A -> LogEventItem) (l : list A) :
  (forall a, itemContribution team (f a) = 0) ->
  itemPoints team (map f l) = 0.
Proof.
  intros Hf. induction l as [|a l IH]; cbn; [reflexivity|].
  rewrite Hf, IH. reflexivity.
Qed.

Lemma itemPoints_allEventsChrono team s :
  itemPoints team (allEventsChrono s) = teamPoints team (scoreEvents s).
Proof.
  unfold allEventsChrono.
  rewrite (itemPoints_Permutation _ _ _ (sort_by_Permutation _ _)).
  unfold logItems. rewrite !itemPoints_app, itemPoints_scores.
  rewrite !itemPoints_others by reflexivity. lia.
Qed.

Lemma scoreAtEvent_step_totals evs : forall h a m,
  fst (fold_left scoreAtEvent_step evs (h, a, m))
  = (h + itemPoints Home evs, a + itemPoints Away evs).
Proof.
  induction evs as [|ev evs IH]; intros h a m; cbn [fold_left itemPoints].
  - cbn. f_equal; lia.
  - unfold scoreAtEvent_step at 2.
    destruct ev as [e| | | |]; cbn [itemContribution];
      try (rewrite IH; f_equal; lia).
    unfold contribution. destruct (se_pending e); cbn [negb andb].
    + rewrite IH. f_equal; lia.
    + destruct (se_team e); repeat case_bool_decide; try discriminate;
        try congruence; rewrite IH; f_equal; lia.
Qed.

(** X14: in the log table the row of the chronologically last event shows
    the final score: the text stored for it in [scoreAtEvent] is that of the
    sums of the approved home and away points of the ledger, which in a
    session with consistent scores are [homeScore] and [awayScore]. *)
Theorem scoreAtEvent_last s ev :
  score_consistent s ->
  last (allEventsChrono s) = Some ev ->
  scoreAtEvent s !! item_id ev
  = Some (scoreText (homeScore s) (awayScore s)).
Proof.
  intros [Hh Ha] Hlast. unfold scoreAtEvent.
  pose proof (itemPoints_allEventsChrono Home s) as HH.
  pose proof (itemPoints_allEventsChrono Away s) as HA.
  apply last_snoc_inv in Hlast. rewrite Hlast in HH, HA |- *.
  rewrite itemPoints_app in HH, HA. cbn [itemPoints] in HH, HA.
  rewrite fold_left_app. cbn [fold_left].
  pose proof (scoreAtEvent_step_totals (removelast (allEventsChrono s))
                0 0 ∅) as Htot.
  destruct (fold_left scoreAtEvent_step _ (0, 0, ∅)) as [[h a] m].
  cbn in Htot. injection Htot as -> ->.
  unfold scoreAtEvent_step. rewrite Hh, Ha, <- HH, <- HA.
  destruct ev as [e| | | |]; cbn [itemContribution item_id snd];
    try (rewrite lookup_insert_eq; do 2 f_equal; lia).
  unfold contribution. destruct (se_pending e); cbn [negb andb snd].
  - rewrite lookup_insert_eq. do 2 f_equal; lia.
  - destruct (se_team e); repeat case_bool_decide; try discriminate;
      try congruence; cbn [snd]; rewrite lookup_insert_eq;
      do 2 f_equal; lia.
Qed.

Lemma scoreAtEvent_last_witness :
  scoreAtEvent Scenario.busy !! "e1" = Some (scoreText 5 0).
Proof.
  apply (scoreAtEvent_last Scenario.busy
           (ItemScore
              {| se_id := "e1"; se_timestamp := 5; se_team := Home;
                 se_type := Try; se_points := 5; se_player := Some "p10";
                 se_half := 1; se_minute := 1; se_matchTime := 100;
                 se_pending := false |})).
  - split; reflexivity.
  - reflexivity.
Defined.

(** ** What holds of every session, whatever the actions *)

















(** ** The Return button of the sin-bin timers *)





(** ** Removing twice *)

Lemma filter_idem {A} (p : A -> bool) (l : list A) :
  List.filter p (List.filter p l) = List.filter p l.
Proof.
  induction l as [|a l IH]; [reflexivity|]. cbn.
  destruct (p a) eqn:Hp; cbn; rewrite ?Hp, IH; reflexivity.
Qed.

(** X17: every removal is idempotent: removing a score event, a card, a
    substitution or a player, or rejecting an event under review, a second
    time with the same identifier changes nothing more, the recomputed
    scores and [lastTryTeam] of [removeScoreEvent] included. *)
Theorem removals_idempotent id s :
  removeScoreEvent id (removeScoreEvent id s) = removeScoreEvent id s
  /\ removeCard id (removeCard id s) = removeCard id s
  /\ removeSubstitution id (removeSubstitution id s) = removeSubstitution id s
  /\ deletePlayer id (deletePlayer id s) = deletePlayer id s
  /\ resolvePendingEvent id false (resolvePendingEvent id false s)
     = resolvePendingEvent id false s.
Proof.
  split; [|split; [|split; [|split]]].
  - unfold removeScoreEvent.
    destruct (recompute
                (List.filter (fun e => negb (bool_decide (se_id e = id)))
                   (scoreEvents s))) as [[h a] ltt] eqn:Hrec.
    cbn -[recompute]. rewrite filter_idem, Hrec. reflexivity.
  - unfold removeCard. cbn. now rewrite filter_idem.
  - unfold removeSubstitution. cbn. now rewrite filter_idem.
  - unfold deletePlayer. cbn. now rewrite filter_idem.
  - apply reject_twice.
Qed.

(** ** Player statistics of a finished match *)

Lemma bump_lookup id' n (m : gmap string Z) id :
  default 0 (bump id' n m !! id)
  = default 0 (m !! id) + (if bool_decide (id' = id) then n else 0).
Proof.
  unfold bump. case_bool_decide as Hid.
  - subst. rewrite lookup_insert_eq. reflexivity.
  - rewrite lookup_insert_ne by exact Hid. lia.
Qed.

Lemma addLine_zero_r a : addLine a zeroLine = a.
Proof. destruct a. unfold addLine. cbn. f_equal; lia. Qed.

Lemma addLine_zero_l a : addLine zeroLine a = a.
Proof. destruct a. unfold addLine. cbn. f_equal; lia. Qed.

Lemma addLine_assoc a b c :
  addLine a (addLine b c) = addLine (addLine a b) c.
Proof. unfold addLine. cbn. f_equal; lia. Qed.

Lemma addLine_swap a b c :
  addLine a (addLine b c) = addLine b (addLine a c).
Proof. unfold addLine. cbn. f_equal; lia. Qed.

(** One round of the loop adds the worth of the entry. *)
Lemma tally_line d ev id :
  statLine (tally d ev) id = addLine (statLine d id) (creditOf id ev).
Proof.
  unfold creditOf, tally, statLine, addLine.
  destruct (log_type ev), (truthy_id (log_playerId ev)) as [p|],
    (log_points ev) as [pts|];
    try destruct (negb (default false (log_pending ev)));
    repeat match goal with
           | |- context [if ?b then _ else _] => destruct b
           end;
    cbn; f_equal; rewrite ?bump_lookup, ?lookup_empty; cbn; lia.
Qed.

Lemma fold_tally id log : forall d,
  statLine (fold_left tally log d) id
  = addLine (statLine d id) (logCredit id log).
Proof.
  induction log as [|ev log IH]; intros d; cbn [fold_left logCredit].
  - now rewrite addLine_zero_r.
  - rewrite IH, tally_line, addLine_assoc. reflexivity.
Qed.

Lemma statLine_zeroDeltas ids id : statLine (zeroDeltas ids) id = zeroLine.
Proof.
  unfold zeroDeltas.
  assert (statLine noDeltas id = zeroLine) as H by reflexivity.
  revert H. generalize noDeltas.
  induction ids as [|k ids IH]; intros d Hd; cbn [fold_left]; [exact Hd|].
  apply IH. unfold statLine, zeroLine in *. cbn.
  injection Hd as H1 H2 H3 H4.
  destruct (decide (k = id)) as [->|Hne].
  - rewrite !lookup_insert_eq. reflexivity.
  - rewrite !lookup_insert_ne by exact Hne. cbn. congruence.
Qed.

Lemma logCredit_app id l1 l2 :
  logCredit id (l1 ++ l2) = addLine (logCredit id l1) (logCredit id l2).
Proof.
  induction l1 as [|ev l1 IH]; cbn.
  - now rewrite addLine_zero_l.
  - now rewrite IH, addLine_assoc.
Qed.

Lemma logCredit_Permutation id l1 l2 :
  Permutation l1 l2 -> logCredit id l1 = logCredit id l2.
Proof.
  induction 1 as [|x l1 l2 _ IH|x y l|l1 l2 l3 _ IH1 _ IH2]; cbn.
  - reflexivity.
  - now rewrite IH.
  - apply addLine_swap.
  - congruence.
Qed.

Lemma logCredit_zero {A} id (f : A -> LogEvent) (l : list A) :
  (forall a, creditOf id (f a) = zeroLine) ->
  logCredit id (map f l) = zeroLine.
Proof.
  intros Hf. induction l as [|a l IH]; cbn; [reflexivity|].
  now rewrite Hf, IH.
Qed.

Lemma creditOf_scoreEntry id e :
  id <> EmptyString ->
  creditOf id (scoreEntry e)
  = if creditedTo id e
    then {| line_tries := if isTryType (se_type e) then 1 else 0;
            line_points := se_points e;
            line_yellowCards := 0; line_redCards := 0 |}
    else zeroLine.
Proof.
  intros Hid. unfold creditOf, tally, creditedTo, isTryType, scoreEntry.
  cbn. destruct (se_player e) as [p|]; cbn;
    [|rewrite andb_false_r; reflexivity].
  destruct (decide (p = EmptyString)) as [->|Hp].
  - cbn. rewrite (bool_decide_eq_false_2 (Some EmptyString = Some id))
      by congruence.
    rewrite andb_false_r. reflexivity.
  - rewrite (bool_decide_eq_false_2 (p = EmptyString)) by exact Hp.
    destruct (se_pending e); cbn; [reflexivity|].
    destruct (decide (p = id)) as [->|Hne].
    + rewrite (bool_decide_eq_true_2 (Some id = Some id)) by reflexivity.
      destruct (se_type e); cbn; unfold statLine; cbn;
        repeat case_bool_decide; try discriminate; try congruence; cbn;
        rewrite ?bump_lookup, ?lookup_empty;
        rewrite ?(bool_decide_eq_true_2 (id = id)) by reflexivity;
        reflexivity.
    + rewrite (bool_decide_eq_false_2 (Some p = Some id)) by congruence.
      destruct (se_type e); cbn; unfold statLine, zeroLine; cbn;
        repeat case_bool_decide; try discriminate; try congruence; cbn;
        rewrite ?bump_lookup, ?lookup_empty;
        rewrite ?(bool_decide_eq_false_2 (p = id)) by exact Hne;
        reflexivity.
Qed.

Lemma creditOf_cardEntry id c :
  id <> EmptyString ->
  creditOf id (cardEntry c)
  = {| line_tries := 0; line_points := 0;
       line_yellowCards := if shownTo id Yellow c then 1 else 0;
       line_redCards := if shownTo id Red c then 1 else 0 |}.
Proof.
  intros Hid. unfold creditOf, tally, shownTo, cardEntry. cbn.
  destruct (decide (c_player c = EmptyString)) as [Hp|Hp].
  - rewrite (bool_decide_eq_true_2 _ Hp).
    rewrite (bool_decide_eq_false_2 (c_player c = id)) by congruence.
    reflexivity.
  - rewrite (bool_decide_eq_false_2 _ Hp).
    destruct (decide (c_player c = id)) as [Hq|Hq].
    + rewrite (bool_decide_eq_true_2 _ Hq).
      destruct (c_type c) eqn:Hty; cbn; unfold statLine; cbn;
        repeat case_bool_decide; try discriminate; try congruence; cbn;
        rewrite ?bump_lookup, ?lookup_empty;
        rewrite ?(bool_decide_eq_true_2 _ Hq); reflexivity.
    + rewrite (bool_decide_eq_false_2 _ Hq).
      destruct (c_type c) eqn:Hty; cbn; unfold statLine, zeroLine; cbn;
        repeat case_bool_decide; try discriminate; try congruence; cbn;
        rewrite ?bump_lookup, ?lookup_empty;
        rewrite ?(bool_decide_eq_false_2 _ Hq); reflexivity.
Qed.

Lemma logCredit_scores id evs :
  id <> EmptyString ->
  logCredit id (map scoreEntry evs) = playerLine id evs [].
Proof.
  intros Hid. induction evs as [|e evs IH]; [reflexivity|].
  cbn [map logCredit]. rewrite IH, creditOf_scoreEntry by exact Hid.
  unfold playerLine, addLine. cbn [List.filter].
  destruct (creditedTo id e); cbn [andb];
    [destruct (isTryType (se_type e))|]; cbn; f_equal; lia.
Qed.

Lemma logCredit_cards id cs :
  id <> EmptyString ->
  logCredit id (map cardEntry cs) = playerLine id [] cs.
Proof.
  intros Hid. induction cs as [|c cs IH]; [reflexivity|].
  cbn [map logCredit]. rewrite IH, creditOf_cardEntry by exact Hid.
  unfold playerLine, addLine. cbn [List.filter].
  destruct (shownTo id Yellow c), (shownTo id Red c); cbn; f_equal; lia.
Qed.

(** Nothing is ever tallied under the empty identifier. *)
Lemma creditOf_empty ev : creditOf EmptyString ev = zeroLine.
Proof.
  unfold creditOf, tally, statLine, zeroLine.
  destruct (log_type ev), (truthy_id (log_playerId ev)) as [p|] eqn:Hp,
    (log_points ev) as [pts|];
    try destruct (negb (default false (log_pending ev)));
    repeat match goal with
           | |- context [if ?b then _ else _] => destruct b
           end;
    cbn; try reflexivity;
    (assert (p <> EmptyString) as Hne
      by (unfold truthy_id in Hp; destruct (log_playerId ev); [|discriminate];
          case_bool_decide; congruence));
    rewrite ?bump_lookup, ?lookup_empty;
    rewrite ?(bool_decide_eq_false_2 _ Hne); reflexivity.
Qed.

(** X18: what a finished match credits to a player.  The figures that
    [updatePlayerStatsFromLog] adds for a player, computed on the log that
    [buildLogFromSnapshot] makes of a snapshot, are: as tries, the number of
    approved tries and penalty tries that name the player; as points, the
    sum of the points of the approved score events that name him; as yellow
    and red cards, the number of cards of each kind shown to him.  Events
    under review count for nothing, and nothing is credited to the empty
    identifier. *)
Theorem stats_from_log snap id :
  statLine (statDeltas (buildLogFromSnapshot snap) (snap_playerIds snap)) id
  = if bool_decide (id = EmptyString) then zeroLine
    else playerLine id (snap_scoreEvents snap) (snap_cards snap).
Proof.
  unfold statDeltas. rewrite fold_tally, statLine_zeroDeltas, addLine_zero_l.
  unfold buildLogFromSnapshot.
  rewrite (logCredit_Permutation _ _ _ (sort_by_Permutation _ _)).
  case_bool_decide as Hid.
  - subst. generalize (pushedEntries snap). intros log.
    induction log as [|ev log IH]; [reflexivity|].
    cbn. now rewrite creditOf_empty, IH.
  - unfold pushedEntries. rewrite !logCredit_app.
    rewrite logCredit_scores, logCredit_cards by exact Hid.
    rewrite (logCredit_zero id substitutionEntry) by reflexivity.
    rewrite (logCredit_zero id systemEntry)
      by (intros [? ? [] ? ?]; reflexivity).
    rewrite !addLine_zero_r. unfold playerLine, addLine. cbn.
    f_equal; lia.
Qed.

(** ** The list of matches *)

Lemma StronglySorted_impl {A} (R R' : A -> A -> Prop) (l : list A) :
  (forall a b, R a b -> R' a b) -> StronglySorted R l -> StronglySorted R' l.
Proof.
  intros HR. induction 1 as [|a l _ IH Hall]; constructor; [exact IH|].
  eapply List.Forall_impl; [|exact Hall]. intros b. apply HR.
Qed.




(** ** The table of matches *)

Lemma table_keyed_insert (db : gmap string Match) m :
  table_keyed db -> table_keyed (<[m_id m := m]> db).
Proof.
  intros Hk k m' Hm'. destruct (decide (m_id m = k)) as [<-|Hne].
  - rewrite lookup_insert_eq in Hm'. congruence.
  - rewrite lookup_insert_ne in Hm' by exact Hne. now apply Hk.
Qed.

(** X20: [saveScheduledMatch] never touches a result.  On a table whose
    records sit under their own identifiers, and with a new identifier at
    hand, the call succeeds and changes one record only, the one whose
    identifier it returns.  That record carries the schedule of the
    parameters and is not a completed match.  When it was there before, it
    keeps its identifier, scores, clock, log, status and creation time;
    otherwise it is a new match, not played, with no score and an empty
    log.  Every completed match of the table is left exactly as it was. *)
Theorem saveScheduledMatch_keeps_results uuid now params db :
  table_keyed db ->
  db !! uuid = None ->
  exists db' id m',
    saveScheduledMatch uuid now params db = Some (db', id)
    /\ table_keyed db'
    /\ (forall k, k <> id -> db' !! k = db !! k)
    /\ db' !! id = Some m'
    /\ m_scheduledAt m' = Some (sp_scheduledAt params)
    /\ m_homeTeamName m' = sp_homeTeamName params
    /\ m_awayTeamName m' = sp_awayTeamName params
    /\ m_updatedAt m' = now
    /\ m_status m' <> Completed
    /\ match db !! id with
       | Some m =>
           sp_id params = Some id
           /\ m_homeScore m' = m_homeScore m
           /\ m_awayScore m' = m_awayScore m
           /\ m_currentHalf m' = m_currentHalf m
           /\ m_elapsedSeconds m' = m_elapsedSeconds m
           /\ m_log m' = m_log m
           /\ m_status m' = m_status m
           /\ m_startedAt m' = m_startedAt m
           /\ m_createdAt m' = m_createdAt m
       | None =>
           id = uuid /\ m_status m' = NotPlayed
           /\ m_homeScore m' = 0 /\ m_awayScore m' = 0 /\ m_log m' = []
           /\ m_createdAt m' = now
       end
    /\ (forall k m, db !! k = Some m -> m_status m = Completed ->
                    db' !! k = Some m).
Proof.
  intros Hk Hfresh.
  assert (forall m,
             m_id m = uuid -> m_status m = NotPlayed ->
             m_scheduledAt m = Some (sp_scheduledAt params) ->
             m_homeTeamName m = sp_homeTeamName params ->
             m_awayTeamName m = sp_awayTeamName params ->
             m_updatedAt m = now -> m_homeScore m = 0 -> m_awayScore m = 0 ->
             m_log m = [] -> m_createdAt m = now ->
             exists db' id m',
               match table_add m db with
               | Some db' => Some (db', uuid)
               | None => None
               end = Some (db', id)
               /\ table_keyed db'
               /\ (forall k, k <> id -> db' !! k = db !! k)
               /\ db' !! id = Some m'
               /\ m_scheduledAt m' = Some (sp_scheduledAt params)
               /\ m_homeTeamName m' = sp_homeTeamName params
               /\ m_awayTeamName m' = sp_awayTeamName params
               /\ m_updatedAt m' = now
               /\ m_status m' <> Completed
               /\ match db !! id with
                  | Some m0 =>
                      sp_id params = Some id
                      /\ m_homeScore m' = m_homeScore m0
                      /\ m_awayScore m' = m_awayScore m0
                      /\ m_currentHalf m' = m_currentHalf m0
                      /\ m_elapsedSeconds m' = m_elapsedSeconds m0
                      /\ m_log m' = m_log m0
                      /\ m_status m' = m_status m0
                      /\ m_startedAt m' = m_startedAt m0
                      /\ m_createdAt m' = m_createdAt m0
                  | None =>
                      id = uuid /\ m_status m' = NotPlayed
                      /\ m_homeScore m' = 0 /\ m_awayScore m' = 0
                      /\ m_log m' = [] /\ m_createdAt m' = now
                  end
               /\ (forall k m0, db !! k = Some m0 ->
                                m_status m0 = Completed ->
                                db' !! k = Some m0)) as Hcreate.
  { intros m Hid Hst Hsch Hhn Han Hup Hhs Has Hlog Hcr.
    unfold table_add. rewrite Hid, Hfresh.
    exists (<[uuid := m]> db), uuid, m.
    split; [reflexivity|]. split; [|split; [|split]].
    - rewrite <- Hid. now apply table_keyed_insert.
    - intros k Hne. now rewrite lookup_insert_ne.
    - apply lookup_insert_eq.
    - rewrite Hfresh, Hst. repeat split; try assumption; try discriminate.
      intros k m0 Hm0 _. rewrite lookup_insert_ne; [exact Hm0|].
      intros <-. congruence. }
  unfold saveScheduledMatch.
  destruct (truthy_id (sp_id params)) as [id|] eqn:Hid;
    [|apply Hcreate; reflexivity].
  destruct (db !! id) as [existing|] eqn:Hex;
    [|apply Hcreate; reflexivity].
  destruct (bool_decide (m_status existing = NotPlayed)
            || bool_decide (m_status existing = Playing)) eqn:Hst;
    [|apply Hcreate; reflexivity].
  assert (m_id existing = id) as Hkey by now apply Hk.
  assert (sp_id params = Some id) as Hsp.
  { unfold truthy_id in Hid. destruct (sp_id params) as [i|]; [|discriminate].
    destruct (bool_decide (i = EmptyString)); congruence. }
  assert (m_status existing <> Completed) as Hnc.
  { intros Hc. rewrite Hc in Hst.
    rewrite !bool_decide_eq_false_2 in Hst by discriminate. discriminate. }
  eexists _, id, _. split; [reflexivity|].
  unfold table_put. cbn [m_id]. rewrite Hkey.
  split; [|split; [|split]].
  - intros k m Hm. destruct (decide (id = k)) as [<-|Hne].
    + rewrite lookup_insert_eq in Hm. injection Hm as <-. reflexivity.
    + rewrite lookup_insert_ne in Hm by exact Hne. now apply Hk.
  - intros k Hne. now rewrite lookup_insert_ne.
  - apply lookup_insert_eq.
  - rewrite Hex. cbn. repeat split; try assumption.
    intros k m Hm Hc. rewrite lookup_insert_ne; [exact Hm|].
    intros <-. congruence.
Qed.

Lemma saveScheduledMatch_keeps_results_witness :
  exists db',
    saveScheduledMatch "m9" 60 (Fixtures.params (Some "m1")) Fixtures.db
    = Some (db', "m9")
    /\ db' !! "m1" = Some Fixtures.played.
Proof.
  assert (table_keyed Fixtures.db) as Hk.
  { unfold Fixtures.db. intros k m.
    rewrite !lookup_insert_Some, lookup_empty.
    intros [[<- <-]|[_ [[<- <-]|[_ [[<- <-]|[_ H]]]]]];
      [reflexivity..|discriminate]. }
  destruct (saveScheduledMatch_keeps_results "m9" 60
              (Fixtures.params (Some "m1")) Fixtures.db Hk eq_refl)
    as (db' & id & m' & Hsave & _ & _ & _ & _ & _ & _ & _ & _ & _ & Hkeep).
  exists db'. split.
  - vm_compute in Hsave. injection Hsave as <- <-. vm_compute. reflexivity.
  - apply Hkeep; reflexivity.
Defined.

(** X21: the life of a match record.  [createMatch] at kick-off stores a
    playing match under a new identifier; [saveFinishedMatch] with that
    identifier then turns exactly that record into a completed one, ended
    at the time of the call, holding the scores and clock of the final
    snapshot and the log [buildLogFromSnapshot] makes of it, started at the
    stamp of the first system event when there is one; the record keeps its
    identifier and creation time, every other record of the table is as it
    was before the match was created, and no second record is made. *)
Theorem finished_match_lifecycle uuid now uuid' now' snap0 snap db :
  db !! uuid = None ->
  uuid <> EmptyString ->
  exists db1 db2 m,
    createMatch uuid now snap0 Playing db = Some (db1, uuid)
    /\ saveFinishedMatch uuid' now' snap (Some uuid) db1 = Some (db2, uuid)
    /\ db2 !! uuid = Some m
    /\ m_id m = uuid
    /\ m_status m = Completed
    /\ m_endedAt m = Some now'
    /\ m_homeScore m = snap_homeScore snap
    /\ m_awayScore m = snap_awayScore snap
    /\ m_elapsedSeconds m = snap_elapsedSeconds snap
    /\ m_log m = buildLogFromSnapshot snap
    /\ m_startedAt m
       = match snap_systemEvents snap with
         | e :: _ => sys_timestamp e
         | [] => now'
         end
    /\ m_createdAt m = now
    /\ (forall k, k <> uuid -> db2 !! k = db !! k).
Proof.
  intros Hfresh Hne. unfold createMatch, table_add. cbn [m_id].
  rewrite Hfresh. eexists _, _, _. split; [reflexivity|].
  unfold saveFinishedMatch, truthy_id.
  rewrite (bool_decide_eq_false_2 (uuid = EmptyString)) by exact Hne.
  rewrite lookup_insert_eq. split; [reflexivity|].
  unfold table_put. cbn [m_id]. rewrite lookup_insert_eq.
  split; [reflexivity|]. cbn. repeat split.
  intros k Hk. now rewrite !lookup_insert_ne.
Qed.

Lemma finished_match_lifecycle_witness :
  exists db1 db2 m,
    createMatch "m9" 60 (stateToMatchSnapshot Scenario.kickedOff) Playing
      Fixtures.db = Some (db1, "m9")
    /\ saveFinishedMatch "m10" 70 (stateToMatchSnapshot Scenario.busy)
         (Some "m9") db1 = Some (db2, "m9")
    /\ db2 !! "m9" = Some m
    /\ m_status m = Completed
    /\ m_homeScore m = 5.
Proof.
  destruct (finished_match_lifecycle "m9" 60 "m10" 70
              (stateToMatchSnapshot Scenario.kickedOff)
              (stateToMatchSnapshot Scenario.busy) Fixtures.db)
    as (db1 & db2 & m & H1 & H2 & H3 & _ & H4 & _ & H5 & _).
  - reflexivity.
  - discriminate.
  - exists db1, db2, m. repeat split; assumption.
Defined.

(** ** The two orders of the log screen *)

Lemma StronglySorted_rev {A} (R : A -> A -> Prop) (l : list A) :
  StronglySorted R l -> StronglySorted (fun a b => R b a) (rev l).
Proof.
  induction 1 as [|a l _ IH Hall]; cbn; [constructor|].
  apply StronglySorted_app_2; [|exact IH|repeat constructor].
  intros x1 x2 Hx1 Hx2. apply list_elem_of_singleton in Hx2 as ->.
  rewrite List.Forall_forall in Hall. apply Hall.
  apply in_rev. now apply list_elem_of_In.
Qed.

Lemma unique_key_In {A} (f : A -> Z) (l : list A) (a b : A) :
  NoDup (map f l) -> In a l -> In b l -> f a = f b -> a = b.
Proof.
  induction l as [|x l IH]; intros Hnd Ha Hb Hab; [destruct Ha|].
  cbn in Hnd. apply NoDup_cons in Hnd as [Hx Hnd].
  destruct Ha as [->|Ha], Hb as [->|Hb]; auto.
  - exfalso. apply Hx. rewrite Hab. apply list_elem_of_In, in_map_iff. eauto.
  - exfalso. apply Hx. rewrite <- Hab. apply list_elem_of_In, in_map_iff.
    eauto.
Qed.

(** X22: the log list is the log table upside down.  Both are stable sorts
    of the same rows, one on descending and one on ascending stamps; when
    no two events of the session share a stamp, the list of the log screen
    is exactly the reverse of the chronological table on which the running
    score is computed. *)
Theorem log_list_reverses_table s :
  NoDup (map item_timestamp (logItems s)) ->
  allEvents s = rev (allEventsChrono s).
Proof.
  intros Hnd. unfold allEvents, allEventsChrono.
  pose proof (sort_by_Permutation item_timestamp (logItems s)) as Hp1.
  pose proof (sort_by_Permutation (fun ev => - item_timestamp ev)
                (logItems s)) as Hp2.
  apply (StronglySorted_unique_strong
           (key_le (fun ev => - item_timestamp ev))).
  - intros x1 x2 Hx1 Hx2 H12 H21. unfold key_le in *.
    apply (unique_key_In item_timestamp (logItems s)); [exact Hnd|..|lia].
    + apply (Permutation_in _ Hp2). now apply list_elem_of_In.
    + apply (Permutation_in _ Hp1), in_rev. now apply list_elem_of_In.
  - apply sort_by_sorted.
  - eapply StronglySorted_impl;
      [|apply StronglySorted_rev, (sort_by_sorted item_timestamp)].
    unfold key_le. intros a b. cbn. lia.
  - eapply Permutation_trans; [exact Hp2|].
    eapply Permutation_trans; [exact (Permutation_sym Hp1)|].
    apply Permutation_rev.
Qed.

Lemma log_list_reverses_table_witness :
  map item_id (allEvents Scenario.busy)
  = rev (map item_id (allEventsChrono Scenario.busy)).
Proof.
  rewrite <- map_rev.
  rewrite (log_list_reverses_table Scenario.busy); [reflexivity|].
  match goal with
  | |- NoDup ?l => let l' := eval vm_compute in l in change (NoDup l')
  end.
  apply NoDup_ListNoDup. repeat constructor; cbn; intuition discriminate.
Defined.

(** ** The tap guard of the score and card buttons *)

Lemma acceptedTaps_app lastTap l1 l2 :
  acceptedTaps lastTap (l1 ++ l2)
  = acceptedTaps lastTap l1 ++ acceptedTaps (tapState lastTap l1) l2.
Proof.
  revert lastTap. induction l1 as [|t l1 IH]; intros lastTap; [reflexivity|].
  cbn. unfold handleClick. destruct (t - lastTap <? 300); cbn;
    rewrite IH; reflexivity.
Qed.

Lemma tapState_bound b times : forall lastTap,
  Forall (fun t => t <= b) times -> lastTap <= b ->
  tapState lastTap times <= b.
Proof.
  induction times as [|t times IH]; intros lastTap Hall Hb; [exact Hb|].
  apply Forall_cons in Hall as [Ht Hall]. cbn. apply IH; [exact Hall|].
  unfold handleClick. destruct (t - lastTap <? 300); cbn; assumption.
Qed.

Lemma acceptedTaps_after times : forall lastTap,
  Forall (fun t => lastTap + 300 <= t) (acceptedTaps lastTap times)
  /\ StronglySorted (fun a b => a + 300 <= b) (acceptedTaps lastTap times).
Proof.
  induction times as [|t times IH]; intros lastTap; cbn;
    [split; constructor|].
  unfold handleClick.
  destruct (Z.ltb_spec (t - lastTap) 300) as [Hlt|Hge]; cbn; [apply IH|].
  destruct (IH t) as [Hall Hs]. split.
  - constructor; [lia|]. eapply List.Forall_impl; [|exact Hall].
    cbn. intros; lia.
  - constructor; assumption.
Qed.

Lemma acceptedTaps_sublist times : forall lastTap,
  acceptedTaps lastTap times `sublist_of` times.
Proof.
  induction times as [|t times IH]; intros lastTap; cbn; [constructor|].
  unfold handleClick. destruct (t - lastTap <? 300); cbn;
    [apply sublist_cons|apply sublist_skip]; apply IH.
Qed.

(** X23: the tap guard.  Whatever the times of the taps on a button and
    whatever the stored time of the last tap, a double tap and a single tap
    included: the taps that go through are among the taps, in their order;
    each comes at least 300 ms after the stored time and after the one that
    went through before it, hence any two of them are at least 300 ms
    apart; a first tap at least 300 ms after the stored time goes through;
    and when the times do not run backwards, a tap that comes 300 ms or
    more after the tap before it always goes through. *)
Theorem taps_debounced lastTap times :
  acceptedTaps lastTap times `sublist_of` times
  /\ Forall (fun t => lastTap + 300 <= t) (acceptedTaps lastTap times)
  /\ StronglySorted (fun a b => a + 300 <= b) (acceptedTaps lastTap times)
  /\ (forall t rest,
         times = t :: rest -> lastTap + 300 <= t ->
         exists later, acceptedTaps lastTap times = t :: later)
  /\ (forall t rest,
         times = t :: rest -> t < lastTap + 300 ->
         acceptedTaps lastTap times = acceptedTaps lastTap rest)
  /\ (forall before t1 t2 after,
         times = before ++ t1 :: t2 :: after ->
         Forall (fun t => t <= t1) before ->
         lastTap <= t1 ->
         t1 + 300 <= t2 ->
         In t2 (acceptedTaps lastTap times)).
Proof.
  split; [apply acceptedTaps_sublist|].
  split; [apply acceptedTaps_after|].
  split; [apply acceptedTaps_after|].
  split; [|split].
  - intros t rest -> Ht. cbn. unfold handleClick.
    destruct (Z.ltb_spec (t - lastTap) 300); [lia|]. cbn. eauto.
  - intros t rest -> Ht. cbn. unfold handleClick.
    destruct (Z.ltb_spec (t - lastTap) 300); [reflexivity|lia].
  - intros before t1 t2 after -> Hbefore Hlast Hgap.
    change (before ++ t1 :: t2 :: after)
      with (before ++ [t1] ++ t2 :: after).
    rewrite app_assoc, acceptedTaps_app. apply in_or_app. right.
    assert (tapState lastTap (before ++ [t1]) <= t1) as Hst.
    { apply tapState_bound; [|exact Hlast].
      apply Forall_app. split; [exact Hbefore|]. repeat constructor. lia. }
    cbn. unfold handleClick.
    destruct (Z.ltb_spec (t2 - tapState lastTap (before ++ [t1])) 300);
      [lia|]. now left.
Qed.

(** A double tap fires once; a tap 300 ms after the one before it fires. *)
Lemma taps_debounced_witness :
  acceptedTaps 0 [1000; 1100] = [1000]
  /\ In 1400 (acceptedTaps 0 [1000; 1100; 1400; 1500]).
Proof.
  destruct (taps_debounced 0 [1000; 1100])
    as (_ & _ & _ & Hfirst & _).
  destruct (taps_debounced 1000 [1100]) as (_ & _ & _ & _ & Hskip & _).
  destruct (taps_debounced 0 [1000; 1100; 1400; 1500])
    as (_ & _ & _ & _ & _ & Hgap).
  split.
  - destruct (Hfirst 1000 [1100] eq_refl) as (later & Hl); [lia|].
    rewrite Hl. f_equal. injection Hl as <-.
    exact (Hskip 1100 [] eq_refl eq_refl).
  - apply (Hgap [1000] 1100 1400 [1500] eq_refl);
      [repeat constructor; lia|lia|lia].
Defined.

(** ** Half time and full time *)

(** X24: a sin bin does not stop at half time.  [nextHalf] sets the clock
    back to zero and leaves the cards as they are, and the return time of a
    card is a time of the clock: a card of the sin-bin list at the end of a
    half is still on the list when the next half begins, and the time it
    shows as left has grown by the time played in the half that ended. *)
Theorem sin_bin_across_half uuid now s card :
  0 <= elapsedSeconds s ->
  In card (activeSinBins (cards s) (elapsedSeconds s)) ->
  elapsedSeconds (nextHalf uuid now s) = 0
  /\ currentHalf (nextHalf uuid now s) = currentHalf s + 1
  /\ isRunning (nextHalf uuid now s) = false
  /\ In card (activeSinBins (cards (nextHalf uuid now s))
                (elapsedSeconds (nextHalf uuid now s)))
  /\ timeLeft (elapsedSeconds (nextHalf uuid now s)) card
     = timeLeft (elapsedSeconds s) card + elapsedSeconds s.
Proof.
  intros Hel Hin. unfold nextHalf. cbn.
  split; [reflexivity|]. split; [reflexivity|]. split; [reflexivity|].
  unfold activeSinBins in *. apply filter_In in Hin as [Hin Hact].
  unfold sinBinActive, timeLeft in *.
  destruct (c_returnTime card) as [rt|] eqn:Hret; cbn in *;
    [|rewrite andb_false_r in Hact; discriminate].
  apply andb_prop in Hact as [Hact Hrt]. apply andb_prop in Hrt as [H0 Hrt].
  apply Z.ltb_lt in Hrt. split; [|lia].
  apply filter_In. split; [exact Hin|]. rewrite Hret, Hact, H0. cbn.
  apply Z.ltb_lt. lia.
Qed.

Lemma sin_bin_across_half_witness :
  timeLeft (elapsedSeconds (nextHalf "h1" 9 Scenario.afterYellow))
    {| c_id := "c1"; c_timestamp := 2; c_team := Home; c_player := "p10";
       c_type := Yellow; c_half := 1; c_minute := 1; c_matchTime := 100;
       c_returnTime := Some 700; c_returned := false |}
  = 600 + 100.
Proof.
  refine (proj2 (proj2 (proj2 (proj2
            (sin_bin_across_half "h1" 9 Scenario.afterYellow _ _ _))))).
  - vm_compute. discriminate.
  - vm_compute. left. reflexivity.
Defined.

(** X25: nothing of a match survives the next kick-off.  After [endMatch],
    [startMatch] gives the state that it gives on the initial state with
    the same configuration: no score, no event, no card, no player and no
    substitution is left, the clock is at zero in the first half, and the
    system events hold the new match start only, the end of the previous
    match included in what is dropped. *)
Theorem new_match_is_clean uuid1 now1 uuid2 now2 s :
  startMatch uuid2 now2 (endMatch uuid1 now1 s)
  = startMatch uuid2 now2
      (set_showSubstitutionModal (showSubstitutionModal s)
         (set_config (config s) initialState)).
Proof. reflexivity. Qed.

(** ** Assigning a score event to a player *)

Lemma playerLine_cons id e evs cs :
  playerLine id (e :: evs) cs
  = addLine (eventLine id e) (playerLine id evs cs).
Proof.
  unfold playerLine, eventLine, addLine, zeroLine. cbn [List.filter].
  destruct (creditedTo id e); cbn [andb];
    [destruct (isTryType (se_type e))|]; cbn; f_equal; lia.
Qed.

Lemma last_map {A B} (f : A -> B) (l : list A) :
  last (map f l) = option_map f (last l).
Proof.
  destruct l as [|a l] using rev_ind; [reflexivity|].
  rewrite map_app. cbn. now rewrite !last_snoc.
Qed.

(** X26: assigning a score event to a player moves its credit and nothing
    else.  With distinct event identifiers, [updateScoreEventPlayer] on an
    event of the ledger leaves both scores, the team sums and the answer of
    the conversion guard as they were; and for every player, the figures of
    the ledger after the call plus what the event was worth to him before
    are the figures before the call plus what the event is worth to him
    with its new player: the former player loses the event's points and
    try, the new one gains them, when the event is approved. *)
Theorem reassign_moves_credit eventId playerId s e :
  unique_score_ids s ->
  In e (scoreEvents s) ->
  se_id e = eventId ->
  homeScore (updateScoreEventPlayer eventId playerId s) = homeScore s
  /\ awayScore (updateScoreEventPlayer eventId playerId s) = awayScore s
  /\ (forall team,
         teamPoints team
           (scoreEvents (updateScoreEventPlayer eventId playerId s))
         = teamPoints team (scoreEvents s))
  /\ (forall team,
         conversionRefused team
           (scoreEvents (updateScoreEventPlayer eventId playerId s))
         = conversionRefused team (scoreEvents s))
  /\ (forall id,
         addLine
           (playerLine id
              (scoreEvents (updateScoreEventPlayer eventId playerId s))
              (cards (updateScoreEventPlayer eventId playerId s)))
           (eventLine id e)
         = addLine (playerLine id (scoreEvents s) (cards s))
             (eventLine id (reassigned playerId e))).
Proof.
  intros Hnd Hin Hid. unfold updateScoreEventPlayer. cbn.
  split; [reflexivity|]. split; [reflexivity|]. split; [|split].
  - intros team. apply teamPoints_reassign.
  - intros team. unfold conversionRefused, lastTry.
    rewrite filter_map_commute
      by (intros a; destruct (bool_decide (se_id a = eventId)); reflexivity).
    rewrite last_map. destruct (last _) as [x|]; [|reflexivity]. cbn.
    destruct (bool_decide (se_id x = eventId)); reflexivity.
  - intros id. unfold unique_score_ids in Hnd.
    generalize (cards s). intros cs.
    induction (scoreEvents s) as [|a l IH]; [destruct Hin|].
    cbn in Hnd. apply NoDup_cons in Hnd as [Hna Hnd].
    cbn [map]. rewrite !playerLine_cons.
    destruct Hin as [->|Hin].
    + rewrite bool_decide_eq_true_2 by exact Hid.
      replace (map _ l) with l.
      * fold (reassigned playerId e). unfold addLine.
        cbn [line_tries line_points line_yellowCards line_redCards].
        f_equal; lia.
      * symmetry. rewrite <- (map_id l) at 2. apply map_ext_in.
        intros b Hb. rewrite bool_decide_eq_false_2; [reflexivity|].
        intros Heq. apply Hna. apply list_elem_of_In, in_map_iff.
        exists b. split; [congruence|exact Hb].
    + assert (se_id a <> eventId) as Hne.
      { intros Heq. apply Hna. apply list_elem_of_In, in_map_iff.
        exists e. split; [congruence|exact Hin]. }
      rewrite bool_decide_eq_false_2 by exact Hne.
      rewrite <- !addLine_assoc. f_equal. now apply IH.
Qed.

Lemma reassign_moves_credit_witness :
  addLine
    (playerLine "p2"
       (scoreEvents (updateScoreEventPlayer "e1" (Some "p2") Scenario.busy))
       (cards (updateScoreEventPlayer "e1" (Some "p2") Scenario.busy)))
    zeroLine
  = addLine (playerLine "p2" (scoreEvents Scenario.busy)
               (cards Scenario.busy))
      {| line_tries := 1; line_points := 5;
         line_yellowCards := 0; line_redCards := 0 |}.
Proof.
  assert (unique_score_ids Scenario.busy) as Hnd.
  { unfold unique_score_ids. change (NoDup ["e1"]). apply NoDup_singleton. }
  exact (proj2 (proj2 (proj2 (proj2
    (reassign_moves_credit "e1" (Some "p2") Scenario.busy
       {| se_id := "e1"; se_timestamp := 5; se_team := Home;
          se_type := Try; se_points := 5; se_player := Some "p10";
          se_half := 1; se_minute := 1; se_matchTime := 100;
          se_pending := false |} Hnd (or_introl eq_refl) eq_refl))))
    "p2").
Defined.
